(** * Skillsight edge worker: request-handling core

    A shallow embedding of [worker/src/index.ts] (rate limiter, cache tier,
    manifest resolver, fallback synthesizer, search engine and router) and
    the properties of its specification.

    Conventions of the embedding.
    - JavaScript numbers that the worker handles (epoch milliseconds,
      install counts, page numbers, indices) are integers and are modelled
      as [Z].
    - Strings are [string]; a character is one code unit below 256.
    - Module-level mutable state, the edge cache ([caches.default]) and a
      trace of the storage operations performed form the [World]; every
      stateful function passes the world explicitly and may throw.
    - Built-ins of the JavaScript platform whose behaviour is not part of
      the repository ([JSON.parse], [String.prototype.localeCompare],
      [Number], [decodeURIComponent]) are fields of the [Platform] class. *)

From Stdlib Require Import ZArith String Ascii List Sorted Permutation.
From stdpp Require Import gmap strings list fin_maps pretty.

Local Open Scope string_scope.
Local Open Scope Z_scope.

(** ** Strings *)

Definition dquote : string := String (ascii_of_nat 34) EmptyString.

Definition ascii_code (c : ascii) : Z := Z.of_nat (nat_of_ascii c).

(** White space removed by [String.prototype.trim], restricted to code
    units below 256: TAB, LF, VT, FF, CR, SPACE and NBSP. *)
Definition is_js_space (c : ascii) : bool :=
  let n := ascii_code c in
  ((9 <=? n) && (n <=? 13)) || (n =? 32) || (n =? 160).

Fixpoint trim_start (s : string) : string :=
  match s with
  | String c s' => if is_js_space c then trim_start s' else s
  | EmptyString => EmptyString
  end.

Fixpoint trim_end (s : string) : string :=
  match s with
  | String c s' =>
      match trim_end s' with
      | EmptyString => if is_js_space c then EmptyString else String c EmptyString
      | t => String c t
      end
  | EmptyString => EmptyString
  end.

Definition trim (s : string) : string := trim_end (trim_start s).

(** [String.prototype.toLowerCase] on code units below 256. *)
Definition lower_ascii (c : ascii) : ascii :=
  let n := ascii_code c in
  if ((65 <=? n) && (n <=? 90)) || ((192 <=? n) && (n <=? 222) && negb (n =? 215))
  then ascii_of_nat (Z.to_nat (n + 32)) else c.

Fixpoint toLowerCase (s : string) : string :=
  match s with
  | String c s' => String (lower_ascii c) (toLowerCase s')
  | EmptyString => EmptyString
  end.

Definition startsWith (s p : string) : bool := String.prefix p s.

Fixpoint includes (s q : string) : bool :=
  String.prefix q s ||
  match s with
  | String _ s' => includes s' q
  | EmptyString => false
  end.

Definition endsWith (s p : string) : bool :=
  let n := String.length s in
  let k := String.length p in
  (k <=? n)%nat && String.eqb (String.substring (n - k) k s) p.

(** [s.slice(n)]. *)
Definition slice_from (n : nat) (s : string) : string :=
  String.substring n (String.length s - n) s.

(** [s.split(sep)] for a one-character separator. *)
Fixpoint split (sep : ascii) (s : string) : list string :=
  match s with
  | EmptyString => [EmptyString]
  | String c s' =>
      if Ascii.eqb c sep then EmptyString :: split sep s'
      else match split sep s' with
           | p :: ps => String c p :: ps
           | [] => [String c EmptyString]
           end
  end.

(** [parts.join(sep)]. *)
Definition join (sep : string) (parts : list string) : string :=
  String.concat sep parts.

Definition is_digit (c : ascii) : bool :=
  let n := ascii_code c in (48 <=? n) && (n <=? 57).

Fixpoint all_digits (s : string) : bool :=
  match s with
  | String c s' => is_digit c && all_digits s'
  | EmptyString => true
  end.

(** [Number(s)] for a string of decimal digits. *)
Fixpoint digits_value (acc : Z) (s : string) : Z :=
  match s with
  | String c s' => digits_value (10 * acc + (ascii_code c - 48)) s'
  | EmptyString => acc
  end.

(** [String(n)] for an integer. *)
Definition String_of (n : Z) : string := pretty n.

Fixpoint repeat_string (n : nat) (s : string) : string :=
  match n with
  | O => EmptyString
  | S k => s ++ repeat_string k s
  end.

(** [s.padStart(width, "0")]. *)
Definition padStart0 (width : nat) (s : string) : string :=
  repeat_string (width - String.length s) "0" ++ s.

(** JavaScript truthiness of a string. *)
Definition truthy (s : string) : bool := negb (String.eqb s EmptyString).

(** ** Arithmetic built-ins *)

(** [Math.ceil(a / b)] for integers [a] and positive [b]. *)
Definition Math_ceil_div (a b : Z) : Z := - ((- a) / b).

Definition Math_max : Z -> Z -> Z := Z.max.
Definition Math_min : Z -> Z -> Z := Z.min.

(** [x ?? d]. *)
Definition nullish {A} (x : option A) (d : A) : A :=
  match x with Some v => v | None => d end.

(** ** Plain objects used as string-keyed records *)

Definition StrMap := list (string * string).

Fixpoint obj_get {V} (k : string) (o : list (string * V)) : option V :=
  match o with
  | [] => None
  | (k', v) :: o' => if String.eqb k k' then Some v else obj_get k o'
  end.

(** [o[k] = v]: an existing property keeps its position. *)
Fixpoint obj_set {V} (k : string) (v : V) (o : list (string * V)) : list (string * V) :=
  match o with
  | [] => [(k, v)]
  | (k', v') :: o' =>
      if String.eqb k k' then (k, v) :: o' else (k', v') :: obj_set k v o'
  end.

(** [{ ...a, ...b }]. *)
Definition obj_spread {V} (a b : list (string * V)) : list (string * V) :=
  fold_left (fun acc kv => obj_set (fst kv) (snd kv) acc) b a.


(** ** Data model *)

Module SearchIndexItem.
Record t := mk {
  id : string;
  skill_id : string;
  owner : string;
  repo : string;
  name : string;
  canonical_url : string;
  total_installs : option Z;
  weekly_installs : option Z;
  rank_at_fetch : option Z;
}.
End SearchIndexItem.

(** [PlatformInstalls] only ever occurs as [null] in what the worker
    builds, so it is not given a representation of its own. *)
Module SkillListItem.
Record t := mk {
  id : string;
  skill_id : string;
  owner : string;
  repo : string;
  name : string;
  canonical_url : string;
  total_installs : option Z;
  weekly_installs : option Z;
  rank_at_fetch : option Z;
  description : option string;
  platform_installs : option unit;
}.
End SkillListItem.

Inductive SortMode := installs | weekly | name.

Definition SortMode_eqb (a b : SortMode) : bool :=
  match a, b with
  | installs, installs | weekly, weekly | name, name => true
  | _, _ => false
  end.

Definition SortMode_string (m : SortMode) : string :=
  match m with installs => "installs" | weekly => "weekly" | name => "name" end.

(** The value of [sortParam] once [isSortMode] has accepted it. *)
Definition SortMode_of_string (s : string) : option SortMode :=
  if String.eqb s "installs" then Some installs
  else if String.eqb s "weekly" then Some weekly
  else if String.eqb s "name" then Some name
  else None.

Definition isSortMode (value : string) : bool :=
  match SortMode_of_string value with Some _ => true | None => false end.

Record Counts := {
  total_skills : option Z;
  total_repos : option Z;
}.

(** [LatestManifest] once its [snapshot_date] has been validated. *)
Record LatestManifest := {
  snapshot_date : string;
  page_size : option Z;
  counts : option Counts;
}.

(** What [JSON.parse] yields for [data/v1/latest.json]: the date may be
    missing. *)
Record LatestManifestJson := {
  lmj_snapshot_date : option string;
  lmj_page_size : option Z;
  lmj_counts : option Counts;
}.

(** [SnapshotLatestManifest]: what [JSON.parse] yields for
    [snapshots/latest.json]. *)
Record SnapshotLatestManifest := {
  date : option string;
}.

Module SnapshotStatsSummary.
Record t := mk {
  total_skills : option Z;
  total_repos : option Z;
  snapshot_date : string;
}.
End SnapshotStatsSummary.

Module SnapshotSkillsManifest.
Record t := mk {
  snapshot_date : string;
  total_skills : option Z;
  page_size : option Z;
  page_count : option Z;
}.
End SnapshotSkillsManifest.

Module SnapshotSkillPageItem.
Record t := mk {
  source : string;
  skillId : string;
  name : string;
  installs : option Z;
}.
End SnapshotSkillPageItem.

Module SnapshotSkillLookup.
Record t := mk {
  page : Z;
  index : Z;
}.
End SnapshotSkillLookup.

(** [entries] lists the properties of the parsed object in the order
    [Object.entries] enumerates them. *)
Module SnapshotSkillLookupDocument.
Record t := mk {
  snapshot_date : string;
  total_entries : Z;
  entries : option (list (string * SnapshotSkillLookup.t));
}.
End SnapshotSkillLookupDocument.

Module SearchIndexDocument.
Record t := mk {
  snapshot_date : string;
  items : list SearchIndexItem.t;
}.
End SearchIndexDocument.

(** What [JSON.parse] yields for a slim index before [loadSearchIndex]
    has checked it. *)
Record SearchIndexJson := {
  sij_snapshot_date : option string;
  sij_items : option (list SearchIndexItem.t);
}.

(** A parsed [Record<string, unknown>] artifact that the worker passes
    through; only its [page_size] property is ever inspected:
    [None] when the property is absent, [Some None] when it is present
    but not a number. *)
Record JsonRecord := {
  jr_text : string;
  jr_page_size : option (option Z);
}.

(** ** Platform built-ins *)

Class Platform := {
  (** [JSON.parse(text) as T], [None] when [JSON.parse] throws. *)
  parse_LatestManifest : string -> option LatestManifestJson;
  parse_SnapshotLatestManifest : string -> option SnapshotLatestManifest;
  parse_SnapshotStatsSummary : string -> option SnapshotStatsSummary.t;
  parse_SnapshotSkillsManifest : string -> option SnapshotSkillsManifest.t;
  parse_SnapshotSkillsPage : string -> option (list SnapshotSkillPageItem.t);
  parse_SnapshotSkillLookupDocument : string -> option SnapshotSkillLookupDocument.t;
  parse_SearchIndexDocument : string -> option SearchIndexJson;
  parse_Record : string -> option JsonRecord;
  (** [a.localeCompare(b)]. *)
  localeCompare : string -> string -> Z;
  (** [Math.floor(Number(s))], [None] when [Number(s)] is not finite. *)
  Number_floor : string -> option Z;
  (** [decodeURIComponent(s)], [None] when it throws. *)
  decodeURIComponent : string -> option string;
}.

(** The comparator of [localeCompare] is consistent: it orders strings
    by a collation, so its sign is antisymmetric and [<= 0] is
    transitive. *)
Class ConsistentCollation (P : Platform) : Prop := {
  localeCompare_antisym : forall a b, localeCompare a b <= 0 \/ localeCompare b a <= 0;
  localeCompare_trans : forall a b c,
    localeCompare a b <= 0 -> localeCompare b c <= 0 -> localeCompare a c <= 0;
}.

(** ** Constants *)

Definition DATA_PREFIX : string := "data/v1".
Definition SNAPSHOTS_PREFIX : string := "snapshots".
Definition LATEST_MANIFEST_KEY : string := (DATA_PREFIX ++ "/latest.json")%string.
Definition LATEST_SNAPSHOT_KEY : string := (SNAPSHOTS_PREFIX ++ "/latest.json")%string.

Definition page_file (page : Z) : string :=
  ("page-" ++ padStart0 4 (String_of page) ++ ".json")%string.

Definition SEARCH_INDEX_KEY (snapshotDate : string) : string :=
  (DATA_PREFIX ++ "/snapshots/" ++ snapshotDate ++ "/search/slim-index.json")%string.
Definition STATS_SUMMARY_KEY (snapshotDate : string) : string :=
  (DATA_PREFIX ++ "/snapshots/" ++ snapshotDate ++ "/stats/summary.json")%string.
Definition LEADERBOARD_PAGE_KEY (snapshotDate : string) (sort : SortMode) (page : Z) : string :=
  (DATA_PREFIX ++ "/snapshots/" ++ snapshotDate ++ "/leaderboard/" ++ SortMode_string sort
     ++ "/" ++ page_file page)%string.
Definition SKILL_DETAIL_KEY (snapshotDate owner repo skillId : string) : string :=
  (DATA_PREFIX ++ "/snapshots/" ++ snapshotDate ++ "/skills/by-id/" ++ owner ++ "/" ++ repo
     ++ "/" ++ skillId ++ ".json")%string.
Definition METRICS_KEY (snapshotDate owner repo skillId : string) : string :=
  (DATA_PREFIX ++ "/snapshots/" ++ snapshotDate ++ "/metrics/by-id/" ++ owner ++ "/" ++ repo
     ++ "/" ++ skillId ++ ".json")%string.
Definition SNAPSHOT_STATS_SUMMARY_KEY (snapshotDate : string) : string :=
  (SNAPSHOTS_PREFIX ++ "/" ++ snapshotDate ++ "/stats_summary.json")%string.
Definition SNAPSHOT_SKILLS_MANIFEST_KEY (snapshotDate : string) : string :=
  (SNAPSHOTS_PREFIX ++ "/" ++ snapshotDate ++ "/skills_manifest.json")%string.
Definition SNAPSHOT_SKILLS_PAGE_KEY (snapshotDate : string) (page : Z) : string :=
  (SNAPSHOTS_PREFIX ++ "/" ++ snapshotDate ++ "/skills_pages/" ++ page_file page)%string.
Definition SNAPSHOT_SKILL_LOOKUP_KEY (snapshotDate : string) : string :=
  (SNAPSHOTS_PREFIX ++ "/" ++ snapshotDate ++ "/skill_lookup.json")%string.

Definition CORS_HEADERS : StrMap :=
  [ ("Access-Control-Allow-Origin", "*");
    ("Access-Control-Allow-Methods", "GET, OPTIONS");
    ("Access-Control-Allow-Headers", "Content-Type") ].

Definition RATE_LIMIT_WINDOW_MS : Z := 60000.
Definition RATE_LIMIT_MAX_REQUESTS : Z := 60.
Definition IN_MEMORY_CACHE_TTL_MS : Z := 60000.

(** ** Module state, edge cache and storage trace *)

Record RateLimitState := {
  windowStartMs : Z;
  count : Z;
}.

Record ParsedCache := {
  pc_key : string;
  pc_loadedAtMs : Z;
  pc_doc : SearchIndexDocument.t;
}.

Record CachedManifest := {
  cm_loadedAtMs : Z;
  cm_manifest : LatestManifest;
}.

(** One operation on the edge cache or on the bucket. *)
Inductive IOEvent :=
  | CacheMatch (cacheKey : string) (hit : bool)
  | BucketGet (key : string) (found : bool)
  | CachePut (cacheKey : string).

Record World := {
  rateLimitByClient : gmap string RateLimitState;
  lastRateLimitSweepMs : Z;
  parsedSearchCache : option ParsedCache;
  cachedLatestManifest : option CachedManifest;
  (** [caches.default], keyed by the URL of the synthetic request. *)
  edgeCache : gmap string string;
  (** Storage operations performed so far, oldest first. *)
  trace : list IOEvent;
}.

(** The state after [resetWorkerStateForTests] with an empty edge cache. *)
Definition initialWorld : World :=
  {| rateLimitByClient := ∅; lastRateLimitSweepMs := 0;
     parsedSearchCache := None; cachedLatestManifest := None;
     edgeCache := ∅; trace := [] |}.

(** [Env]: the bucket binding is optional; a bound bucket maps keys to
    object bodies. *)
Record Env := {
  SKILLSIGHT_DATA : option (gmap string string);
}.

Record Request := {
  method : string;
  origin : string;
  pathname : string;
  (** [url.searchParams], decoded, in order of appearance. *)
  searchParams : list (string * string);
  (** The [CF-Connecting-IP] header. *)
  clientIp : option string;
}.

Definition searchParams_get (k : string) (r : Request) : option string :=
  obj_get k (searchParams r).

(** ** Responses *)

Record SearchResponse (I : Type) := {
  sr_items : list I;
  sr_page : Z;
  sr_page_size : Z;
  sr_total : Z;
  sr_snapshot_date : string;
}.
Arguments sr_items {I}.
Arguments sr_page {I}.
Arguments sr_page_size {I}.
Arguments sr_total {I}.
Arguments sr_snapshot_date {I}.

(** The record built by [buildSnapshotSkillRecord]; [None] is [null]. *)
Module SkillRecord.
Record t := mk {
  id : string;
  skill_id : string;
  owner : string;
  repo : string;
  canonical_url : string;
  total_installs : option Z;
  weekly_installs : option Z;
  weekly_installs_raw : option string;
  platform_installs : option unit;
  name : string;
  description : option string;
  first_seen_date : option string;
  github_url : string;
  og_image_url : option string;
  run_id : string;
  fetched_at : string;
  discovery_source : string;
  source_endpoint : string;
  discovery_pass : Z;
  rank_at_fetch : Z;
  http_status : Z;
  parser_version : string;
  raw_html_hash : option string;
  skill_md_content : option string;
  skill_md_frontmatter : option string;
  install_command : option string;
  categories : list string;
}.
End SkillRecord.

Module MetricsItem.
Record t := mk {
  id : string;
  snapshot_date : string;
  total_installs : option Z;
  weekly_installs : option Z;
  platform_installs : option unit;
}.
End MetricsItem.

Module MetricsResponse.
Record t := mk {
  id : string;
  items : list MetricsItem.t;
}.
End MetricsResponse.

(** The manifest synthesized for [data/v1/latest.json]. *)
Module SynthManifest.
Record t := mk {
  format_version : Z;
  snapshot_date : string;
  generated_at : Z;
  page_size : Z;
  sort_modes : list string;
  total_skills : Z;
  total_repos : Z;
}.
End SynthManifest.

(** A synthesized leaderboard page; [total] is a count taken from the
    summary or the manifest, or the length of [items]. *)
Module LeaderboardPage.
Record t := mk {
  snapshot_date : string;
  sort : string;
  page : Z;
  page_size : Z;
  total : Z;
  items : list SkillListItem.t;
}.
End LeaderboardPage.

(** The payload of a response: the argument of [json], or the text of a
    pass-through response. *)
Inductive Body :=
  | BodyNull
  | BodyError (error : string)
  | BodyTooManyRequests (retry_after_seconds : Z)
  | BodyHealth (search_index_loaded : bool) (snapshot : option string)
  | BodyText (text : string)
  | BodyRecord (r : JsonRecord)
  | BodySummary (s : SnapshotStatsSummary.t)
  | BodySynthSummary (total : option Z) (repos : Z) (snapshot : string)
  | BodySearch (r : SearchResponse SearchIndexItem.t) (sort : option SortMode)
  | BodyFallbackSearch (r : SearchResponse SkillListItem.t)
  | BodySkillsPage (r : SearchResponse SkillListItem.t)
      (skills : list SnapshotSkillPageItem.t) (sort : SortMode)
  | BodySkillRecord (r : SkillRecord.t)
  | BodyMetrics (r : MetricsResponse.t)
  | BodyManifest (r : SynthManifest.t)
  | BodyLeaderboard (r : LeaderboardPage.t).

Record Response := {
  status : Z;
  headers : StrMap;
  body : Body;
}.

Definition has_cache_control (h : StrMap) : bool :=
  existsb (fun kv => String.eqb (toLowerCase (fst kv)) "cache-control") h.

Definition json (data : Body) (status : Z) (extra : StrMap) : Response :=
  let headers :=
    obj_spread
      (obj_spread
         [ ("content-type", "application/json; charset=utf-8");
           ("X-Content-Type-Options", "nosniff") ]
         CORS_HEADERS)
      extra in
  let headers :=
    if (200 <=? status) && (status <? 300) && negb (has_cache_control headers)
    then obj_set "cache-control" "public, max-age=60, s-maxage=60" headers
    else headers in
  {| status := status; headers := headers; body := data |}.

(** ** RateLimiter *)

Definition getRateLimitClientId (request : Request) : string :=
  match clientIp request with
  | Some ip => let ip := trim ip in if truthy ip then ip else "unknown-client"
  | None => "unknown-client"
  end.

Definition sweepExpiredRateLimitEntries (nowMs : Z) (w : World) : World :=
  if nowMs - lastRateLimitSweepMs w <? RATE_LIMIT_WINDOW_MS then w
  else
    {| rateLimitByClient :=
         filter (fun kv : string * RateLimitState =>
                   ~ (nowMs - windowStartMs (snd kv) >= RATE_LIMIT_WINDOW_MS))
                (rateLimitByClient w);
       lastRateLimitSweepMs := nowMs;
       parsedSearchCache := parsedSearchCache w;
       cachedLatestManifest := cachedLatestManifest w;
       edgeCache := edgeCache w;
       trace := trace w |}.

Definition rateLimitHeaders (limit remaining resetEpochSeconds : Z) : StrMap :=
  [ ("X-RateLimit-Limit", String_of limit);
    ("X-RateLimit-Remaining", String_of (Math_max 0 remaining));
    ("X-RateLimit-Reset", String_of resetEpochSeconds) ].

Record RateLimitResult := {
  blocked : option Response;
  rl_headers : StrMap;
}.

Definition set_rateLimit (clientId : string) (st : RateLimitState) (w : World) : World :=
  {| rateLimitByClient := <[clientId := st]> (rateLimitByClient w);
     lastRateLimitSweepMs := lastRateLimitSweepMs w;
     parsedSearchCache := parsedSearchCache w;
     cachedLatestManifest := cachedLatestManifest w;
     edgeCache := edgeCache w;
     trace := trace w |}.

Definition window_elapsed (nowMs : Z) (st : RateLimitState) : bool :=
  nowMs - windowStartMs st >=? RATE_LIMIT_WINDOW_MS.

Definition retryAfterSeconds (nowMs : Z) (current : RateLimitState) : Z :=
  Math_max 1 (Math_ceil_div (windowStartMs current + RATE_LIMIT_WINDOW_MS - nowMs) 1000).

Definition resetEpochSeconds (st : RateLimitState) : Z :=
  Math_ceil_div (windowStartMs st + RATE_LIMIT_WINDOW_MS) 1000.

(** The branch of [enforceRateLimit] that starts a window at [nowMs]. *)
Definition start_window (nowMs : Z) (clientId : string) (w : World)
  : RateLimitResult * World :=
  let next := {| windowStartMs := nowMs; count := 1 |} in
  ({| blocked := None;
      rl_headers := rateLimitHeaders RATE_LIMIT_MAX_REQUESTS
                      (RATE_LIMIT_MAX_REQUESTS - count next) (resetEpochSeconds next) |},
   set_rateLimit clientId next w).

Definition enforceRateLimit (nowMs : Z) (request : Request) (w : World)
  : RateLimitResult * World :=
  let w := sweepExpiredRateLimitEntries nowMs w in
  let clientId := getRateLimitClientId request in
  let current := rateLimitByClient w !! clientId in
  match current with
  | Some current =>
      if window_elapsed nowMs current then start_window nowMs clientId w
      else if count current >=? RATE_LIMIT_MAX_REQUESTS then
        let retry := retryAfterSeconds nowMs current in
        ({| blocked :=
              Some (json (BodyTooManyRequests retry) 429
                      (obj_spread [("Retry-After", String_of retry)]
                         (rateLimitHeaders RATE_LIMIT_MAX_REQUESTS 0
                            (resetEpochSeconds current))));
            rl_headers := [] |},
         w)
      else
        let current := {| windowStartMs := windowStartMs current;
                          count := count current + 1 |} in
        ({| blocked := None;
            rl_headers := rateLimitHeaders RATE_LIMIT_MAX_REQUESTS
                            (RATE_LIMIT_MAX_REQUESTS - count current)
                            (resetEpochSeconds current) |},
         set_rateLimit clientId current w)
  | None => start_window nowMs clientId w
  end.

(** ** Stateful computations that may throw *)

Inductive Result (A : Type) :=
  | Ok (a : A)
  | Throw (message : string).
Arguments Ok {A} a.
Arguments Throw {A} message.

Definition M (A : Type) : Type := World -> Result A * World.

Definition ret {A} (a : A) : M A := fun w => (Ok a, w).

Definition throw {A} (message : string) : M A := fun w => (Throw message, w).

Definition bind {A B} (m : M A) (k : A -> M B) : M B :=
  fun w =>
    match m w with
    | (Ok a, w') => k a w'
    | (Throw e, w') => (Throw e, w')
    end.

Notation "'let*' x ':=' m 'in' k" := (bind m (fun x => k))
  (at level 10, x name, m at level 100, k at level 200).

Definition emit (e : IOEvent) : M unit :=
  fun w =>
    (Ok tt,
     {| rateLimitByClient := rateLimitByClient w;
        lastRateLimitSweepMs := lastRateLimitSweepMs w;
        parsedSearchCache := parsedSearchCache w;
        cachedLatestManifest := cachedLatestManifest w;
        edgeCache := edgeCache w;
        trace := trace w ++ [e] |}).

(** ** CacheTier *)

(** The URL of [cacheRequest(request, suffix)]; the suffix is taken to be
    a path that URL resolution leaves as it is. *)
Definition cacheRequest (request : Request) (suffix : string) : string :=
  (origin request ++ "/cache/" ++ suffix)%string.

(** [await cache.match(cacheKey)] and the text of the hit. *)
Definition cache_match (cacheKey : string) : M (option string) :=
  fun w =>
    let cached := edgeCache w !! cacheKey in
    bind (emit (CacheMatch cacheKey (bool_decide (is_Some cached))))
         (fun _ => ret cached) w.

(** [await bucket.get(key)] and the text of the object. *)
Definition bucket_get (bucket : gmap string string) (key : string) : M (option string) :=
  let object := bucket !! key in
  let* _ := emit (BucketGet key (bool_decide (is_Some object))) in
  ret object.

(** [await cache.put(cacheKey, response.clone())]. *)
Definition cache_put (cacheKey text : string) : M unit :=
  fun w =>
    emit (CachePut cacheKey)
      {| rateLimitByClient := rateLimitByClient w;
         lastRateLimitSweepMs := lastRateLimitSweepMs w;
         parsedSearchCache := parsedSearchCache w;
         cachedLatestManifest := cachedLatestManifest w;
         edgeCache := <[cacheKey := text]> (edgeCache w);
         trace := trace w |}.

Definition loadJsonTextWithCache (env : Env) (key : string) (request : Request)
    (cacheSuffix : string) : M (option string) :=
  match SKILLSIGHT_DATA env with
  | None => ret None
  | Some bucket =>
      let cacheKey := cacheRequest request cacheSuffix in
      let* cached := cache_match cacheKey in
      match cached with
      | Some text => ret (Some text)
      | None =>
          let* object := bucket_get bucket key in
          match object with
          | None => ret None
          | Some text =>
              let* _ := cache_put cacheKey text in
              ret (Some text)
          end
      end
  end.

(** [parseJson<T>(text, label)], with [parse] the platform's
    [JSON.parse] at type [T]. *)
Definition parseJson {T} (parse : string -> option T) (text label : string) : M T :=
  match parse text with
  | Some v => ret v
  | None => throw ("Invalid JSON in " ++ label)%string
  end.

(** [!text] for [text : string | null]. *)
Definition present (text : option string) : option string :=
  match text with
  | Some t => if truthy t then Some t else None
  | None => None
  end.

Definition loadJsonObjectWithCache {T} (parse : string -> option T) (env : Env)
    (key : string) (request : Request) (cacheSuffix : string) : M (option T) :=
  let* text := loadJsonTextWithCache env key request cacheSuffix in
  match present text with
  | None => ret None
  | Some text =>
      let* v := parseJson parse text key in
      ret (Some v)
  end.

(** ** Dates *)

Definition is_leap (y : Z) : bool :=
  ((y mod 4 =? 0) && negb (y mod 100 =? 0)) || (y mod 400 =? 0).

Definition days_in_month (y m : Z) : Z :=
  if m =? 2 then (if is_leap y then 29 else 28)
  else if (m =? 4) || (m =? 6) || (m =? 9) || (m =? 11) then 30
  else 31.

(** [DATE_RE.test(value)]: four digits, a dash, two digits, a dash, two
    digits, and nothing else. *)
Definition DATE_RE_test (value : string) : bool :=
  match split "-" value with
  | [y; m; d] =>
      (String.length y =? 4)%nat && all_digits y &&
      (String.length m =? 2)%nat && all_digits m &&
      (String.length d =? 2)%nat && all_digits d
  | _ => false
  end.

(** [Date.UTC(y, m - 1, d)] carries out-of-range months and days over
    and reads a year from 0 to 99 as 1900 + y, so the date read back has
    the same year, month and day exactly when [y >= 100], [m] is a month
    and [d] a day of that month. *)
Definition isDateString (value : string) : bool :=
  DATE_RE_test value &&
  match split "-" value with
  | [ys; ms; ds] =>
      let y := digits_value 0 ys in
      let m := digits_value 0 ms in
      let d := digits_value 0 ds in
      (100 <=? y) && (1 <=? m) && (m <=? 12) && (1 <=? d) && (d <=? days_in_month y m)
  | _ => false
  end.

(** [Number(value)] floored; [Number(null)] is 0, so the fallback is
    used only when a supplied string is not a finite number. *)
Definition parsePositiveInt `{Platform} (value : option string) (fallback : Z) : Z :=
  match value with
  | None => 0
  | Some s =>
      match Number_floor s with
      | Some n => n
      | None => fallback
      end
  end.

Definition admits (r : RateLimitResult) : bool :=
  match blocked r with None => true | Some _ => false end.

(** The number of requests of client [cid] that the limiter admits when
    it is asked, in order, about each [(nowMs, request)] of [reqs]. *)
Fixpoint admitted (cid : string) (reqs : list (Z * Request)) (w : World) : Z :=
  match reqs with
  | [] => 0
  | (nowMs, request) :: rest =>
      let out := enforceRateLimit nowMs request w in
      (if String.eqb (getRateLimitClientId request) cid && admits (fst out) then 1 else 0)
      + admitted cid rest (snd out)
  end.

(** The outcome of the branch that starts a window at [nowMs]. *)
Definition starts_window (nowMs : Z) (cid : string) (r : RateLimitResult) (w' : World) : Prop :=
  blocked r = None /\
  rateLimitByClient w' !! cid = Some {| windowStartMs := nowMs; count := 1 |}.


(** The client has no live window at [nowMs]. *)
Definition fresh_start (nowMs : Z) (cid : string) (w : World) : Prop :=
  match rateLimitByClient w !! cid with
  | None => True
  | Some cur => window_elapsed nowMs cur = true
  end.

(** ** Sample inputs *)

Definition sample_client : string := "203.0.113.7".

Definition sample_request (path : string) (params : list (string * string)) : Request :=
  {| method := "GET"; origin := "https://worker.test"; pathname := path;
     searchParams := params; clientIp := Some sample_client |}.

(** ** Sorting *)

(** [Array.prototype.sort(compare)] is stable; with a consistent
    comparator its result is the one stable sorted arrangement of the
    array, which insertion from the right computes. *)
Fixpoint sort_insert {A} (compare : A -> A -> Z) (x : A) (l : list A) : list A :=
  match l with
  | [] => [x]
  | y :: l' =>
      if compare x y <=? 0 then x :: l else y :: sort_insert compare x l'
  end.

Definition Array_sort {A} (compare : A -> A -> Z) (l : list A) : list A :=
  fold_right (sort_insert compare) [] l.

(** [xs.slice(start, end)] for integer bounds with [0 <= start]. *)
Definition Array_slice {A} (xs : list A) (start stop : Z) : list A :=
  firstn (Z.to_nat (stop - start)) (skipn (Z.to_nat start) xs).

(** [xs[i]]. *)
Definition Array_get {A} (xs : list A) (i : Z) : option A :=
  if 0 <=? i then nth_error xs (Z.to_nat i) else None.

(** [xs.map((item, index) => f(item, index))]. *)
Fixpoint mapi_from {A B} (i : Z) (f : A -> Z -> B) (xs : list A) : list B :=
  match xs with
  | [] => []
  | x :: xs' => f x i :: mapi_from (i + 1) f xs'
  end.

Definition Array_mapi {A B} (f : A -> Z -> B) (xs : list A) : list B :=
  mapi_from 0 f xs.

Section Worker.
Context `{P : Platform}.

(** The comparators of [sortItems]. *)
Definition compare_items (sort : SortMode) (a b : SearchIndexItem.t) : Z :=
  match sort with
  | name => localeCompare (SearchIndexItem.name a) (SearchIndexItem.name b)
  | weekly =>
      nullish (SearchIndexItem.weekly_installs b) 0
      - nullish (SearchIndexItem.weekly_installs a) 0
  | installs =>
      nullish (SearchIndexItem.total_installs b) 0
      - nullish (SearchIndexItem.total_installs a) 0
  end.

Definition sortItems (items : list SearchIndexItem.t) (sort : SortMode)
  : list SearchIndexItem.t :=
  Array_sort (compare_items sort) items.

(** ** FallbackSynthesizer *)

Definition parseSource (source : string) : string * string :=
  match split "/" source with
  | owner :: rest =>
      if negb (truthy owner) || (length rest =? 0)%nat then (source, source)
      else (owner, join "/" rest)
  | [] => (source, source)
  end.

Definition snapshotItemToSkillListItem (item : SnapshotSkillPageItem.t) (rank : Z)
  : SkillListItem.t :=
  let '(owner, repo) := parseSource (SnapshotSkillPageItem.source item) in
  {| SkillListItem.id :=
       (SnapshotSkillPageItem.source item ++ "/" ++ SnapshotSkillPageItem.skillId item)%string;
     SkillListItem.skill_id := SnapshotSkillPageItem.skillId item;
     SkillListItem.owner := owner;
     SkillListItem.repo := repo;
     SkillListItem.name := SnapshotSkillPageItem.name item;
     SkillListItem.canonical_url :=
       ("https://skills.sh/" ++ SnapshotSkillPageItem.source item ++ "/"
          ++ SnapshotSkillPageItem.skillId item)%string;
     SkillListItem.total_installs := SnapshotSkillPageItem.installs item;
     SkillListItem.weekly_installs := None;
     SkillListItem.rank_at_fetch := Some rank;
     SkillListItem.description := None;
     SkillListItem.platform_installs := None |}.

Definition loadSnapshotSkillsManifest (env : Env) (snapshotDate : string)
    (request : Request) : M (option SnapshotSkillsManifest.t) :=
  loadJsonObjectWithCache parse_SnapshotSkillsManifest env
    (SNAPSHOT_SKILLS_MANIFEST_KEY snapshotDate) request
    ("snapshot-skills-manifest/" ++ snapshotDate)%string.

Definition loadSnapshotSummary (env : Env) (snapshotDate : string)
    (request : Request) : M (option SnapshotStatsSummary.t) :=
  loadJsonObjectWithCache parse_SnapshotStatsSummary env
    (SNAPSHOT_STATS_SUMMARY_KEY snapshotDate) request
    ("snapshot-summary/" ++ snapshotDate)%string.

Definition loadSnapshotSkillsPage (env : Env) (snapshotDate : string) (page : Z)
    (request : Request) : M (option (list SnapshotSkillPageItem.t)) :=
  loadJsonObjectWithCache parse_SnapshotSkillsPage env
    (SNAPSHOT_SKILLS_PAGE_KEY snapshotDate page) request
    ("snapshot-skills-page/" ++ snapshotDate ++ "/" ++ String_of page)%string.

Definition loadSnapshotSkillLookup (env : Env) (snapshotDate : string)
    (request : Request) : M (option SnapshotSkillLookupDocument.t) :=
  loadJsonObjectWithCache parse_SnapshotSkillLookupDocument env
    (SNAPSHOT_SKILL_LOOKUP_KEY snapshotDate) request
    ("snapshot-skill-lookup/" ++ snapshotDate)%string.

(** [lookup?.entries?.[skillId]]. *)
Definition lookup_entry (lookup : option SnapshotSkillLookupDocument.t) (skillId : string)
  : option SnapshotSkillLookup.t :=
  match lookup with
  | Some doc =>
      match SnapshotSkillLookupDocument.entries doc with
      | Some entries => obj_get skillId entries
      | None => None
      end
  | None => None
  end.

(** [page?.[index]]. *)
Definition page_row (page : option (list SnapshotSkillPageItem.t)) (index : Z)
  : option SnapshotSkillPageItem.t :=
  match page with
  | Some rows => Array_get rows index
  | None => None
  end.

(** [snapshotManifest?.page_size ?? 200]. *)
Definition manifest_page_size (snapshotManifest : option SnapshotSkillsManifest.t) : Z :=
  match snapshotManifest with
  | Some m => nullish (SnapshotSkillsManifest.page_size m) 200
  | None => 200
  end.

Definition buildSnapshotSkillRecord (env : Env) (snapshotDate skillId : string)
    (request : Request) : M (option SkillRecord.t) :=
  match split "/" skillId with
  | [owner; repo; leafSkillId] =>
      if negb (truthy owner) || negb (truthy repo) || negb (truthy leafSkillId)
      then ret None
      else
        let* lookup := loadSnapshotSkillLookup env snapshotDate request in
        match lookup_entry lookup skillId with
        | None => ret None
        | Some entry =>
            let* page :=
              loadSnapshotSkillsPage env snapshotDate (SnapshotSkillLookup.page entry)
                request in
            match page_row page (SnapshotSkillLookup.index entry) with
            | None => ret None
            | Some raw =>
                let* snapshotManifest :=
                  loadSnapshotSkillsManifest env snapshotDate request in
                let pageSize := manifest_page_size snapshotManifest in
                let fetchedAt := (snapshotDate ++ "T00:00:00.000Z")%string in
                ret (Some
                  {| SkillRecord.id := skillId;
                     SkillRecord.skill_id := SnapshotSkillPageItem.skillId raw;
                     SkillRecord.owner := owner;
                     SkillRecord.repo := repo;
                     SkillRecord.canonical_url :=
                       ("https://skills.sh/" ++ owner ++ "/" ++ repo ++ "/"
                          ++ leafSkillId)%string;
                     SkillRecord.total_installs := SnapshotSkillPageItem.installs raw;
                     SkillRecord.weekly_installs := None;
                     SkillRecord.weekly_installs_raw := None;
                     SkillRecord.platform_installs := None;
                     SkillRecord.name := SnapshotSkillPageItem.name raw;
                     SkillRecord.description := None;
                     SkillRecord.first_seen_date := None;
                     SkillRecord.github_url :=
                       ("https://github.com/" ++ owner ++ "/" ++ repo)%string;
                     SkillRecord.og_image_url := None;
                     SkillRecord.run_id := ("snapshot-" ++ snapshotDate)%string;
                     SkillRecord.fetched_at := fetchedAt;
                     SkillRecord.discovery_source := "leaderboard";
                     SkillRecord.source_endpoint := "leaderboard";
                     SkillRecord.discovery_pass := 1;
                     SkillRecord.rank_at_fetch :=
                       (SnapshotSkillLookup.page entry - 1) * pageSize
                       + SnapshotSkillLookup.index entry + 1;
                     SkillRecord.http_status := 200;
                     SkillRecord.parser_version := "snapshot-proxy";
                     SkillRecord.raw_html_hash := None;
                     SkillRecord.skill_md_content := None;
                     SkillRecord.skill_md_frontmatter := None;
                     SkillRecord.install_command := None;
                     SkillRecord.categories := [] |})
            end
        end
  | _ => ret None
  end.

Definition buildSnapshotMetricsResponse (env : Env) (snapshotDate skillId : string)
    (request : Request) : M (option MetricsResponse.t) :=
  let* lookup := loadSnapshotSkillLookup env snapshotDate request in
  match lookup_entry lookup skillId with
  | None => ret None
  | Some entry =>
      let* page :=
        loadSnapshotSkillsPage env snapshotDate (SnapshotSkillLookup.page entry) request in
      match page_row page (SnapshotSkillLookup.index entry) with
      | None => ret None
      | Some raw =>
          ret (Some
            {| MetricsResponse.id := skillId;
               MetricsResponse.items :=
                 [ {| MetricsItem.id := skillId;
                      MetricsItem.snapshot_date := snapshotDate;
                      MetricsItem.total_installs := SnapshotSkillPageItem.installs raw;
                      MetricsItem.weekly_installs := None;
                      MetricsItem.platform_installs := None |} ] |})
      end
  end.

(** ** ManifestResolver *)

Definition get_world : M World := fun w => (Ok w, w).

Definition set_cachedLatestManifest (c : CachedManifest) : M unit :=
  fun w =>
    (Ok tt,
     {| rateLimitByClient := rateLimitByClient w;
        lastRateLimitSweepMs := lastRateLimitSweepMs w;
        parsedSearchCache := parsedSearchCache w;
        cachedLatestManifest := Some c;
        edgeCache := edgeCache w;
        trace := trace w |}).

Definition set_parsedSearchCache (c : ParsedCache) : M unit :=
  fun w =>
    (Ok tt,
     {| rateLimitByClient := rateLimitByClient w;
        lastRateLimitSweepMs := lastRateLimitSweepMs w;
        parsedSearchCache := Some c;
        cachedLatestManifest := cachedLatestManifest w;
        edgeCache := edgeCache w;
        trace := trace w |}).

(** The cached manifest while [nowMs - loadedAtMs < 60000]. *)
Definition fresh_manifest (nowMs : Z) (c : option CachedManifest) : option LatestManifest :=
  match c with
  | Some c =>
      if nowMs - cm_loadedAtMs c <? IN_MEMORY_CACHE_TTL_MS then Some (cm_manifest c)
      else None
  | None => None
  end.

(** [d && isDateString(d)] for a date property that may be missing. *)
Definition valid_date (d : option string) : option string :=
  match d with
  | Some s => if truthy s && isDateString s then Some s else None
  | None => None
  end.

(** The last two statements of [loadLatestManifest]. *)
Definition remember_manifest (nowMs : Z) (manifest : LatestManifest)
  : M (option LatestManifest) :=
  let* _ := set_cachedLatestManifest {| cm_loadedAtMs := nowMs; cm_manifest := manifest |} in
  ret (Some manifest).

Definition loadLatestManifest (nowMs : Z) (env : Env) (request : Request)
  : M (option LatestManifest) :=
  let* w := get_world in
  match fresh_manifest nowMs (cachedLatestManifest w) with
  | Some manifest => ret (Some manifest)
  | None =>
      let* webManifestText :=
        loadJsonTextWithCache env LATEST_MANIFEST_KEY request "latest-manifest" in
      match present webManifestText with
      | Some text =>
          let* parsed := parseJson parse_LatestManifest text LATEST_MANIFEST_KEY in
          match valid_date (lmj_snapshot_date parsed) with
          | None => throw "latest.json missing valid snapshot_date"
          | Some d =>
              remember_manifest nowMs
                {| snapshot_date := d;
                   page_size := lmj_page_size parsed;
                   counts := lmj_counts parsed |}
          end
      | None =>
          let* snapshotLatestText :=
            loadJsonTextWithCache env LATEST_SNAPSHOT_KEY request "latest-snapshot" in
          match present snapshotLatestText with
          | None => ret None
          | Some text =>
              let* parsed :=
                parseJson parse_SnapshotLatestManifest text LATEST_SNAPSHOT_KEY in
              match valid_date (date parsed) with
              | None => throw "snapshots/latest.json missing valid date"
              | Some d =>
                  let* snapshotManifest := loadSnapshotSkillsManifest env d request in
                  remember_manifest nowMs
                    match snapshotManifest with
                    | Some sm =>
                        {| snapshot_date := d;
                           page_size := SnapshotSkillsManifest.page_size sm;
                           counts :=
                             Some {| total_skills := SnapshotSkillsManifest.total_skills sm;
                                     total_repos := None |} |}
                    | None =>
                        {| snapshot_date := d; page_size := None; counts := None |}
                    end
              end
          end
      end
  end.

(** ** SearchEngine *)

(** The parsed index while it is cached for [key] and fresh. *)
Definition fresh_index (nowMs : Z) (key : string) (c : option ParsedCache)
  : option SearchIndexDocument.t :=
  match c with
  | Some c =>
      if String.eqb (pc_key c) key && (nowMs - pc_loadedAtMs c <? IN_MEMORY_CACHE_TTL_MS)
      then Some (pc_doc c) else None
  | None => None
  end.

Definition loadSearchIndex (nowMs : Z) (env : Env) (snapshotDate : string)
    (request : Request) : M (option SearchIndexDocument.t) :=
  let key := SEARCH_INDEX_KEY snapshotDate in
  let* w := get_world in
  match fresh_index nowMs key (parsedSearchCache w) with
  | Some doc => ret (Some doc)
  | None =>
      let* text :=
        loadJsonTextWithCache env key request ("search-index/" ++ snapshotDate)%string in
      match present text with
      | None => ret None
      | Some text =>
          let* parsed := parseJson parse_SearchIndexDocument text key in
          match valid_date (sij_snapshot_date parsed), sij_items parsed with
          | Some d, Some items =>
              let doc := {| SearchIndexDocument.snapshot_date := d;
                            SearchIndexDocument.items := items |} in
              let* _ := set_parsedSearchCache
                          {| pc_key := key; pc_loadedAtMs := nowMs; pc_doc := doc |} in
              ret (Some doc)
          | _, _ => throw "Invalid search index payload"
          end
      end
  end.

(** The filter of the indexed path: [query] occurs in the lower-cased
    name or id. *)
Definition matches_query (query : string) (item : SearchIndexItem.t) : bool :=
  includes (toLowerCase (SearchIndexItem.name item)) query
  || includes (toLowerCase (SearchIndexItem.id item)) query.

(** [items.filter(...)] of the indexed path. *)
Definition filterItems (query : string) (items : list SearchIndexItem.t)
  : list SearchIndexItem.t :=
  List.filter (matches_query query) items.

(** The filter of the lookup fallback: [query] occurs in the lower-cased
    id. *)
Definition entry_matches (query : string) (e : string * SnapshotSkillLookup.t) : bool :=
  includes (toLowerCase (fst e)) query.

Definition compare_entries_by_name (a b : string * SnapshotSkillLookup.t) : Z :=
  localeCompare (fst a) (fst b).

(** [a[1].page - b[1].page || a[1].index - b[1].index]. *)
Definition compare_entries_by_position (a b : string * SnapshotSkillLookup.t) : Z :=
  let d := SnapshotSkillLookup.page (snd a) - SnapshotSkillLookup.page (snd b) in
  if d =? 0 then SnapshotSkillLookup.index (snd a) - SnapshotSkillLookup.index (snd b)
  else d.

Definition sortEntries (sort : SortMode) (entries : list (string * SnapshotSkillLookup.t))
  : list (string * SnapshotSkillLookup.t) :=
  match sort with
  | name => Array_sort compare_entries_by_name entries
  | _ => Array_sort compare_entries_by_position entries
  end.

Definition with_id (id : string) (m : SkillListItem.t) : SkillListItem.t :=
  {| SkillListItem.id := id;
     SkillListItem.skill_id := SkillListItem.skill_id m;
     SkillListItem.owner := SkillListItem.owner m;
     SkillListItem.repo := SkillListItem.repo m;
     SkillListItem.name := SkillListItem.name m;
     SkillListItem.canonical_url := SkillListItem.canonical_url m;
     SkillListItem.total_installs := SkillListItem.total_installs m;
     SkillListItem.weekly_installs := SkillListItem.weekly_installs m;
     SkillListItem.rank_at_fetch := SkillListItem.rank_at_fetch m;
     SkillListItem.description := SkillListItem.description m;
     SkillListItem.platform_installs := SkillListItem.platform_installs m |}.

(** The loop of the lookup fallback over [selected], with its
    [pageCache] and the [items] pushed so far. *)
Fixpoint resolveSelected (env : Env) (snapshotDate : string) (request : Request)
    (rawPageSize : Z) (selected : list (string * SnapshotSkillLookup.t))
    (pageCache : gmap Z (list SnapshotSkillPageItem.t)) (items : list SkillListItem.t)
  : M (list SkillListItem.t) :=
  match selected with
  | [] => ret items
  | (id, ref) :: rest =>
      let* cached :=
        match pageCache !! SnapshotSkillLookup.page ref with
        | Some snapshotPage => ret (snapshotPage, pageCache)
        | None =>
            let* loaded :=
              loadSnapshotSkillsPage env snapshotDate (SnapshotSkillLookup.page ref)
                request in
            let snapshotPage := nullish loaded [] in
            ret (snapshotPage, <[SnapshotSkillLookup.page ref := snapshotPage]> pageCache)
        end in
      let '(snapshotPage, pageCache) := cached in
      match Array_get snapshotPage (SnapshotSkillLookup.index ref) with
      | None => resolveSelected env snapshotDate request rawPageSize rest pageCache items
      | Some raw =>
          let mapped :=
            snapshotItemToSkillListItem raw
              ((SnapshotSkillLookup.page ref - 1) * rawPageSize
               + SnapshotSkillLookup.index ref + 1) in
          resolveSelected env snapshotDate request rawPageSize rest pageCache
            (items ++ [with_id id mapped])
      end
  end.

(** ** Router *)

(** The readings of [Date.now()] and [new Date()] during one request. *)
Record Clock := {
  rateLimitNow : Z;
  manifestNow : Z;
  searchIndexNow : Z;
  generatedAt : Z;
}.

Definition parseSkillPath (pathname prefix : string) : option (string * string * string * string) :=
  if negb (startsWith pathname prefix) then None
  else
    let encoded := slice_from (String.length prefix) pathname in
    if negb (truthy encoded) then None
    else
      match decodeURIComponent encoded with
      | None => None
      | Some decoded =>
          match split "/" decoded with
          | [owner; repo; skillId] =>
              if negb (truthy owner) || negb (truthy repo) || negb (truthy skillId)
              then None
              else Some (decoded, owner, repo, skillId)
          | _ => None
          end
      end.

(** The block that every rate-limited route runs to fix the snapshot:
    an explicit [snapshot_date] must be a date (400 otherwise); without
    one the latest manifest decides, and its absence is answered with
    503 and the route's [unavailable] message. *)
Definition resolveSnapshot (clock : Clock) (env : Env) (request : Request)
    (rlHeaders : StrMap) (unavailable : string)
  : M (Response + (string * option LatestManifest)) :=
  match searchParams_get "snapshot_date" request with
  | Some snapshotParam =>
      if truthy snapshotParam then
        if negb (isDateString snapshotParam)
        then ret (inl (json (BodyError "Invalid snapshot_date format") 400 rlHeaders))
        else ret (inr (snapshotParam, None))
      else
        let* latest := loadLatestManifest (manifestNow clock) env request in
        match latest with
        | None => ret (inl (json (BodyError unavailable) 503 rlHeaders))
        | Some latest => ret (inr (snapshot_date latest, Some latest))
        end
  | None =>
      let* latest := loadLatestManifest (manifestNow clock) env request in
      match latest with
      | None => ret (inl (json (BodyError unavailable) 503 rlHeaders))
      | Some latest => ret (inr (snapshot_date latest, Some latest))
      end
  end.

(** [latestManifest?.counts?.total_skills]. *)
Definition manifest_total_skills (latest : option LatestManifest) : option Z :=
  match latest with
  | Some l => match counts l with Some c => total_skills c | None => None end
  | None => None
  end.

Definition manifest_total_repos (latest : option LatestManifest) : option Z :=
  match latest with
  | Some l => match counts l with Some c => total_repos c | None => None end
  | None => None
  end.

Definition summary_total_skills (summary : option SnapshotStatsSummary.t) : option Z :=
  match summary with
  | Some s => SnapshotStatsSummary.total_skills s
  | None => None
  end.

Definition summary_total_repos (summary : option SnapshotStatsSummary.t) : option Z :=
  match summary with
  | Some s => SnapshotStatsSummary.total_repos s
  | None => None
  end.

Definition snapshotManifest_total_skills (m : option SnapshotSkillsManifest.t) : option Z :=
  match m with
  | Some m => SnapshotSkillsManifest.total_skills m
  | None => None
  end.

(** [a ?? b] for two values that may both be missing. *)
Definition orElse {A} (a b : option A) : option A :=
  match a with Some _ => a | None => b end.

(** The ranked items of a raw page:
    [snapshotPage.map((item, index) => snapshotItemToSkillListItem(item,
    (page - 1) * pageSize + index + 1))]. *)
Definition rankPage (snapshotPage : list SnapshotSkillPageItem.t) (page pageSize : Z)
  : list SkillListItem.t :=
  Array_mapi
    (fun item index => snapshotItemToSkillListItem item ((page - 1) * pageSize + index + 1))
    snapshotPage.

(** The leaderboard page synthesized for the static route. *)
Definition synthesizeLeaderboardPage (env : Env) (snapshotDate sort : string) (page : Z)
    (request : Request) : M (option Body) :=
  if String.eqb sort "installs" then
    let* snapshotPage := loadSnapshotSkillsPage env snapshotDate page request in
    match snapshotPage with
    | None => ret None
    | Some snapshotPage =>
        let* snapshotManifest := loadSnapshotSkillsManifest env snapshotDate request in
        let* summary := loadSnapshotSummary env snapshotDate request in
        let pageSize := manifest_page_size snapshotManifest in
        let items := rankPage snapshotPage page pageSize in
        ret (Some (BodyLeaderboard
          {| LeaderboardPage.snapshot_date := snapshotDate;
             LeaderboardPage.sort := sort;
             LeaderboardPage.page := page;
             LeaderboardPage.page_size := pageSize;
             LeaderboardPage.total :=
               nullish (orElse (summary_total_skills summary)
                          (snapshotManifest_total_skills snapshotManifest))
                       (Z.of_nat (length items));
             LeaderboardPage.items := items |}))
    end
  else ret None.

(** The segments after [data/v1/snapshots/<date>/] of a key that the
    static route's patterns can match. *)
Definition snapshot_key_parts (key : string) : option (string * list string) :=
  match split "/" key with
  | "data" :: "v1" :: "snapshots" :: d :: rest =>
      if DATE_RE_test d then Some (d, rest) else None
  | _ => None
  end.

(** [page-(\d{4})\.json]. *)
Definition page_file_number (file : string) : option Z :=
  if (String.length file =? 14)%nat && startsWith file "page-" && endsWith file ".json"
     && all_digits (String.substring 5 4 file)
  then Some (digits_value 0 (String.substring 5 4 file))
  else None.

(** [([^/]+)\.json] on the last segment. *)
Definition json_stem (file : string) : option string :=
  if endsWith file ".json" && (5 <? String.length file)%nat
  then Some (String.substring 0 (String.length file - 5) file)
  else None.

(** The three [decodeURIComponent] calls under one [try]. *)
Definition decode_id (ownerEnc repoEnc skillEnc : string) : option string :=
  match decodeURIComponent ownerEnc, decodeURIComponent repoEnc,
        decodeURIComponent skillEnc with
  | Some owner, Some repo, Some skillId =>
      if truthy owner && truthy repo && truthy skillId
      then Some (owner ++ "/" ++ repo ++ "/" ++ skillId)%string
      else None
  | _, _, _ => None
  end.

Definition static_headers : StrMap :=
  obj_spread
    [ ("content-type", "application/json; charset=utf-8");
      ("cache-control", "public, max-age=60, s-maxage=60");
      ("X-Content-Type-Options", "nosniff") ]
    CORS_HEADERS.

(** A step of the static route that runs only while [text] is still
    missing. *)
Definition unless_found (text : option Body) (step : M (option Body)) : M (option Body) :=
  match text with
  | Some _ => ret text
  | None => step
  end.

Definition serveStatic (clock : Clock) (env : Env) (request : Request) : M Response :=
  let key := slice_from 1 (pathname request) in
  let* stored := loadJsonTextWithCache env key request ("static/" ++ key)%string in
  let* text :=
    match present stored with
    | Some t => ret (Some (BodyText t))
    | None =>
        let* text :=
          if String.eqb key LATEST_MANIFEST_KEY then
            let* latest := loadLatestManifest (manifestNow clock) env request in
            match latest with
            | None => ret None
            | Some latest =>
                let snapshotDate := snapshot_date latest in
                let* summary := loadSnapshotSummary env snapshotDate request in
                let* snapshotManifest :=
                  loadSnapshotSkillsManifest env snapshotDate request in
                ret (Some (BodyManifest
                  {| SynthManifest.format_version := 1;
                     SynthManifest.snapshot_date := snapshotDate;
                     SynthManifest.generated_at := generatedAt clock;
                     SynthManifest.page_size :=
                       nullish (page_size latest) (manifest_page_size snapshotManifest);
                     SynthManifest.sort_modes := ["installs"];
                     SynthManifest.total_skills :=
                       nullish (orElse (summary_total_skills summary)
                                  (orElse (snapshotManifest_total_skills snapshotManifest)
                                     (manifest_total_skills (Some latest)))) 0;
                     SynthManifest.total_repos :=
                       nullish (orElse (summary_total_repos summary)
                                  (manifest_total_repos (Some latest))) 0 |}))
            end
          else
            match snapshot_key_parts key with
            | Some (snapshotDate, ["stats"; "summary.json"]) =>
                let* summary := loadSnapshotSummary env snapshotDate request in
                match summary with
                | Some summary => ret (Some (BodySummary summary))
                | None => ret None
                end
            | _ => ret None
            end in
        let* text :=
          unless_found text
            match snapshot_key_parts key with
            | Some (snapshotDate, ["leaderboard"; sort; file]) =>
                match page_file_number file with
                | Some page =>
                    if truthy sort
                    then synthesizeLeaderboardPage env snapshotDate sort page request
                    else ret None
                | None => ret None
                end
            | _ => ret None
            end in
        let* text :=
          unless_found text
            match snapshot_key_parts key with
            | Some (snapshotDate, ["skills"; "by-id"; ownerEnc; repoEnc; file]) =>
                match json_stem file with
                | Some skillEnc =>
                    if truthy ownerEnc && truthy repoEnc then
                      match decode_id ownerEnc repoEnc skillEnc with
                      | Some id =>
                          let* record :=
                            buildSnapshotSkillRecord env snapshotDate id request in
                          match record with
                          | Some record => ret (Some (BodySkillRecord record))
                          | None => ret None
                          end
                      | None => ret None
                      end
                    else ret None
                | None => ret None
                end
            | _ => ret None
            end in
        unless_found text
          match snapshot_key_parts key with
          | Some (snapshotDate, ["metrics"; "by-id"; ownerEnc; repoEnc; file]) =>
              match json_stem file with
              | Some skillEnc =>
                  if truthy ownerEnc && truthy repoEnc then
                    match decode_id ownerEnc repoEnc skillEnc with
                    | Some id =>
                        let* metrics :=
                          buildSnapshotMetricsResponse env snapshotDate id request in
                        match metrics with
                        | Some metrics => ret (Some (BodyMetrics metrics))
                        | None => ret None
                        end
                    | None => ret None
                    end
                  else ret None
              | None => ret None
              end
          | _ => ret None
          end
    end in
  match text with
  | None => ret (json (BodyError "Not found") 404 [])
  | Some text => ret {| status := 200; headers := static_headers; body := text |}
  end.

(** The coerced [page] parameter: [Math.max(1, parsePositiveInt(page, 1))]. *)
Definition requestedPage (request : Request) : Z :=
  Math_max 1 (parsePositiveInt (searchParams_get "page" request) 1).

(** The coerced and clamped [page_size] parameter:
    [Math.min(cap, Math.max(1, parsePositiveInt(page_size, fallback)))]. *)
Definition requestedPageSize (cap fallback : Z) (request : Request) : Z :=
  Math_min cap (Math_max 1 (parsePositiveInt (searchParams_get "page_size" request) fallback)).

(** [rawQ]: the trimmed [q] parameter, empty when absent. *)
Definition requestedQuery (request : Request) : string :=
  trim (nullish (searchParams_get "q" request) "").

Definition search_cache_headers (rlHeaders : StrMap) : StrMap :=
  obj_spread rlHeaders [("cache-control", "public, max-age=30, s-maxage=30")].

Definition serveHealthz (clock : Clock) (env : Env) (request : Request) : M Response :=
  fun w =>
    let '(latest, w) := loadLatestManifest (manifestNow clock) env request w in
    let snapshotDate :=
      match latest with
      | Ok (Some latest) => Some (snapshot_date latest)
      | _ => None
      end in
    (Ok (json
           (BodyHealth
              (bool_decide (is_Some (parsedSearchCache w)))
              (orElse snapshotDate
                 (option_map (fun c => SearchIndexDocument.snapshot_date (pc_doc c))
                    (parsedSearchCache w))))
           200 [("cache-control", "no-store")]),
     w).

Definition serveStatsSummary (clock : Clock) (env : Env) (request : Request)
    (rlHeaders : StrMap) : M Response :=
  let* resolved := resolveSnapshot clock env request rlHeaders "Summary unavailable" in
  match resolved with
  | inl response => ret response
  | inr (snapshotDate, _) =>
      let* prerendered :=
        loadJsonObjectWithCache parse_Record env (STATS_SUMMARY_KEY snapshotDate) request
          ("summary/" ++ snapshotDate)%string in
      match prerendered with
      | Some summary => ret (json (BodyRecord summary) 200 rlHeaders)
      | None =>
          let* summary := loadSnapshotSummary env snapshotDate request in
          match summary with
          | Some summary => ret (json (BodySummary summary) 200 rlHeaders)
          | None =>
              let* snapshotManifest :=
                loadSnapshotSkillsManifest env snapshotDate request in
              match snapshotManifest with
              | None => ret (json (BodyError "Summary unavailable") 503 rlHeaders)
              | Some snapshotManifest =>
                  ret (json
                         (BodySynthSummary
                            (SnapshotSkillsManifest.total_skills snapshotManifest) 0
                            snapshotDate)
                         200 rlHeaders)
              end
          end
      end
  end.

(** The indexed path shared by [/v1/skills] and [/v1/search]: filter,
    sort, slice. *)
Definition indexedPage (doc : SearchIndexDocument.t) (filtered : list SearchIndexItem.t)
    (sort : SortMode) (page pageSize : Z) : SearchResponse SearchIndexItem.t :=
  let sorted := sortItems filtered sort in
  let start := (page - 1) * pageSize in
  {| sr_items := Array_slice sorted start (start + pageSize);
     sr_page := page;
     sr_page_size := pageSize;
     sr_total := Z.of_nat (length sorted);
     sr_snapshot_date := SearchIndexDocument.snapshot_date doc |}.

Definition with_total {I} (total : Z) (r : SearchResponse I) : SearchResponse I :=
  {| sr_items := sr_items r; sr_page := sr_page r; sr_page_size := sr_page_size r;
     sr_total := total; sr_snapshot_date := sr_snapshot_date r |}.

(** The part of [/v1/skills] that serves an empty query from a
    pre-rendered or raw leaderboard page; [None] when neither applies. *)
Definition serveLeaderboardPage (env : Env) (request : Request) (rlHeaders : StrMap)
    (snapshotDate : string) (latestManifest : option LatestManifest)
    (sortParam : SortMode) (page pageSize : Z) : M (option Response) :=
  let* cachedPage :=
    loadJsonObjectWithCache parse_Record env
      (LEADERBOARD_PAGE_KEY snapshotDate sortParam page) request
      ("leaderboard/" ++ snapshotDate ++ "/" ++ SortMode_string sortParam ++ "/"
         ++ String_of page)%string in
  let served :=
    match cachedPage with
    | Some payload =>
        match jr_page_size payload with
        | None => Some payload
        | Some (Some n) => if n =? pageSize then Some payload else None
        | Some None => None
        end
    | None => None
    end in
  match served with
  | Some payload => ret (Some (json (BodyRecord payload) 200 rlHeaders))
  | None =>
      if SortMode_eqb sortParam installs then
        let* snapshotManifest := loadSnapshotSkillsManifest env snapshotDate request in
        let* snapshotPage := loadSnapshotSkillsPage env snapshotDate page request in
        let manifestPageSize := manifest_page_size snapshotManifest in
        match snapshotPage with
        | Some snapshotPage =>
            if pageSize =? manifestPageSize then
              let* summary := loadSnapshotSummary env snapshotDate request in
              let totalSkills :=
                nullish
                  (orElse (summary_total_skills summary)
                     (orElse (snapshotManifest_total_skills snapshotManifest)
                        (manifest_total_skills latestManifest)))
                  (Z.of_nat (length snapshotPage)) in
              let items := rankPage snapshotPage page manifestPageSize in
              ret (Some (json
                (BodySkillsPage
                   {| sr_items := items; sr_page := page; sr_page_size := pageSize;
                      sr_total := totalSkills; sr_snapshot_date := snapshotDate |}
                   snapshotPage sortParam)
                200 rlHeaders))
            else ret None
        | None => ret None
        end
      else ret None
  end.

Definition serveSkills (clock : Clock) (env : Env) (request : Request)
    (rlHeaders : StrMap) : M Response :=
  let sortParam := nullish (searchParams_get "sort" request) "installs" in
  match SortMode_of_string sortParam with
  | None =>
      ret (json (BodyError ("Invalid sort field: " ++ sortParam)%string) 400 rlHeaders)
  | Some sortMode =>
      let page := requestedPage request in
      let pageSize := requestedPageSize 200 200 request in
      let rawQ := requestedQuery request in
      let* resolved :=
        resolveSnapshot clock env request rlHeaders "Leaderboard unavailable" in
      match resolved with
      | inl response => ret response
      | inr (snapshotDate, latestManifest) =>
          let* early :=
            if (String.length rawQ =? 0)%nat
            then serveLeaderboardPage env request rlHeaders snapshotDate latestManifest
                   sortMode page pageSize
            else ret None in
          match early with
          | Some response => ret response
          | None =>
              let* index :=
                loadSearchIndex (searchIndexNow clock) env snapshotDate request in
              match index with
              | None => ret (json (BodyError "Leaderboard unavailable") 503 rlHeaders)
              | Some index =>
                  let query := toLowerCase rawQ in
                  let filtered :=
                    if truthy query
                    then filterItems query (SearchIndexDocument.items index)
                    else SearchIndexDocument.items index in
                  let payload := indexedPage index filtered sortMode page pageSize in
                  let payload :=
                    match manifest_total_skills latestManifest with
                    | Some total =>
                        if negb (truthy query)
                           && (length (sr_items payload) =? 0)%nat
                           && negb (total =? 0)
                        then with_total total payload
                        else payload
                    | None => payload
                    end in
                  ret (json (BodySearch payload (Some sortMode)) 200
                         (search_cache_headers rlHeaders))
              end
          end
      end
  end.

Definition serveSkillDetail (clock : Clock) (env : Env) (request : Request)
    (rlHeaders : StrMap) : M Response :=
  match parseSkillPath (pathname request) "/v1/skills/" with
  | None => ret (json (BodyError "Invalid skill id") 400 rlHeaders)
  | Some (id, owner, repo, skillId) =>
      let* resolved := resolveSnapshot clock env request rlHeaders "Skill unavailable" in
      match resolved with
      | inl response => ret response
      | inr (snapshotDate, _) =>
          let* record :=
            loadJsonObjectWithCache parse_Record env
              (SKILL_DETAIL_KEY snapshotDate owner repo skillId) request
              ("skill/" ++ snapshotDate ++ "/" ++ id)%string in
          match record with
          | Some record => ret (json (BodyRecord record) 200 rlHeaders)
          | None =>
              let* record := buildSnapshotSkillRecord env snapshotDate id request in
              match record with
              | None => ret (json (BodyError "Not found") 404 rlHeaders)
              | Some record => ret (json (BodySkillRecord record) 200 rlHeaders)
              end
          end
      end
  end.

Definition serveMetrics (clock : Clock) (env : Env) (request : Request)
    (rlHeaders : StrMap) : M Response :=
  match parseSkillPath (pathname request) "/v1/metrics/" with
  | None => ret (json (BodyError "Invalid skill id") 400 rlHeaders)
  | Some (id, owner, repo, skillId) =>
      let* resolved := resolveSnapshot clock env request rlHeaders "Metrics unavailable" in
      match resolved with
      | inl response => ret response
      | inr (snapshotDate, _) =>
          let* metrics :=
            loadJsonObjectWithCache parse_Record env
              (METRICS_KEY snapshotDate owner repo skillId) request
              ("metrics/" ++ snapshotDate ++ "/" ++ id)%string in
          match metrics with
          | Some metrics => ret (json (BodyRecord metrics) 200 rlHeaders)
          | None =>
              let* metrics := buildSnapshotMetricsResponse env snapshotDate id request in
              match metrics with
              | None => ret (json (BodyError "Not found") 404 rlHeaders)
              | Some metrics => ret (json (BodyMetrics metrics) 200 rlHeaders)
              end
          end
      end
  end.

(** The lookup fallback of [/v1/search], entered when the slim index is
    missing. *)
Definition searchFallback (env : Env) (request : Request) (rlHeaders : StrMap)
    (snapshotDate query : string) (sortParam : SortMode) (page pageSize : Z)
  : M Response :=
  let* lookup := loadSnapshotSkillLookup env snapshotDate request in
  match lookup with
  | None => ret (json (BodyError "Search index unavailable") 503 rlHeaders)
  | Some lookup =>
      match SnapshotSkillLookupDocument.entries lookup with
      | None => throw "Cannot convert undefined or null to object"
      | Some allEntries =>
          let entries := List.filter (entry_matches query) allEntries in
          let sortedEntries := sortEntries sortParam entries in
          let start := (page - 1) * pageSize in
          let selected := Array_slice sortedEntries start (start + pageSize) in
          let* snapshotManifest := loadSnapshotSkillsManifest env snapshotDate request in
          let rawPageSize := manifest_page_size snapshotManifest in
          let* items :=
            resolveSelected env snapshotDate request rawPageSize selected ∅ [] in
          ret (json
                 (BodyFallbackSearch
                    {| sr_items := items; sr_page := page; sr_page_size := pageSize;
                       sr_total := Z.of_nat (length sortedEntries);
                       sr_snapshot_date := snapshotDate |})
                 200 (search_cache_headers rlHeaders))
      end
  end.

Definition serveSearch (clock : Clock) (env : Env) (request : Request)
    (rlHeaders : StrMap) : M Response :=
  let rawQ := requestedQuery request in
  if (String.length rawQ <? 2)%nat
  then ret (json (BodyError "q must be at least 2 characters") 400 rlHeaders)
  else if (100 <? String.length rawQ)%nat
  then ret (json (BodyError "q must be <= 100 characters") 400 rlHeaders)
  else
    let sortParam := nullish (searchParams_get "sort" request) "installs" in
    match SortMode_of_string sortParam with
    | None =>
        ret (json (BodyError ("Invalid sort field: " ++ sortParam)%string) 400 rlHeaders)
    | Some sortMode =>
        let page := requestedPage request in
        let pageSize := requestedPageSize 50 12 request in
        let* resolved :=
          resolveSnapshot clock env request rlHeaders "Search index unavailable" in
        match resolved with
        | inl response => ret response
        | inr (snapshotDate, _) =>
            let* index :=
              loadSearchIndex (searchIndexNow clock) env snapshotDate request in
            let query := toLowerCase rawQ in
            match index with
            | Some index =>
                let filtered := filterItems query (SearchIndexDocument.items index) in
                ret (json
                       (BodySearch (indexedPage index filtered sortMode page pageSize) None)
                       200 (search_cache_headers rlHeaders))
            | None =>
                searchFallback env request rlHeaders snapshotDate query sortMode page
                  pageSize
            end
        end
    end.

(** A rate-limited route: the limiter runs first and a blocked request
    is answered with its 429. *)
Definition rateLimited (clock : Clock) (request : Request)
    (route : StrMap -> M Response) : M Response :=
  fun w =>
    let '(r, w) := enforceRateLimit (rateLimitNow clock) request w in
    match blocked r with
    | Some response => (Ok response, w)
    | None => route (rl_headers r) w
    end.

(** The body of [fetch]'s [try]. *)
Definition route (clock : Clock) (request : Request) (env : Env) : M Response :=
  if String.eqb (method request) "OPTIONS"
  then ret {| status := 204; headers := CORS_HEADERS; body := BodyNull |}
  else if negb (String.eqb (method request) "GET")
  then ret (json (BodyError "Method not allowed") 405 [])
  else
    let path := pathname request in
    if startsWith path ("/" ++ DATA_PREFIX ++ "/")%string && endsWith path ".json"
    then serveStatic clock env request
    else if String.eqb path "/healthz" then serveHealthz clock env request
    else if String.eqb path "/v1/stats/summary"
    then rateLimited clock request (serveStatsSummary clock env request)
    else if String.eqb path "/v1/skills"
    then rateLimited clock request (serveSkills clock env request)
    else if startsWith path "/v1/skills/"
    then rateLimited clock request (serveSkillDetail clock env request)
    else if startsWith path "/v1/metrics/"
    then rateLimited clock request (serveMetrics clock env request)
    else if String.eqb path "/v1/search"
    then rateLimited clock request (serveSearch clock env request)
    else ret (json (BodyError "Not found") 404 []).

(** [fetch]: what the [try] throws becomes a 500 carrying the message,
    or ["Internal Server Error"] when the message is empty. *)
Definition fetch (clock : Clock) (request : Request) (env : Env) (w : World)
  : Response * World :=
  match route clock request env w with
  | (Ok response, w') => (response, w')
  | (Throw message, w') =>
      (json (BodyError (if truthy message then message else "Internal Server Error")) 500 [],
       w')
  end.
End Worker.

(** ** Sample platform and artifacts

    A platform for concrete runs. Its [JSON.parse] knows the sample
    artifacts below and rejects every other text; its [localeCompare]
    compares code units, its [Number] reads decimal digits, and its
    [decodeURIComponent] accepts the strings without an escape. *)

Definition quoted (s : string) : string := (dquote ++ s ++ dquote)%string.

Definition sample_date : string := "2025-01-15".

(** [{"snapshot_date":"2025-01-15"}] *)
Definition manifest_text : string :=
  ("{" ++ quoted "snapshot_date" ++ ":" ++ quoted sample_date ++ "}")%string.

(** [{"snapshot_date":"2025-01-15","counts":{"total_skills":5}}] *)
Definition manifest_counts_text : string :=
  ("{" ++ quoted "snapshot_date" ++ ":" ++ quoted sample_date ++ "," ++ quoted "counts" ++ ":{"
     ++ quoted "total_skills" ++ ":5}}")%string.

(** [{"snapshot_date":"2025-13-40"}] *)
Definition manifest_bad_date_text : string :=
  ("{" ++ quoted "snapshot_date" ++ ":" ++ quoted "2025-13-40" ++ "}")%string.

(** [{"date":"2025-01-15"}] *)
Definition legacy_pointer_text : string :=
  ("{" ++ quoted "date" ++ ":" ++ quoted sample_date ++ "}")%string.

Definition malformed_text : string := "{not-json".

Definition index_item (id skill_id nm : string) (total wk rank : Z) : SearchIndexItem.t :=
  {| SearchIndexItem.id := id; SearchIndexItem.skill_id := skill_id;
     SearchIndexItem.owner := "o"; SearchIndexItem.repo := "r";
     SearchIndexItem.name := nm;
     SearchIndexItem.canonical_url := ("https://skills.sh/" ++ id)%string;
     SearchIndexItem.total_installs := Some total;
     SearchIndexItem.weekly_installs := Some wk;
     SearchIndexItem.rank_at_fetch := Some rank |}.

Definition alpha : SearchIndexItem.t := index_item "o/r/alpha" "alpha" "Alpha Tool" 100 10 1.
Definition beta : SearchIndexItem.t := index_item "o/r/beta" "beta" "Beta Tool" 50 20 2.

Definition index_item_text (id skill_id nm total wk rank : string) : string :=
  ("{" ++ quoted "id" ++ ":" ++ quoted id ++ "," ++ quoted "skill_id" ++ ":" ++ quoted skill_id ++ ","
     ++ quoted "owner" ++ ":" ++ quoted "o" ++ "," ++ quoted "repo" ++ ":" ++ quoted "r" ++ ","
     ++ quoted "name" ++ ":" ++ quoted nm ++ "," ++ quoted "canonical_url" ++ ":"
     ++ quoted ("https://skills.sh/" ++ id) ++ "," ++ quoted "total_installs" ++ ":" ++ total ++ ","
     ++ quoted "weekly_installs" ++ ":" ++ wk ++ "," ++ quoted "rank_at_fetch" ++ ":" ++ rank
     ++ "}")%string.

(** The slim index of the worker's tests: Alpha Tool (100 installs, 10
    weekly) and Beta Tool (50 installs, 20 weekly). *)
Definition slim_index_text : string :=
  ("{" ++ quoted "snapshot_date" ++ ":" ++ quoted sample_date ++ "," ++ quoted "items" ++ ":["
     ++ index_item_text "o/r/alpha" "alpha" "Alpha Tool" "100" "10" "1" ++ ","
     ++ index_item_text "o/r/beta" "beta" "Beta Tool" "50" "20" "2" ++ "]}")%string.

(** [{"snapshot_date":"2025-01-15","total_entries":3,"entries":
     {"o/r/alpha":{"page":1,"index":0},"o/r/beta":{"page":1,"index":1},
      "o/r/tool-gone":{"page":2,"index":0}}}] *)
Definition lookup_text : string :=
  ("{" ++ quoted "snapshot_date" ++ ":" ++ quoted sample_date ++ "," ++ quoted "total_entries" ++ ":3,"
     ++ quoted "entries" ++ ":{"
     ++ quoted "o/r/alpha" ++ ":{" ++ quoted "page" ++ ":1," ++ quoted "index" ++ ":0},"
     ++ quoted "o/r/beta" ++ ":{" ++ quoted "page" ++ ":1," ++ quoted "index" ++ ":1},"
     ++ quoted "o/r/tool-gone" ++ ":{" ++ quoted "page" ++ ":2," ++ quoted "index" ++ ":0}}}")%string.

Definition sample_lookup : SnapshotSkillLookupDocument.t :=
  {| SnapshotSkillLookupDocument.snapshot_date := sample_date;
     SnapshotSkillLookupDocument.total_entries := 3;
     SnapshotSkillLookupDocument.entries :=
       Some [ ("o/r/alpha", {| SnapshotSkillLookup.page := 1; SnapshotSkillLookup.index := 0 |});
              ("o/r/beta", {| SnapshotSkillLookup.page := 1; SnapshotSkillLookup.index := 1 |});
              ("o/r/tool-gone",
               {| SnapshotSkillLookup.page := 2; SnapshotSkillLookup.index := 0 |}) ] |}.

(** [[{"source":"o/r","skillId":"alpha","name":"Alpha Tool","installs":100},
      {"source":"o/r","skillId":"beta","name":"Beta Tool","installs":50}]] *)
Definition page1_text : string :=
  ("[{" ++ quoted "source" ++ ":" ++ quoted "o/r" ++ "," ++ quoted "skillId" ++ ":" ++ quoted "alpha" ++ ","
     ++ quoted "name" ++ ":" ++ quoted "Alpha Tool" ++ "," ++ quoted "installs" ++ ":100},{"
     ++ quoted "source" ++ ":" ++ quoted "o/r" ++ "," ++ quoted "skillId" ++ ":" ++ quoted "beta" ++ ","
     ++ quoted "name" ++ ":" ++ quoted "Beta Tool" ++ "," ++ quoted "installs" ++ ":50}]")%string.

Definition sample_page1 : list SnapshotSkillPageItem.t :=
  [ {| SnapshotSkillPageItem.source := "o/r"; SnapshotSkillPageItem.skillId := "alpha";
       SnapshotSkillPageItem.name := "Alpha Tool"; SnapshotSkillPageItem.installs := Some 100 |};
    {| SnapshotSkillPageItem.source := "o/r"; SnapshotSkillPageItem.skillId := "beta";
       SnapshotSkillPageItem.name := "Beta Tool"; SnapshotSkillPageItem.installs := Some 50 |} ].

(** [{"snapshot_date":"2025-01-15","total_skills":3,"page_size":2,"page_count":2}] *)
Definition skills_manifest_text : string :=
  ("{" ++ quoted "snapshot_date" ++ ":" ++ quoted sample_date ++ "," ++ quoted "total_skills" ++ ":3,"
     ++ quoted "page_size" ++ ":2," ++ quoted "page_count" ++ ":2}")%string.

Definition sample_skills_manifest : SnapshotSkillsManifest.t :=
  {| SnapshotSkillsManifest.snapshot_date := sample_date;
     SnapshotSkillsManifest.total_skills := Some 3;
     SnapshotSkillsManifest.page_size := Some 2;
     SnapshotSkillsManifest.page_count := Some 2 |}.

(** The sign of the code-unit comparison of two strings. *)
Definition compare_code_units (a b : string) : Z :=
  match String.compare a b with
  | Lt => -1
  | Eq => 0
  | Gt => 1
  end.

Definition sample_platform : Platform :=
  {| parse_LatestManifest := fun text =>
       obj_get text
         [ (manifest_text,
            {| lmj_snapshot_date := Some sample_date; lmj_page_size := None;
               lmj_counts := None |});
           (manifest_counts_text,
            {| lmj_snapshot_date := Some sample_date; lmj_page_size := None;
               lmj_counts := Some {| total_skills := Some 5; total_repos := None |} |});
           (manifest_bad_date_text,
            {| lmj_snapshot_date := Some "2025-13-40"; lmj_page_size := None;
               lmj_counts := None |}) ];
     parse_SnapshotLatestManifest := fun text =>
       obj_get text [ (legacy_pointer_text, {| date := Some sample_date |}) ];
     parse_SnapshotStatsSummary := fun _ => None;
     parse_SnapshotSkillsManifest := fun text =>
       obj_get text [ (skills_manifest_text, sample_skills_manifest) ];
     parse_SnapshotSkillsPage := fun text => obj_get text [ (page1_text, sample_page1) ];
     parse_SnapshotSkillLookupDocument := fun text =>
       obj_get text [ (lookup_text, sample_lookup) ];
     parse_SearchIndexDocument := fun text =>
       obj_get text
         [ (slim_index_text,
            {| sij_snapshot_date := Some sample_date; sij_items := Some [alpha; beta] |}) ];
     parse_Record := fun _ => None;
     localeCompare := compare_code_units;
     Number_floor := fun s => if all_digits s then Some (digits_value 0 s) else None;
     decodeURIComponent := fun s => if includes s "%" then None else Some s |}.

Definition sample_clock : Clock :=
  {| rateLimitNow := 1000; manifestNow := 1000; searchIndexNow := 1000;
     generatedAt := 1000 |}.

Definition bucket_of (objects : list (string * string)) : Env :=
  {| SKILLSIGHT_DATA := Some (list_to_map objects) |}.

Definition post_request : Request :=
  {| method := "POST"; origin := "https://worker.test"; pathname := "/v1/search";
     searchParams := [("q", "tool")]; clientIp := None |}.

Definition options_request : Request :=
  {| method := "OPTIONS"; origin := "https://worker.test"; pathname := "/v1/search";
     searchParams := [("q", "tool")]; clientIp := None |}.

(** The bucket of the worker's happy-path test: a manifest and the slim
    index. *)
Definition indexed_env (manifest : string) : Env :=
  bucket_of [ (LATEST_MANIFEST_KEY, manifest);
              (SEARCH_INDEX_KEY sample_date, slim_index_text) ].

(** Scenario A: [/v1/search?q=tool&page=1&page_size=1&sort=weekly]. *)
Definition scenario_A_request : Request :=
  sample_request "/v1/search"
    [("q", "tool"); ("page", "1"); ("page_size", "1"); ("sort", "weekly")].

(** A page of [/v1/skills] beyond the two items of the index. *)
Definition beyond_request : Request :=
  sample_request "/v1/skills" [("page", "2"); ("page_size", "50")].

(** A bucket in the compact layout only: lookup, first page and
    per-snapshot manifest; the second page is missing. *)
Definition compact_env : Env :=
  bucket_of [ (LATEST_MANIFEST_KEY, manifest_text);
              (SNAPSHOT_SKILL_LOOKUP_KEY sample_date, lookup_text);
              (SNAPSHOT_SKILLS_PAGE_KEY sample_date 1, page1_text);
              (SNAPSHOT_SKILLS_MANIFEST_KEY sample_date, skills_manifest_text) ].

(** ** Lookup fallback *)

(** The item that the fallback loop pushes for a selected entry, given
    the pages it has fetched: none when the page has no row at the
    entry's index. *)
Definition resolveRef `{P : Platform} (rawPageSize : Z)
    (pageCache : gmap Z (list SnapshotSkillPageItem.t))
    (e : string * SnapshotSkillLookup.t) : option SkillListItem.t :=
  match pageCache !! SnapshotSkillLookup.page (snd e) with
  | Some snapshotPage =>
      match Array_get snapshotPage (SnapshotSkillLookup.index (snd e)) with
      | Some raw =>
          Some (with_id (fst e)
                  (snapshotItemToSkillListItem raw
                     ((SnapshotSkillLookup.page (snd e) - 1) * rawPageSize
                      + SnapshotSkillLookup.index (snd e) + 1)))
      | None => None
      end
  | None => None
  end.

(** ** The lookup fallback, storage apart from resolution *)

(** What the loop of the lookup fallback does with storage: the pages
    of [pages] are loaded in order, each at most once, into [pageCache],
    and a page that loads as [null] is kept as the empty array. *)
Fixpoint loadPages `{P : Platform} (env : Env) (snapshotDate : string) (request : Request)
    (pages : list Z) (pageCache : gmap Z (list SnapshotSkillPageItem.t))
  : M (gmap Z (list SnapshotSkillPageItem.t)) :=
  match pages with
  | [] => ret pageCache
  | page :: rest =>
      match pageCache !! page with
      | Some _ => loadPages env snapshotDate request rest pageCache
      | None =>
          let* loaded := loadSnapshotSkillsPage env snapshotDate page request in
          loadPages env snapshotDate request rest (<[page := nullish loaded []]> pageCache)
      end
  end.

(** The entry has a row at its index in its page of [pageCache]. *)
Definition resolves (pageCache : gmap Z (list SnapshotSkillPageItem.t))
    (e : string * SnapshotSkillLookup.t) : bool :=
  match pageCache !! SnapshotSkillLookup.page (snd e) with
  | Some snapshotPage =>
      match Array_get snapshotPage (SnapshotSkillLookup.index (snd e)) with
      | Some _ => true
      | None => false
      end
  | None => false
  end.

(** The edge-cache key of a page of the compact layout. *)
Definition page_cache_key (snapshotDate : string) (request : Request) (page : Z) : string :=
  cacheRequest request ("snapshot-skills-page/" ++ snapshotDate ++ "/" ++ String_of page).

(** The text that a load of [page] reads when the edge cache is
    [cache]: the cached text, else the stored object; nothing without a
    bucket. *)
Definition page_source (env : Env) (snapshotDate : string) (request : Request)
    (cache : gmap string string) (page : Z) : option string :=
  match SKILLSIGHT_DATA env with
  | None => None
  | Some bucket =>
      match cache !! page_cache_key snapshotDate request page with
      | Some text => Some text
      | None => bucket !! SNAPSHOT_SKILLS_PAGE_KEY snapshotDate page
      end
  end.

(** [rows] is what the loop keeps for [page] when the edge cache is
    [cache]: the empty array when there is no text or an empty one, else
    the rows that the text parses to. *)
Definition page_decodes `{P : Platform} (env : Env) (snapshotDate : string)
    (request : Request) (cache : gmap string string) (page : Z)
    (rows : list SnapshotSkillPageItem.t) : Prop :=
  match present (page_source env snapshotDate request cache page) with
  | None => rows = []
  | Some text => parse_SnapshotSkillsPage text = Some rows
  end.

(** [/v1/search?q=o/r&page_size=50]: all three lookup entries match. *)
Definition fallback_request : Request :=
  sample_request "/v1/search" [("q", "o/r"); ("page_size", "50")].

(** ** Cache contents *)

(** The in-process decoded caches of [w'] are those of [w]. *)
Definition same_decoded (w w' : World) : Prop :=
  parsedSearchCache w' = parsedSearchCache w /\
  cachedLatestManifest w' = cachedLatestManifest w.

(** A bucket whose manifest is not JSON, as in the worker's test of
    malformed artifacts. *)
Definition malformed_env : Env := bucket_of [ (LATEST_MANIFEST_KEY, malformed_text) ].

Definition tool_request : Request := sample_request "/v1/search" [("q", "tool")].

(** ** Pagination *)

(** [payload] carries the page of [sorted] that [request] asks for, with
    [page_size] clamped to [cap]. *)
Definition pagination_of `{P : Platform} {I} (request : Request) (cap fallback : Z)
    (sorted : list I) (payload : SearchResponse I) : Prop :=
  let page := requestedPage request in
  let pageSize := requestedPageSize cap fallback request in
  1 <= page /\ 1 <= pageSize <= cap /\
  sr_page payload = page /\ sr_page_size payload = pageSize /\
  sr_items payload =
    Array_slice sorted ((page - 1) * pageSize) ((page - 1) * pageSize + pageSize).

(** The items of pages [1] to [n] of [xs], one page after the other. *)
Definition pages_upto {I} (xs : list I) (pageSize : Z) (n : nat) : list I :=
  concat (map (fun k => let page := Z.of_nat k + 1 in
                        Array_slice xs ((page - 1) * pageSize) ((page - 1) * pageSize + pageSize))
              (seq 0 n)).

(** ** Postconditions of computations *)

(** Whatever [m] returns satisfies [Q]; a throw is not a return. *)
Definition returns {A} (m : M A) (Q : A -> Prop) : Prop :=
  forall w, match fst (m w) with Ok a => Q a | Throw _ => True end.

(** The order that a comparator induces: [a] may stand before [b]. *)
Definition precedes {A} (compare : A -> A -> Z) (a b : A) : Prop := compare a b <= 0.

(** What a [BodySearch] answer of [/v1/search] is: the requested page of
    the filtered and sorted items of some index, with their number as
    total. *)
Definition search_answer `{P : Platform} (request : Request) (r : Response) : Prop :=
  forall payload s, body r = BodySearch payload s ->
    exists doc sortMode,
      SortMode_of_string (nullish (searchParams_get "sort" request) "installs") = Some sortMode /\
      let query := toLowerCase (requestedQuery request) in
      let sorted := sortItems (filterItems query (SearchIndexDocument.items doc)) sortMode in
      pagination_of request 50 12 sorted payload /\
      sr_total payload = Z.of_nat (length sorted).

(** What a [BodySearch] answer of [/v1/skills] is: the same, over all
    items when the query is empty; the total is the number of sorted
    items unless the query is empty, the page is empty and the latest
    manifest carries a non-zero [total_skills], which is then the total. *)
Definition skills_answer `{P : Platform} (request : Request) (r : Response) : Prop :=
  forall payload s, body r = BodySearch payload s ->
    exists doc sortMode latestManifest,
      SortMode_of_string (nullish (searchParams_get "sort" request) "installs") = Some sortMode /\
      let query := toLowerCase (requestedQuery request) in
      let filtered := if truthy query then filterItems query (SearchIndexDocument.items doc)
                      else SearchIndexDocument.items doc in
      let sorted := sortItems filtered sortMode in
      pagination_of request 200 200 sorted payload /\
      (sr_total payload = Z.of_nat (length sorted) \/
       (query = "" /\ sr_items payload = [] /\ sr_total payload <> 0 /\
        manifest_total_skills latestManifest = Some (sr_total payload))).

(** ** Indexed answers, tied to the run that gives them *)

(** The items of pages [1] to [n] of the indexed path, one page after
    the other. *)
Definition indexed_pages `{P : Platform} (doc : SearchIndexDocument.t)
    (filtered : list SearchIndexItem.t) (sort : SortMode) (pageSize : Z) (n : nat)
  : list SearchIndexItem.t :=
  concat (map (fun k => sr_items (indexedPage doc filtered sort (Z.of_nat k + 1) pageSize))
              (seq 0 n)).

(** [/v1/skills] puts [t] in place of the number of sorted items: the
    query is empty, the page [base] has no items and the manifest that
    the request resolved counts [t] skills, [t] not 0. *)
Definition overridden_total (latestManifest : option LatestManifest) (query : string)
    (base : SearchResponse SearchIndexItem.t) (t : Z) : Prop :=
  query = "" /\ sr_items base = [] /\
  manifest_total_skills latestManifest = Some t /\ t <> 0.

(** [payload] is the indexed answer of [/v1/search] in the run of the
    handler from [w] that ends in [w']: the snapshot is the one the
    request resolves in [w], [doc] is the index that [loadSearchIndex]
    returns for it next, and [payload] is the requested page of its
    filtered and sorted items. *)
Definition indexed_search_run `{P : Platform} (clock : Clock) (env : Env) (request : Request)
    (rlHeaders : StrMap) (w : World) (payload : SearchResponse SearchIndexItem.t)
    (w' : World) : Prop :=
  let query := toLowerCase (requestedQuery request) in
  let page := requestedPage request in
  let pageSize := requestedPageSize 50 12 request in
  exists sortMode snapshotDate latestManifest w1 doc,
    SortMode_of_string (nullish (searchParams_get "sort" request) "installs") = Some sortMode /\
    resolveSnapshot clock env request rlHeaders "Search index unavailable" w
    = (Ok (inr (snapshotDate, latestManifest)), w1) /\
    loadSearchIndex (searchIndexNow clock) env snapshotDate request w1 = (Ok (Some doc), w') /\
    1 <= page /\ 1 <= pageSize <= 50 /\
    payload
    = indexedPage doc (filterItems query (SearchIndexDocument.items doc)) sortMode page pageSize.

(** The same for [/v1/skills]: between resolving the snapshot and
    loading the index an empty query tries the leaderboard pages, which
    gave nothing; the items are all items when the query is empty; and
    [total] is the number of sorted items unless it is overridden. *)
Definition indexed_skills_run `{P : Platform} (clock : Clock) (env : Env) (request : Request)
    (rlHeaders : StrMap) (w : World) (payload : SearchResponse SearchIndexItem.t)
    (sort : option SortMode) (w' : World) : Prop :=
  let query := toLowerCase (requestedQuery request) in
  let page := requestedPage request in
  let pageSize := requestedPageSize 200 200 request in
  exists sortMode snapshotDate latestManifest w1 w2 doc,
    SortMode_of_string (nullish (searchParams_get "sort" request) "installs") = Some sortMode /\
    sort = Some sortMode /\
    resolveSnapshot clock env request rlHeaders "Leaderboard unavailable" w
    = (Ok (inr (snapshotDate, latestManifest)), w1) /\
    (if (String.length (requestedQuery request) =? 0)%nat
     then serveLeaderboardPage env request rlHeaders snapshotDate latestManifest sortMode
            page pageSize w1 = (Ok None, w2)
     else w2 = w1) /\
    loadSearchIndex (searchIndexNow clock) env snapshotDate request w2 = (Ok (Some doc), w') /\
    1 <= page /\ 1 <= pageSize <= 200 /\
    let filtered := if truthy query then filterItems query (SearchIndexDocument.items doc)
                    else SearchIndexDocument.items doc in
    let base := indexedPage doc filtered sortMode page pageSize in
    payload = with_total (sr_total payload) base /\
    ((exists t, overridden_total latestManifest query base t /\ sr_total payload = t) \/
     ((forall t, ~ overridden_total latestManifest query base t) /\
      sr_total payload = Z.of_nat (length (sortItems filtered sortMode)))).

(** [m] leaves the decoded caches as they are. *)
Definition keeps_decoded {A} (m : M A) : Prop :=
  forall w, same_decoded w (snd (m w)).

(** When [m] throws, the decoded caches are as they were. *)
Definition throws_keep_decoded {A} (m : M A) : Prop :=
  forall w e w', m w = (Throw e, w') -> same_decoded w w'.

(** The outcome of the resolver when nothing is cached. *)
Definition resolved_cold `{P : Platform} (bucket : gmap string string)
    (r : Result (option LatestManifest)) : Prop :=
  match present (bucket !! LATEST_MANIFEST_KEY) with
  | Some text =>
      match parse_LatestManifest text with
      | None => r = Throw ("Invalid JSON in " ++ LATEST_MANIFEST_KEY)%string
      | Some parsed =>
          match valid_date (lmj_snapshot_date parsed) with
          | None => r = Throw "latest.json missing valid snapshot_date"
          | Some d =>
              r = Ok (Some {| snapshot_date := d; page_size := lmj_page_size parsed;
                              counts := lmj_counts parsed |})
          end
      end
  | None =>
      match present (bucket !! LATEST_SNAPSHOT_KEY) with
      | None => r = Ok None
      | Some text =>
          match parse_SnapshotLatestManifest text with
          | None => r = Throw ("Invalid JSON in " ++ LATEST_SNAPSHOT_KEY)%string
          | Some parsed =>
              match valid_date (date parsed) with
              | None => r = Throw "snapshots/latest.json missing valid date"
              | Some d =>
                  (exists e, r = Throw e) \/
                  (exists m, r = Ok (Some m) /\ snapshot_date m = d)
              end
          end
      end
  end.

(** The request names no snapshot: [snapshot_date] is absent or empty. *)
Definition no_snapshot_param (request : Request) : Prop :=
  match searchParams_get "snapshot_date" request with
  | Some d => truthy d = false
  | None => True
  end.

(** A bucket whose legacy pointer object exists with an empty body. *)
Definition empty_pointer_env : Env := bucket_of [ (LATEST_SNAPSHOT_KEY, "") ].

(** The world after a first resolution at time 1000 against a bucket
    that holds the canonical manifest. *)
Definition warm_world : World :=
  snd (loadLatestManifest (P := sample_platform) 1000
         (bucket_of [ (LATEST_MANIFEST_KEY, manifest_text) ]) tool_request initialWorld).

(** ** Further observations on strings *)

(** [s.includes(c)] for a single character. *)
Fixpoint has_char (c : ascii) (s : string) : bool :=
  match s with
  | EmptyString => false
  | String a s' => Ascii.eqb a c || has_char c s'
  end.

(** Every character of [s] satisfies [p]. *)
Fixpoint all_chars (p : ascii -> bool) (s : string) : bool :=
  match s with
  | EmptyString => true
  | String a s' => p a && all_chars p s'
  end.

(** ** Further observations on the rate limiter *)

(** Every stored window has counted at least one and at most 60
    requests. *)
Definition counts_in_range (w : World) : Prop :=
  forall cid c, rateLimitByClient w !! cid = Some c ->
    1 <= count c <= RATE_LIMIT_MAX_REQUESTS.

(** The state after the limiter has been asked about each request. *)
Fixpoint limiter_run (reqs : list (Z * Request)) (w : World) : World :=
  match reqs with
  | [] => w
  | (nowMs, request) :: rest => limiter_run rest (snd (enforceRateLimit nowMs request w))
  end.

(** The paths of the rate-limited routes. *)
Definition rate_limited_path (path : string) : Prop :=
  path = "/v1/stats/summary" \/ path = "/v1/skills" \/ path = "/v1/search" \/
  startsWith path "/v1/skills/" = true \/ startsWith path "/v1/metrics/" = true.

(** The state after 60 admitted requests of the sample client. *)
Definition exhausted_world : World :=
  limiter_run (repeat (5, tool_request) 60) initialWorld.

(** ** Further observations on the caches *)

(** [w] after the storage operations [events]. *)
Definition with_trace (events : list IOEvent) (w : World) : World :=
  {| rateLimitByClient := rateLimitByClient w;
     lastRateLimitSweepMs := lastRateLimitSweepMs w;
     parsedSearchCache := parsedSearchCache w;
     cachedLatestManifest := cachedLatestManifest w;
     edgeCache := edgeCache w;
     trace := (trace w ++ events)%list |}.

(** [w] after [text] has been put in the edge cache under [cacheKey]. *)
Definition with_cached (cacheKey text : string) (w : World) : World :=
  {| rateLimitByClient := rateLimitByClient w;
     lastRateLimitSweepMs := lastRateLimitSweepMs w;
     parsedSearchCache := parsedSearchCache w;
     cachedLatestManifest := cachedLatestManifest w;
     edgeCache := <[cacheKey := text]> (edgeCache w);
     trace := trace w |}.

(** What [m] returns from [w], and the state it leaves, satisfy [Q]. *)
Definition ensures_at {A} (m : M A) (Q : A -> World -> Prop) (w : World) : Prop :=
  match m w with
  | (Ok a, w') => Q a w'
  | (Throw _, _) => True
  end.

Definition ensures {A} (m : M A) (Q : A -> World -> Prop) : Prop :=
  forall w, ensures_at m Q w.

(** When [m] returns [null], the decoded caches are as they were. *)
Definition null_keeps_decoded {A} (m : M (option A)) : Prop :=
  forall w w', m w = (Ok None, w') -> same_decoded w w'.

(** [m] leaves the rate limiter's state and the parsed search index as
    they are. *)
Definition keeps_limiter {A} (m : M A) : Prop :=
  forall w,
    rateLimitByClient (snd (m w)) = rateLimitByClient w /\
    lastRateLimitSweepMs (snd (m w)) = lastRateLimitSweepMs w /\
    parsedSearchCache (snd (m w)) = parsedSearchCache w.

(** ** Validation of requests *)

(** The messages with which the rate-limited routes turn a request down. *)
Definition validation_error (request : Request) (e : string) : Prop :=
  e = "Invalid snapshot_date format" \/ e = "Invalid skill id" \/
  e = "q must be at least 2 characters" \/ e = "q must be <= 100 characters" \/
  e = ("Invalid sort field: " ++ nullish (searchParams_get "sort" request) "installs")%string.

(** The handlers that [fetch] runs behind the rate limiter. *)
Definition rate_limited_handlers `{P : Platform} (clock : Clock) (env : Env)
    (request : Request) : list (StrMap -> M Response) :=
  [ serveStatsSummary clock env request; serveSkills clock env request;
    serveSkillDetail clock env request; serveMetrics clock env request;
    serveSearch clock env request ].

(** [out], reached from [w], is not a 400 unless it is a validation
    error given with the headers [rlHeaders] in the state [w] itself. *)
Definition rejects_early (request : Request) (rlHeaders : StrMap) (w : World)
    (out : Result Response * World) : Prop :=
  match out with
  | (Ok r, w') =>
      status r = 400 ->
      (exists e, validation_error request e /\ r = json (BodyError e) 400 rlHeaders) /\ w' = w
  | (Throw _, _) => True
  end.

(** Requests that fail validation: an unknown sort and a date
    that is none. *)
Definition bad_sort_request : Request :=
  sample_request "/v1/skills" [("sort", "stars")].

Definition bad_date_request : Request :=
  sample_request "/v1/stats/summary" [("snapshot_date", "2025-02-30")].

(** ** Headers of every answer *)

(** The headers of [fixed] are among those of [r], with their values. *)
Definition carries (r : Response) (fixed : StrMap) : Prop :=
  Forall (fun kv => obj_get (fst kv) (headers r) = Some (snd kv)) fixed.

(** The two headers that [json] and the static route put before the CORS
    headers. *)
Definition JSON_HEADERS : StrMap :=
  [ ("content-type", "application/json; charset=utf-8");
    ("X-Content-Type-Options", "nosniff") ].

(** [extra] sets none of the type and CORS headers. *)
Definition spares (extra : StrMap) : Prop :=
  Forall (fun kv => obj_get (fst kv) extra = None) (JSON_HEADERS ++ CORS_HEADERS)%list.

Definition standard (r : Response) : Prop := carries r (JSON_HEADERS ++ CORS_HEADERS)%list.

(** [r] has a [cache-control] header exactly when its status is 2xx. *)
Definition cache_policy (r : Response) : Prop :=
  has_cache_control (headers r) = (200 <=? status r) && (status r <? 300).

(** The rate-limit headers of [r] are those of [rlHeaders], and its
    status is one that a handler behind the limiter gives. *)
Definition limited_answer (rlHeaders : StrMap) (r : Response) : Prop :=
  Forall (fun k => obj_get k (headers r) = obj_get k rlHeaders)
    ["X-RateLimit-Limit"; "X-RateLimit-Remaining"; "X-RateLimit-Reset"] /\
  In (status r) [200; 400; 404; 503].

(** * Properties *)

(** ** RateLimiter *)

Lemma sweep_lookup_live nowMs w cid c :
  rateLimitByClient w !! cid = Some c ->
  window_elapsed nowMs c = false ->
  rateLimitByClient (sweepExpiredRateLimitEntries nowMs w) !! cid = Some c.
Proof.
  intros Hc Hlive. unfold sweepExpiredRateLimitEntries.
  destruct (_ <? _); [exact Hc|]. cbn.
  apply map_lookup_filter_Some. split; [exact Hc|]. cbn.
  unfold window_elapsed in Hlive. lia.
Qed.

Lemma sweep_lookup_None nowMs w cid :
  rateLimitByClient w !! cid = None ->
  rateLimitByClient (sweepExpiredRateLimitEntries nowMs w) !! cid = None.
Proof.
  intros Hc. unfold sweepExpiredRateLimitEntries.
  destruct (_ <? _); [exact Hc|]. cbn.
  apply map_lookup_filter_None. left. exact Hc.
Qed.

Lemma sweep_lookup_elapsed nowMs w cid c :
  rateLimitByClient w !! cid = Some c ->
  window_elapsed nowMs c = true ->
  rateLimitByClient (sweepExpiredRateLimitEntries nowMs w) !! cid = None \/
  rateLimitByClient (sweepExpiredRateLimitEntries nowMs w) !! cid = Some c.
Proof.
  intros Hc Hel. unfold sweepExpiredRateLimitEntries.
  destruct (_ <? _); [right; exact Hc|]. cbn. left.
  apply map_lookup_filter_None. right. intros x Hx. cbn.
  rewrite Hc in Hx. injection Hx as <-. unfold window_elapsed in Hel. lia.
Qed.

Lemma retryAfterSeconds_pos nowMs c : 1 <= retryAfterSeconds nowMs c.
Proof. unfold retryAfterSeconds, Math_max. lia. Qed.

(** While the window is open, the ceiling itself is already at least 1,
    so the [max] only matters at the boundary of the model. *)
Lemma Math_ceil_div_pos a b : 0 < b -> 0 < a -> 1 <= Math_ceil_div a b.
Proof.
  intros Hb Ha. unfold Math_ceil_div.
  assert ((- a) / b < 0) by (apply Z.div_lt_upper_bound; lia). lia.
Qed.

Lemma Math_ceil_div_spec a b :
  0 < b -> let q := Math_ceil_div a b in b * (q - 1) < a <= b * q.
Proof.
  intros Hb q. subst q. unfold Math_ceil_div.
  pose proof (Z.mul_div_le (- a) b Hb).
  pose proof (Z.mul_succ_div_gt (- a) b Hb). lia.
Qed.

Lemma enforceRateLimit_branches nowMs request w :
  let cid := getRateLimitClientId request in
  let r := fst (enforceRateLimit nowMs request w) in
  let w' := snd (enforceRateLimit nowMs request w) in
  match rateLimitByClient w !! cid with
  | None => starts_window nowMs cid r w'
  | Some cur =>
      if window_elapsed nowMs cur then starts_window nowMs cid r w'
      else if count cur <? RATE_LIMIT_MAX_REQUESTS then
        blocked r = None /\
        rateLimitByClient w' !! cid =
          Some {| windowStartMs := windowStartMs cur; count := count cur + 1 |}
      else
        exists resp,
          blocked r = Some resp /\ status resp = 429 /\
          obj_get "Retry-After" (headers resp) =
            Some (String_of (Math_max 1
                    (Math_ceil_div (windowStartMs cur + 60000 - nowMs) 1000))) /\
          body resp = BodyTooManyRequests
                        (Math_max 1 (Math_ceil_div (windowStartMs cur + 60000 - nowMs) 1000)) /\
          rateLimitByClient w' !! cid = Some cur
  end.
Proof.
  intros cid r w'. subst r w'. unfold enforceRateLimit. fold cid.
  destruct (rateLimitByClient w !! cid) as [cur|] eqn:Hcur.
  - destruct (window_elapsed nowMs cur) eqn:Hel.
    + destruct (sweep_lookup_elapsed nowMs w cid cur Hcur Hel) as [-> | ->].
      * split; [reflexivity|]. cbn. apply lookup_insert_eq.
      * rewrite Hel. split; [reflexivity|]. cbn. apply lookup_insert_eq.
    + rewrite (sweep_lookup_live nowMs w cid cur Hcur Hel), Hel.
      destruct (count cur <? RATE_LIMIT_MAX_REQUESTS) eqn:Hlt.
      * assert ((count cur >=? RATE_LIMIT_MAX_REQUESTS) = false) as -> by lia.
        split; [reflexivity|]. cbn. apply lookup_insert_eq.
      * assert ((count cur >=? RATE_LIMIT_MAX_REQUESTS) = true) as -> by lia.
        eexists. split; [reflexivity|]. cbn.
        repeat split. apply sweep_lookup_live; assumption.
  - rewrite (sweep_lookup_None nowMs w cid Hcur).
    split; [reflexivity|]. cbn. apply lookup_insert_eq.
Qed.

Lemma enforceRateLimit_other nowMs request w cid c :
  getRateLimitClientId request <> cid ->
  rateLimitByClient w !! cid = Some c ->
  window_elapsed nowMs c = false ->
  rateLimitByClient (snd (enforceRateLimit nowMs request w)) !! cid = Some c.
Proof.
  intros Hne Hc Hlive. unfold enforceRateLimit.
  pose proof (sweep_lookup_live nowMs w cid c Hc Hlive) as Hs.
  set (ws := sweepExpiredRateLimitEntries nowMs w) in *.
  destruct (rateLimitByClient ws !! getRateLimitClientId request) as [cur|].
  - destruct (window_elapsed nowMs cur); [|destruct (count cur >=? _)]; cbn;
      rewrite ?lookup_insert_ne by assumption; exact Hs.
  - cbn. rewrite lookup_insert_ne by assumption. exact Hs.
Qed.

(** Within one stored window the limiter admits no more requests of a
    client than the window has room for, whatever other clients do in
    between. *)
Lemma admitted_in_window cid reqs : forall w t0 k,
  rateLimitByClient w !! cid = Some {| windowStartMs := t0; count := k |} ->
  Forall (fun tr => fst tr - t0 < RATE_LIMIT_WINDOW_MS) reqs ->
  admitted cid reqs w <= Z.max 0 (RATE_LIMIT_MAX_REQUESTS - k).
Proof.
  induction reqs as [|[t r] rest IH]; intros w t0 k Hc Hall; cbn [admitted].
  - lia.
  - inversion Hall as [|? ? Ht Hrest]; subst. cbn in Ht.
    assert (Hlive : window_elapsed t {| windowStartMs := t0; count := k |} = false)
      by (unfold window_elapsed; cbn; lia).
    destruct (String.eqb_spec (getRateLimitClientId r) cid) as [Heq|Hne].
    + pose proof (enforceRateLimit_branches t r w) as Hb. cbn zeta in Hb.
      rewrite Heq, Hc, Hlive in Hb. cbn [count windowStartMs] in Hb.
      destruct (k <? RATE_LIMIT_MAX_REQUESTS) eqn:Hk.
      * destruct Hb as [Hadm Hw']. unfold admits. rewrite Hadm. cbn [andb].
        specialize (IH _ _ _ Hw' Hrest). lia.
      * destruct Hb as (resp & Hblk & _ & _ & _ & Hw'). unfold admits. rewrite Hblk.
        cbn [andb]. specialize (IH _ _ _ Hw' Hrest). lia.
    + cbn [andb].
      specialize (IH _ _ _ (enforceRateLimit_other t r w cid _ Hne Hc Hlive) Hrest). lia.
Qed.

(** C1. The rate limiter admits at most 60 requests per 60,000 ms window.
    With no entry for the client, or with a stored window that has fully
    elapsed, a fresh window starts with count 1 and the request is allowed;
    otherwise a count below 60 is incremented and the request is allowed;
    otherwise the request is blocked with status 429 and a [Retry-After] of
    [max(1, ceil((window_start + 60000 - now) / 1000))], which is at least 1.
    Consequently, from the request that starts a window, at most 60 requests
    of that client are admitted while the window lasts. *)
Theorem C1_rate_limiter (nowMs : Z) (request : Request) (w : World) :
  let cid := getRateLimitClientId request in
  let r := fst (enforceRateLimit nowMs request w) in
  let w' := snd (enforceRateLimit nowMs request w) in
  match rateLimitByClient w !! cid with
  | None => starts_window nowMs cid r w'
  | Some cur =>
      if nowMs - windowStartMs cur >=? 60000 then starts_window nowMs cid r w'
      else if count cur <? 60 then
        blocked r = None /\
        rateLimitByClient w' !! cid =
          Some {| windowStartMs := windowStartMs cur; count := count cur + 1 |}
      else
        exists resp,
          blocked r = Some resp /\ status resp = 429 /\
          obj_get "Retry-After" (headers resp) =
            Some (String_of (Z.max 1
                    (Math_ceil_div (windowStartMs cur + 60000 - nowMs) 1000))) /\
          1 <= Z.max 1 (Math_ceil_div (windowStartMs cur + 60000 - nowMs) 1000) /\
          rateLimitByClient w' !! cid = Some cur
  end /\
  forall rest,
    fresh_start nowMs cid w ->
    Forall (fun tr => fst tr - nowMs < 60000) rest ->
    admitted cid ((nowMs, request) :: rest) w <= 60.
Proof.
  intros cid r w'. split.
  - pose proof (enforceRateLimit_branches nowMs request w) as Hb. cbn zeta in Hb.
    fold cid r w' in Hb.
    destruct (rateLimitByClient w !! cid) as [cur|]; [|exact Hb].
    unfold window_elapsed, RATE_LIMIT_WINDOW_MS, RATE_LIMIT_MAX_REQUESTS in Hb.
    destruct (_ >=? _); [exact Hb|]. destruct (_ <? _); [exact Hb|].
    destruct Hb as (resp & H1 & H2 & H3 & _ & H5). exists resp.
    repeat split; try assumption. lia.
  - intros rest Hfresh Hall. cbn [admitted].
    pose proof (enforceRateLimit_branches nowMs request w) as Hb. cbn zeta in Hb.
    fold cid r w' in Hb. fold cid.
    assert (Hs : starts_window nowMs cid r w').
    { unfold fresh_start in Hfresh.
      destruct (rateLimitByClient w !! cid) as [cur|]; [|exact Hb].
      rewrite Hfresh in Hb. exact Hb. }
    destruct Hs as [Hadm Hw'].
    pose proof (admitted_in_window cid rest w' nowMs 1 Hw' Hall) as Hin.
    fold r w'. unfold admits. rewrite Hadm.
    unfold RATE_LIMIT_MAX_REQUESTS in Hin. destruct (String.eqb _ _); cbn [andb]; lia.
Qed.

Lemma C1_rate_limiter_witness :
  admitted sample_client
    ((0, sample_request "/v1/search" []) :: repeat (1000, sample_request "/v1/search" []) 60)
    initialWorld <= 60.
Proof.
  apply (proj2 (C1_rate_limiter 0 (sample_request "/v1/search" []) initialWorld)).
  - exact I.
  - repeat constructor.
Defined.

(** Scenario D: of 61 requests of one client in one window, the first 60
    are admitted and the 61st is blocked. *)
Example scenario_D :
  admitted sample_client (repeat (5, sample_request "/v1/search" []) 60) initialWorld = 60 /\
  admitted sample_client (repeat (5, sample_request "/v1/search" []) 61) initialWorld = 60.
Proof. split; vm_compute; reflexivity. Qed.
Example isDateString_samples : isDateString "2025-01-15" = true /\ isDateString "2025-13-40" = false /\ isDateString "2024-02-29" = true /\ isDateString "2025-02-29" = false /\ isDateString "0050-01-01" = false /\ isDateString "2025-1-15" = false /\ isDateString "" = false. Proof. repeat split; reflexivity. Qed.

(** ** Reasoning about computations *)

Lemma returns_ret {A} (a : A) (Q : A -> Prop) : Q a -> returns (ret a) Q.
Proof. intros H w. exact H. Qed.

Lemma returns_throw {A} (e : string) (Q : A -> Prop) : returns (throw e) Q.
Proof. intros w. exact I. Qed.

Lemma returns_bind {A B} (m : M A) (k : A -> M B) (Q : B -> Prop) :
  (forall a, returns (k a) Q) -> returns (bind m k) Q.
Proof.
  intros H w. unfold bind. destruct (m w) as [[a|e] w']; [apply H | exact I].
Qed.

Lemma bind_Ok {A B} (m : M A) (k : A -> M B) w a w' :
  m w = (Ok a, w') -> bind m k w = k a w'.
Proof. intros H. unfold bind. rewrite H. reflexivity. Qed.

Lemma bind_Throw {A B} (m : M A) (k : A -> M B) w e w' :
  m w = (Throw e, w') -> bind m k w = (Throw e, w').
Proof. intros H. unfold bind. rewrite H. reflexivity. Qed.


(** ** Router: method dispatch *)

(** C9 as amended. [OPTIONS] is answered with 204 and the CORS headers;
    every other method that is not [GET] is answered with 405
    ["Method not allowed"]; neither touches the state or the storage. *)
Theorem C9_method_dispatch `{P : Platform} (clock : Clock) (request : Request) (env : Env)
    (w : World) :
  (method request = "OPTIONS" ->
     fetch clock request env w =
       ({| status := 204; headers := CORS_HEADERS; body := BodyNull |}, w)) /\
  (method request <> "GET" -> method request <> "OPTIONS" ->
     fetch clock request env w = (json (BodyError "Method not allowed") 405 [], w) /\
     status (fst (fetch clock request env w)) = 405).
Proof.
  split.
  - intros Hm. unfold fetch, route. rewrite Hm. reflexivity.
  - intros Hget Hopt. unfold fetch, route.
    destruct (String.eqb_spec (method request) "OPTIONS") as [|_]; [contradiction|].
    destruct (String.eqb_spec (method request) "GET") as [|_]; [contradiction|].
    split; reflexivity.
Qed.

Lemma C9_method_dispatch_witness :
  status (fst (fetch (P := sample_platform) sample_clock post_request (bucket_of [])
                 initialWorld)) = 405.
Proof.
  apply (proj2 (C9_method_dispatch (P := sample_platform) sample_clock post_request
                  (bucket_of []) initialWorld)); discriminate.
Defined.

(** C9 as stated fails: an [OPTIONS] request is not a [GET] request and
    is answered with 204, not 405. *)
Lemma C9_counterexample :
  method options_request <> "GET" /\
  status (fst (fetch (P := sample_platform) sample_clock options_request (bucket_of [])
                 initialWorld)) <> 405.
Proof. split; [discriminate | vm_compute; discriminate]. Qed.

(** ** SearchEngine: query validation *)

Lemma returns_bind_with {A B} (m : M A) (k : A -> M B) (R : A -> Prop) (Q : B -> Prop) :
  returns m R -> (forall a, R a -> returns (k a) Q) -> returns (bind m k) Q.
Proof.
  intros Hm Hk w. unfold bind. specialize (Hm w).
  destruct (m w) as [[a|e] w']; [apply Hk; exact Hm | exact I].
Qed.

Lemma status_json data st extra : status (json data st extra) = st.
Proof. reflexivity. Qed.

Lemma body_json data st extra : body (json data st extra) = data.
Proof. reflexivity. Qed.

Lemma blocked_status nowMs request w resp :
  blocked (fst (enforceRateLimit nowMs request w)) = Some resp -> status resp = 429.
Proof.
  unfold enforceRateLimit, start_window.
  destruct (rateLimitByClient _ !! _) as [cur|]; [|discriminate].
  destruct (window_elapsed nowMs cur); [discriminate|].
  destruct (count cur >=? _); [|discriminate].
  cbn. intros [= <-]. reflexivity.
Qed.

Lemma enforceRateLimit_trace nowMs request w :
  trace (snd (enforceRateLimit nowMs request w)) = trace w /\
  edgeCache (snd (enforceRateLimit nowMs request w)) = edgeCache w /\
  parsedSearchCache (snd (enforceRateLimit nowMs request w)) = parsedSearchCache w /\
  cachedLatestManifest (snd (enforceRateLimit nowMs request w)) = cachedLatestManifest w.
Proof.
  unfold enforceRateLimit, start_window, sweepExpiredRateLimitEntries.
  destruct (_ <? _); cbn;
    (destruct (_ !! _) as [cur|]; [destruct (window_elapsed nowMs cur);
       [|destruct (count cur >=? _)]|]); cbn; repeat split; reflexivity.
Qed.

(** The snapshot block answers 400 only to an explicit [snapshot_date]
    that is not a date. *)
Lemma resolveSnapshot_not_400 `{P : Platform} clock env request rlHeaders unavailable :
  match searchParams_get "snapshot_date" request with
  | Some d => truthy d = true -> isDateString d = true
  | None => True
  end ->
  returns (resolveSnapshot clock env request rlHeaders unavailable)
    (fun res => match res with inl r => status r <> 400 | inr _ => True end).
Proof.
  intros Hd. unfold resolveSnapshot.
  destruct (searchParams_get "snapshot_date" request) as [d|].
  - destruct (truthy d).
    + rewrite (Hd eq_refl). cbn. apply returns_ret. exact I.
    + apply returns_bind. intros [l|]; apply returns_ret; cbn; [exact I | discriminate].
  - apply returns_bind. intros [l|]; apply returns_ret; cbn; [exact I | discriminate].
Qed.

Lemma serveSkills_not_400 `{P : Platform} clock env request rlHeaders :
  isSortMode (nullish (searchParams_get "sort" request) "installs") = true ->
  match searchParams_get "snapshot_date" request with
  | Some d => truthy d = true -> isDateString d = true
  | None => True
  end ->
  returns (serveSkills clock env request rlHeaders) (fun r => status r <> 400).
Proof.
  intros Hsort Hd. unfold serveSkills, isSortMode in *.
  destruct (SortMode_of_string _) as [sortMode|]; [|discriminate].
  eapply returns_bind_with; [apply resolveSnapshot_not_400; exact Hd|].
  intros [r|[snapshotDate latestManifest]] Hr; [apply returns_ret; exact Hr|].
  eapply returns_bind_with with (R := fun early =>
    match early with Some r => status r <> 400 | None => True end).
  - destruct (_ =? _)%nat; [|apply returns_ret; exact I].
    unfold serveLeaderboardPage. apply returns_bind. intros cachedPage.
    match goal with |- returns (match ?x with _ => _ end) _ => destruct x end.
    + apply returns_ret. cbn. discriminate.
    + destruct (SortMode_eqb sortMode installs); [|apply returns_ret; exact I].
      apply returns_bind. intros sm. apply returns_bind. intros [pg|];
        [|apply returns_ret; exact I].
      destruct (_ =? _); [|apply returns_ret; exact I].
      apply returns_bind. intros summary. apply returns_ret. cbn. discriminate.
  - intros [r|] Hearly; [apply returns_ret; exact Hearly|].
    apply returns_bind. intros [index|]; apply returns_ret; cbn; discriminate.
Qed.

Lemma route_search `{P : Platform} clock request env :
  method request = "GET" -> pathname request = "/v1/search" ->
  route clock request env = rateLimited clock request (serveSearch clock env request).
Proof. intros Hm Hp. unfold route. rewrite Hm, Hp. reflexivity. Qed.

Lemma route_skills `{P : Platform} clock request env :
  method request = "GET" -> pathname request = "/v1/skills" ->
  route clock request env = rateLimited clock request (serveSkills clock env request).
Proof. intros Hm Hp. unfold route. rewrite Hm, Hp. reflexivity. Qed.

Lemma rateLimited_admitted `{P : Platform} clock request (handler : StrMap -> M Response) w :
  blocked (fst (enforceRateLimit (rateLimitNow clock) request w)) = None ->
  rateLimited clock request handler w =
    handler (rl_headers (fst (enforceRateLimit (rateLimitNow clock) request w)))
      (snd (enforceRateLimit (rateLimitNow clock) request w)).
Proof.
  intros Hb. unfold rateLimited.
  destruct (enforceRateLimit (rateLimitNow clock) request w) as [r w1]. cbn in *.
  rewrite Hb. reflexivity.
Qed.

Lemma rateLimited_status `{P : Platform} clock request (handler : StrMap -> M Response)
    (Q : Response -> Prop) :
  (forall resp, status resp = 429 -> Q resp) ->
  (forall rlHeaders, returns (handler rlHeaders) Q) ->
  returns (rateLimited clock request handler) Q.
Proof.
  intros H429 Hh w. unfold rateLimited.
  pose proof (blocked_status (rateLimitNow clock) request w) as Hb.
  destruct (enforceRateLimit (rateLimitNow clock) request w) as [r w1]. cbn in *.
  destruct (blocked r) as [resp|]; [cbn; apply H429, Hb; reflexivity | apply Hh].
Qed.

(** C8. On [/v1/search] a request that the limiter admits and whose
    trimmed query is shorter than 2 characters is answered with 400
    ["q must be at least 2 characters"], and one whose trimmed query is
    longer than 100 characters with 400 ["q must be <= 100 characters"],
    in both cases without any storage operation. On [/v1/skills] no
    query, however short, is answered with 400: only the sort mode and the
    snapshot date are validated. *)
Theorem C8_query_validation `{P : Platform} (clock : Clock) (request : Request) (env : Env)
    (w : World) :
  method request = "GET" ->
  let rawQ := requestedQuery request in
  let out := enforceRateLimit (rateLimitNow clock) request w in
  (pathname request = "/v1/search" -> blocked (fst out) = None ->
     ((String.length rawQ < 2)%nat ->
        fetch clock request env w =
          (json (BodyError "q must be at least 2 characters") 400 (rl_headers (fst out)),
           snd out)) /\
     ((100 < String.length rawQ)%nat ->
        fetch clock request env w =
          (json (BodyError "q must be <= 100 characters") 400 (rl_headers (fst out)),
           snd out)) /\
     trace (snd out) = trace w /\ edgeCache (snd out) = edgeCache w) /\
  (pathname request = "/v1/skills" ->
     isSortMode (nullish (searchParams_get "sort" request) "installs") = true ->
     match searchParams_get "snapshot_date" request with
     | Some d => truthy d = true -> isDateString d = true
     | None => True
     end ->
     status (fst (fetch clock request env w)) <> 400).
Proof.
  intros Hm rawQ out. split.
  - intros Hp Hadm. unfold fetch. rewrite (route_search clock request env Hm Hp).
    rewrite (rateLimited_admitted clock request _ w Hadm). fold out.
    unfold serveSearch. fold rawQ.
    pose proof (enforceRateLimit_trace (rateLimitNow clock) request w) as (Ht & He & _).
    repeat split; try assumption.
    + intros Hshort. apply Nat.ltb_lt in Hshort. rewrite Hshort. reflexivity.
    + intros Hlong.
      assert (Hs : (String.length rawQ <? 2)%nat = false) by (apply Nat.ltb_ge; lia).
      apply Nat.ltb_lt in Hlong. rewrite Hs, Hlong. reflexivity.
  - intros Hp Hsort Hd. unfold fetch. rewrite (route_skills clock request env Hm Hp).
    pose proof (rateLimited_status clock request (serveSkills clock env request)
                  (fun r => status r <> 400)) as Hr.
    specialize (Hr ltac:(intros resp H429; cbn; rewrite H429; discriminate)
                   (fun rl => serveSkills_not_400 clock env request rl Hsort Hd) w).
    destruct (rateLimited clock request (serveSkills clock env request) w) as [[r|e] w'];
      cbn in *; [exact Hr | discriminate].
Qed.

Lemma C8_query_validation_witness :
  (let r := fst (fetch (P := sample_platform) sample_clock
                   (sample_request "/v1/search" [("q", " a ")]) (bucket_of []) initialWorld) in
   status r = 400 /\ body r = BodyError "q must be at least 2 characters") /\
  status (fst (fetch (P := sample_platform) sample_clock
                 (sample_request "/v1/skills" [("q", "")]) (bucket_of []) initialWorld))
    <> 400.
Proof.
  split.
  - pose proof (C8_query_validation (P := sample_platform) sample_clock
                  (sample_request "/v1/search" [("q", " a ")]) (bucket_of []) initialWorld
                  eq_refl) as [Hsearch _].
    destruct (Hsearch eq_refl ltac:(vm_compute; reflexivity)) as [Hshort _].
    cbn zeta. rewrite (Hshort ltac:(vm_compute; lia)). split; reflexivity.
  - apply (C8_query_validation (P := sample_platform) sample_clock
             (sample_request "/v1/skills" [("q", "")]) (bucket_of []) initialWorld eq_refl).
    + reflexivity.
    + reflexivity.
    + exact I.
Defined.

(** Scenario E: a query of length 1 and a query of length 101. *)
Example scenario_E :
  let ask query :=
    fst (fetch (P := sample_platform) sample_clock
           (sample_request "/v1/search" [("q", query)]) (bucket_of []) initialWorld) in
  (status (ask "a") = 400 /\ body (ask "a") = BodyError "q must be at least 2 characters") /\
  (status (ask (repeat_string 101 "x")) = 400 /\
   body (ask (repeat_string 101 "x")) = BodyError "q must be <= 100 characters").
Proof. vm_compute. repeat split; reflexivity. Qed.

(** ** Sorting *)

Section Sorting.
Context {A : Type} (compare : A -> A -> Z).
Hypothesis compare_total : forall a b, precedes compare a b \/ precedes compare b a.

Lemma sort_insert_Permutation x l : Permutation (x :: l) (sort_insert compare x l).
Proof.
  induction l as [|y l IH]; cbn; [reflexivity|].
  destruct (compare x y <=? 0); [reflexivity|].
  rewrite perm_swap. apply perm_skip, IH.
Qed.

Lemma Array_sort_Permutation l : Permutation l (Array_sort compare l).
Proof.
  induction l as [|x l IH]; [reflexivity|].
  change (Array_sort compare (x :: l)) with (sort_insert compare x (Array_sort compare l)).
  rewrite <- sort_insert_Permutation. apply perm_skip, IH.
Qed.

Lemma Array_sort_length l : length (Array_sort compare l) = length l.
Proof. symmetry. apply Permutation_length, Array_sort_Permutation. Qed.

Lemma sort_insert_HdRel a x l :
  precedes compare a x -> HdRel (precedes compare) a l ->
  HdRel (precedes compare) a (sort_insert compare x l).
Proof.
  intros Hax Hal. destruct l as [|y l]; cbn; [constructor; exact Hax|].
  destruct (compare x y <=? 0); constructor; [exact Hax|].
  inversion Hal; assumption.
Qed.

Lemma sort_insert_Sorted x l :
  Sorted (precedes compare) l -> Sorted (precedes compare) (sort_insert compare x l).
Proof.
  induction l as [|y l IH]; intros Hs; cbn.
  - repeat constructor.
  - destruct (compare x y <=? 0) eqn:Hxy.
    + constructor; [exact Hs|]. constructor. unfold precedes. lia.
    + inversion Hs as [|? ? Hl Hy]; subst. constructor; [apply IH; exact Hl|].
      apply sort_insert_HdRel; [|exact Hy].
      destruct (compare_total x y) as [H|H]; [unfold precedes in H; lia | exact H].
Qed.

Lemma Array_sort_Sorted l : Sorted (precedes compare) (Array_sort compare l).
Proof.
  induction l as [|x l IH]; [constructor|].
  change (Array_sort compare (x :: l)) with (sort_insert compare x (Array_sort compare l)).
  apply sort_insert_Sorted, IH.
Qed.

(** Sorting a sorted array changes nothing; this needs no assumption
    on the comparator. *)
Lemma Array_sort_sorted_id l : Sorted (precedes compare) l -> Array_sort compare l = l.
Proof.
  induction l as [|x l IH]; intros Hs; [reflexivity|].
  change (Array_sort compare (x :: l)) with (sort_insert compare x (Array_sort compare l)).
  inversion Hs as [|? ? Hl Hx]; subst. rewrite (IH Hl).
  destruct Hx as [|y l' Hxy]; cbn; [reflexivity|].
  unfold precedes in Hxy. destruct (compare x y <=? 0) eqn:E; [reflexivity | lia].
Qed.

Lemma Array_sort_idempotent l :
  Array_sort compare (Array_sort compare l) = Array_sort compare l.
Proof. apply Array_sort_sorted_id, Array_sort_Sorted. Qed.
End Sorting.

Lemma compare_items_total `{P : Platform} `{!ConsistentCollation P} sort a b :
  precedes (compare_items sort) a b \/ precedes (compare_items sort) b a.
Proof.
  unfold precedes. destruct sort; cbn; [lia | lia | apply localeCompare_antisym].
Qed.

Lemma compare_items_trans `{P : Platform} `{!ConsistentCollation P} sort a b c :
  precedes (compare_items sort) a b -> precedes (compare_items sort) b c ->
  precedes (compare_items sort) a c.
Proof.
  unfold precedes. destruct sort; cbn; [lia | lia | apply localeCompare_trans].
Qed.

(** C6. [sortItems] is idempotent and leaves a sorted sequence unchanged;
    its result is a sorted arrangement of its argument; and in each mode
    the comparison is a total preorder: ["installs"] puts the larger
    [total_installs] first and ["weekly"] the larger [weekly_installs],
    a missing number counting as 0, and ["name"] compares the names with
    [localeCompare], ascending and transitive. *)
Theorem C6_sortItems `{P : Platform} (collation : ConsistentCollation P) (sort : SortMode)
    (items : list SearchIndexItem.t) :
  sortItems (sortItems items sort) sort = sortItems items sort /\
  (Sorted (precedes (compare_items sort)) items -> sortItems items sort = items) /\
  Sorted (precedes (compare_items sort)) (sortItems items sort) /\
  Permutation items (sortItems items sort) /\
  (forall a b, precedes (compare_items sort) a b \/ precedes (compare_items sort) b a) /\
  (forall a, precedes (compare_items sort) a a) /\
  (forall a b c,
     precedes (compare_items sort) a b -> precedes (compare_items sort) b c ->
     precedes (compare_items sort) a c) /\
  (forall a b,
     (precedes (compare_items installs) a b <->
        nullish (SearchIndexItem.total_installs b) 0
          <= nullish (SearchIndexItem.total_installs a) 0) /\
     (precedes (compare_items weekly) a b <->
        nullish (SearchIndexItem.weekly_installs b) 0
          <= nullish (SearchIndexItem.weekly_installs a) 0) /\
     (precedes (compare_items name) a b <->
        localeCompare (SearchIndexItem.name a) (SearchIndexItem.name b) <= 0)).
Proof.
  pose proof (compare_items_total sort) as Htotal.
  repeat split.
  - apply Array_sort_idempotent, Htotal.
  - apply Array_sort_sorted_id.
  - apply Array_sort_Sorted, Htotal.
  - apply Array_sort_Permutation.
  - exact Htotal.
  - intros a. destruct (Htotal a a); assumption.
  - apply compare_items_trans.
  - unfold precedes; cbn; lia.
  - unfold precedes; cbn; lia.
  - unfold precedes; cbn; lia.
  - unfold precedes; cbn; lia.
  - unfold precedes; cbn; lia.
  - unfold precedes; cbn; lia.
Qed.

(** The code-unit comparison of the sample platform is consistent. *)
Lemma String_compare_refl s : String.compare s s = Eq.
Proof.
  induction s as [|c s IH]; cbn; [reflexivity|].
  unfold Ascii.compare. rewrite N.compare_refl. exact IH.
Qed.

Lemma String_compare_le_trans a : forall b c,
  String.compare a b <> Gt -> String.compare b c <> Gt -> String.compare a c <> Gt.
Proof.
  induction a as [|x a IH]; intros [|y b] [|z c]; cbn; try congruence.
  unfold Ascii.compare.
  destruct (N.compare_spec (N_of_ascii x) (N_of_ascii y)) as [Hxy|Hxy|Hxy];
    destruct (N.compare_spec (N_of_ascii y) (N_of_ascii z)) as [Hyz|Hyz|Hyz];
    try congruence; intros Hab Hbc.
  - rewrite Hxy, Hyz, N.compare_refl. eapply IH; eassumption.
  - rewrite Hxy. apply N.compare_lt_iff in Hyz. rewrite Hyz. discriminate.
  - rewrite <- Hyz. apply N.compare_lt_iff in Hxy. rewrite Hxy. discriminate.
  - assert (Hxz : (N_of_ascii x < N_of_ascii z)%N) by lia.
    apply N.compare_lt_iff in Hxz. rewrite Hxz. discriminate.
Qed.

Lemma sample_collation : ConsistentCollation sample_platform.
Proof.
  split; cbn; unfold compare_code_units.
  - intros a b. rewrite (String.compare_antisym b a).
    destruct (String.compare a b); cbn; lia.
  - intros a b c Hab Hbc.
    pose proof (String_compare_le_trans a b c) as Ht.
    destruct (String.compare a b), (String.compare b c), (String.compare a c);
      try lia; exfalso; apply Ht; congruence.
Qed.

Lemma C6_sortItems_witness :
  sortItems (P := sample_platform) (sortItems (P := sample_platform) [alpha; beta] name) name
    = sortItems (P := sample_platform) [alpha; beta] name /\
  sortItems (P := sample_platform) [alpha; beta] installs = [alpha; beta].
Proof.
  split.
  - exact (proj1 (C6_sortItems sample_collation name [alpha; beta])).
  - apply (proj1 (proj2 (C6_sortItems sample_collation installs [alpha; beta]))).
    repeat constructor. vm_compute. discriminate.
Defined.

(** The three modes on the sample index. *)
Example sortItems_modes :
  sortItems (P := sample_platform) [alpha; beta] installs = [alpha; beta] /\
  sortItems (P := sample_platform) [alpha; beta] weekly = [beta; alpha] /\
  sortItems (P := sample_platform) [beta; alpha] name = [alpha; beta].
Proof. repeat split. Qed.

(** ** Pagination *)

Lemma firstn_add_skipn {I} (a b : nat) (l : list I) :
  firstn (a + b) l = (firstn a l ++ firstn b (skipn a l))%list.
Proof.
  revert l. induction a as [|a IH]; intros l; [reflexivity|].
  destruct l as [|x l]; cbn; [destruct b; reflexivity|].
  f_equal. apply IH.
Qed.

Lemma Array_slice_page {I} (xs : list I) (pageSize : Z) (k : nat) :
  1 <= pageSize ->
  Array_slice xs (Z.of_nat k * pageSize) (Z.of_nat k * pageSize + pageSize)
  = firstn (Z.to_nat pageSize) (skipn (k * Z.to_nat pageSize) xs).
Proof.
  intros Hps. unfold Array_slice. f_equal; [f_equal; lia|]. f_equal.
  rewrite Z2Nat.inj_mul by lia. rewrite Nat2Z.id. reflexivity.
Qed.

(** Pages [1] to [n] laid end to end are the first [n * pageSize] items:
    no item is lost and none occurs twice. *)
Lemma pages_upto_firstn {I} (xs : list I) (pageSize : Z) (n : nat) :
  1 <= pageSize -> pages_upto xs pageSize n = firstn (n * Z.to_nat pageSize) xs.
Proof.
  intros Hps. unfold pages_upto. induction n as [|n IH]; [reflexivity|].
  rewrite seq_S, map_app, concat_app, IH. cbn [map concat Nat.add].
  rewrite app_nil_r.
  replace (Z.of_nat n + 1 - 1) with (Z.of_nat n) by lia.
  rewrite Array_slice_page by exact Hps.
  replace (S n * Z.to_nat pageSize)%nat with (n * Z.to_nat pageSize + Z.to_nat pageSize)%nat
    by lia.
  symmetry. apply firstn_add_skipn.
Qed.

Lemma pages_upto_all {I} (xs : list I) (pageSize : Z) (n : nat) :
  1 <= pageSize -> (length xs <= n * Z.to_nat pageSize)%nat ->
  pages_upto xs pageSize n = xs.
Proof.
  intros Hps Hn. rewrite pages_upto_firstn by exact Hps. apply firstn_all2. exact Hn.
Qed.

Lemma requestedPage_pos `{P : Platform} request : 1 <= requestedPage request.
Proof. unfold requestedPage, Math_max. lia. Qed.

Lemma requestedPageSize_range `{P : Platform} cap fallback request :
  1 <= cap -> 1 <= requestedPageSize cap fallback request <= cap.
Proof. intros Hc. unfold requestedPageSize, Math_max, Math_min. lia. Qed.

Lemma indexedPage_pagination `{P : Platform} request cap fallback doc filtered sortMode :
  1 <= cap ->
  pagination_of request cap fallback (sortItems filtered sortMode)
    (indexedPage doc filtered sortMode (requestedPage request)
       (requestedPageSize cap fallback request)).
Proof.
  intros Hc. unfold pagination_of, indexedPage. cbn.
  pose proof (requestedPage_pos request).
  pose proof (requestedPageSize_range cap fallback request Hc).
  repeat split; lia.
Qed.

Lemma blocked_body nowMs request w resp :
  blocked (fst (enforceRateLimit nowMs request w)) = Some resp ->
  exists n, body resp = BodyTooManyRequests n.
Proof.
  unfold enforceRateLimit, start_window.
  destruct (rateLimitByClient _ !! _) as [cur|]; [|discriminate].
  destruct (window_elapsed nowMs cur); [discriminate|].
  destruct (count cur >=? _); [|discriminate].
  cbn. intros [= <-]. eexists. reflexivity.
Qed.

(** No [BodySearch] in an error answer. *)
Ltac not_a_search := intros ? ? Hbody; cbn in Hbody; discriminate Hbody.

Lemma resolveSnapshot_errors `{P : Platform} clock env request rlHeaders unavailable :
  returns (resolveSnapshot clock env request rlHeaders unavailable)
    (fun res => match res with
                | inl r => exists e, body r = BodyError e
                | inr _ => True
                end).
Proof.
  unfold resolveSnapshot.
  destruct (searchParams_get "snapshot_date" request) as [d|].
  - destruct (truthy d).
    + destruct (negb (isDateString d)); apply returns_ret; [eexists; reflexivity | exact I].
    + apply returns_bind. intros [l|]; apply returns_ret; [exact I | eexists; reflexivity].
  - apply returns_bind. intros [l|]; apply returns_ret; [exact I | eexists; reflexivity].
Qed.

Lemma searchFallback_no_search `{P : Platform} env request rlHeaders snapshotDate query
    sortParam page pageSize :
  returns (searchFallback env request rlHeaders snapshotDate query sortParam page pageSize)
    (fun r => forall payload s, body r <> BodySearch payload s).
Proof.
  unfold searchFallback. apply returns_bind. intros [lookup|].
  - destruct (SnapshotSkillLookupDocument.entries lookup); [|apply returns_throw].
    apply returns_bind. intros sm. apply returns_bind. intros items.
    apply returns_ret. intros payload s. cbn. discriminate.
  - apply returns_ret. intros payload s. cbn. discriminate.
Qed.

Lemma serveSearch_answer `{P : Platform} clock env request rlHeaders :
  returns (serveSearch clock env request rlHeaders) (search_answer request).
Proof.
  unfold serveSearch.
  destruct (_ <? 2)%nat; [apply returns_ret; not_a_search|].
  destruct (100 <? _)%nat; [apply returns_ret; not_a_search|].
  destruct (SortMode_of_string _) as [sortMode|] eqn:Hsort;
    [|apply returns_ret; not_a_search].
  eapply returns_bind_with; [apply resolveSnapshot_errors|].
  intros [r|[snapshotDate latest]] Hr.
  - apply returns_ret. destruct Hr as [e He]. intros payload s Hb. congruence.
  - apply returns_bind. intros [index|].
    + apply returns_ret. intros payload s Hb. cbn in Hb. injection Hb as <- <-.
      exists index, sortMode. split; [exact Hsort|]. cbn zeta. split; [|reflexivity].
      apply indexedPage_pagination. lia.
    + intros w. pose proof (searchFallback_no_search env request rlHeaders snapshotDate
                              (toLowerCase (requestedQuery request)) sortMode
                              (requestedPage request) (requestedPageSize 50 12 request) w) as H.
      destruct (fst _); [|exact I]. intros payload s Hb. exfalso. exact (H payload s Hb).
Qed.

Lemma serveLeaderboardPage_no_search `{P : Platform} env request rlHeaders snapshotDate
    latestManifest sortParam page pageSize :
  returns (serveLeaderboardPage env request rlHeaders snapshotDate latestManifest sortParam
             page pageSize)
    (fun early => match early with
                  | Some r => forall payload s, body r <> BodySearch payload s
                  | None => True
                  end).
Proof.
  unfold serveLeaderboardPage. apply returns_bind. intros cachedPage.
  match goal with |- returns (match ?x with _ => _ end) _ => destruct x end.
  - apply returns_ret. intros payload s. cbn. discriminate.
  - destruct (SortMode_eqb sortParam installs); [|apply returns_ret; exact I].
    apply returns_bind. intros sm. apply returns_bind. intros [pg|];
      [|apply returns_ret; exact I].
    destruct (_ =? _); [|apply returns_ret; exact I].
    apply returns_bind. intros summary. apply returns_ret.
    intros payload s. cbn. discriminate.
Qed.

Lemma truthy_false s : truthy s = false -> s = "".
Proof. unfold truthy. destruct (String.eqb_spec s ""); [trivial | discriminate]. Qed.

Lemma serveSkills_answer `{P : Platform} clock env request rlHeaders :
  returns (serveSkills clock env request rlHeaders) (skills_answer request).
Proof.
  unfold serveSkills.
  destruct (SortMode_of_string _) as [sortMode|] eqn:Hsort;
    [|apply returns_ret; not_a_search].
  eapply returns_bind_with; [apply resolveSnapshot_errors|].
  intros [r|[snapshotDate latest]] Hr.
  { apply returns_ret. destruct Hr as [e He]. intros payload s Hb. congruence. }
  eapply returns_bind_with.
  { instantiate (1 := fun early => match early with
                                   | Some r => forall payload s, body r <> BodySearch payload s
                                   | None => True
                                   end).
    destruct (_ =? 0)%nat; [apply serveLeaderboardPage_no_search | apply returns_ret; exact I]. }
  intros [r|] Hearly.
  { apply returns_ret. intros payload s Hb. exfalso. exact (Hearly payload s Hb). }
  apply returns_bind. intros [index|]; [|apply returns_ret; not_a_search].
  apply returns_ret. intros payload s Hb. rewrite body_json in Hb. injection Hb as <- <-.
  exists index, sortMode, latest. split; [exact Hsort|]. lazy zeta.
  set (query := toLowerCase (requestedQuery request)).
  set (filtered := if truthy query then _ else _).
  pose proof (indexedPage_pagination request 200 200 index filtered sortMode ltac:(lia))
    as Hpag.
  set (payload0 := indexedPage index filtered sortMode _ _) in *.
  assert (Hlen0 : sr_total payload0 = Z.of_nat (length (sortItems filtered sortMode)))
    by reflexivity.
  change (Array_slice (sortItems filtered sortMode) _ _) with (sr_items payload0).
  clearbody payload0.
  destruct (manifest_total_skills latest) as [total|]; [|split; [exact Hpag | left; exact Hlen0]].
  destruct (negb (truthy query)) eqn:Hq; cbn [andb];
    [|split; [exact Hpag | left; exact Hlen0]].
  destruct (length (sr_items payload0) =? 0)%nat eqn:Hlen; cbn [andb];
    [|split; [exact Hpag | left; exact Hlen0]].
  destruct (total =? 0) eqn:Htot; cbn [negb];
    [split; [exact Hpag | left; exact Hlen0]|].
  split; [exact Hpag|]. right. cbn.
  apply negb_true_iff, truthy_false in Hq. apply Nat.eqb_eq in Hlen.
  repeat split; try assumption; try lia.
  destruct (sr_items payload0); [reflexivity | discriminate].
Qed.

Lemma fetch_answer `{P : Platform} clock request (handler : StrMap -> M Response)
    (Q : Response -> Prop) env w :
  route clock request env = rateLimited clock request handler ->
  (forall rlHeaders, returns (handler rlHeaders) Q) ->
  (forall r n, body r = BodyTooManyRequests n -> Q r) ->
  (forall r e, body r = BodyError e -> Q r) ->
  Q (fst (fetch clock request env w)).
Proof.
  intros Hroute Hh H429 Herr. unfold fetch. rewrite Hroute. unfold rateLimited.
  pose proof (blocked_body (rateLimitNow clock) request w) as Hb.
  destruct (enforceRateLimit (rateLimitNow clock) request w) as [r w1]. cbn in Hb.
  destruct (blocked r) as [resp|].
  - cbn. destruct (Hb resp eq_refl) as [n Hn]. exact (H429 _ _ Hn).
  - specialize (Hh (rl_headers r) w1).
    destruct (handler (rl_headers r) w1) as [[resp|e] w2]; cbn in *;
      [exact Hh | eapply Herr; reflexivity].
Qed.

Lemma indexed_pages_upto `{P : Platform} doc filtered sort pageSize n :
  indexed_pages doc filtered sort pageSize n = pages_upto (sortItems filtered sort) pageSize n.
Proof. reflexivity. Qed.

Lemma serveSearch_indexed `{P : Platform} clock env request rlHeaders w r w' payload s :
  serveSearch clock env request rlHeaders w = (Ok r, w') ->
  body r = BodySearch payload s ->
  s = None /\ indexed_search_run clock env request rlHeaders w payload w'.
Proof.
  unfold serveSearch. intros Hrun Hbody.
  destruct (_ <? 2)%nat;
    [injection Hrun as <- <-; rewrite body_json in Hbody; discriminate Hbody|].
  destruct (100 <? _)%nat;
    [injection Hrun as <- <-; rewrite body_json in Hbody; discriminate Hbody|].
  destruct (SortMode_of_string _) as [sortMode|] eqn:Hsort;
    [|injection Hrun as <- <-; rewrite body_json in Hbody; discriminate Hbody].
  unfold bind at 1 in Hrun.
  pose proof (resolveSnapshot_errors clock env request rlHeaders "Search index unavailable" w)
    as Herr.
  destruct (resolveSnapshot clock env request rlHeaders "Search index unavailable" w)
    as [[[resp|[snapshotDate latest]]|e] w1] eqn:Hres; [| |discriminate Hrun].
  { injection Hrun as <- <-. cbn in Herr. destruct Herr as [e He]. congruence. }
  unfold bind at 1 in Hrun.
  pose proof (searchFallback_no_search env request rlHeaders snapshotDate
                (toLowerCase (requestedQuery request)) sortMode (requestedPage request)
                (requestedPageSize 50 12 request)) as Hfb.
  destruct (loadSearchIndex (searchIndexNow clock) env snapshotDate request w1)
    as [[[index|]|e] w2] eqn:Hload; [| |discriminate Hrun].
  - injection Hrun as <- <-. rewrite body_json in Hbody. injection Hbody as <- <-.
    split; [reflexivity|].
    exists sortMode, snapshotDate, latest, w1, index.
    pose proof (requestedPage_pos request). pose proof (requestedPageSize_range 50 12 request).
    repeat split; try reflexivity; try assumption; lia.
  - specialize (Hfb w2). rewrite Hrun in Hfb. cbn in Hfb. exfalso. exact (Hfb _ _ Hbody).
Qed.

Lemma serveSkills_indexed `{P : Platform} clock env request rlHeaders w r w' payload s :
  serveSkills clock env request rlHeaders w = (Ok r, w') ->
  body r = BodySearch payload s ->
  indexed_skills_run clock env request rlHeaders w payload s w'.
Proof.
  unfold serveSkills. intros Hrun Hbody.
  destruct (SortMode_of_string _) as [sortMode|] eqn:Hsort;
    [|injection Hrun as <- <-; rewrite body_json in Hbody; discriminate Hbody].
  unfold bind at 1 in Hrun.
  pose proof (resolveSnapshot_errors clock env request rlHeaders "Leaderboard unavailable" w)
    as Herr.
  destruct (resolveSnapshot clock env request rlHeaders "Leaderboard unavailable" w)
    as [[[resp|[snapshotDate latest]]|e] w1] eqn:Hres; [| |discriminate Hrun].
  { injection Hrun as <- <-. cbn in Herr. destruct Herr as [e He]. congruence. }
  unfold bind at 1 in Hrun.
  assert (Hearly : exists early w2,
             (if (String.length (requestedQuery request) =? 0)%nat
              then serveLeaderboardPage env request rlHeaders snapshotDate latest sortMode
                     (requestedPage request) (requestedPageSize 200 200 request)
              else ret None) w1 = (Ok early, w2) /\
             match early with
             | Some response => (Ok response, w2) = (Ok r, w')
             | None =>
                 bind (loadSearchIndex (searchIndexNow clock) env snapshotDate request)
                   (fun index =>
                      match index with
                      | None => ret (json (BodyError "Leaderboard unavailable") 503 rlHeaders)
                      | Some index =>
                          let query := toLowerCase (requestedQuery request) in
                          let filtered :=
                            if truthy query
                            then filterItems query (SearchIndexDocument.items index)
                            else SearchIndexDocument.items index in
                          let payload :=
                            indexedPage index filtered sortMode (requestedPage request)
                              (requestedPageSize 200 200 request) in
                          let payload :=
                            match manifest_total_skills latest with
                            | Some total =>
                                if negb (truthy query)
                                   && (length (sr_items payload) =? 0)%nat
                                   && negb (total =? 0)
                                then with_total total payload
                                else payload
                            | None => payload
                            end in
                          ret (json (BodySearch payload (Some sortMode)) 200
                                 (search_cache_headers rlHeaders))
                      end) w2 = (Ok r, w')
             end).
  { destruct ((if (String.length (requestedQuery request) =? 0)%nat
               then serveLeaderboardPage env request rlHeaders snapshotDate latest sortMode
                      (requestedPage request) (requestedPageSize 200 200 request)
               else ret None) w1) as [[early|e] w2]; [|discriminate Hrun].
    exists early, w2. split; [reflexivity|]. destruct early; exact Hrun. }
  clear Hrun. destruct Hearly as (early & w2 & Hearly & Hrun).
  destruct early as [response|].
  { injection Hrun as -> ->. exfalso.
    destruct (String.length (requestedQuery request) =? 0)%nat;
      [|discriminate Hearly].
    pose proof (serveLeaderboardPage_no_search env request rlHeaders snapshotDate latest
                  sortMode (requestedPage request) (requestedPageSize 200 200 request) w1)
      as Hno.
    rewrite Hearly in Hno. exact (Hno _ _ Hbody). }
  unfold bind at 1 in Hrun.
  destruct (loadSearchIndex (searchIndexNow clock) env snapshotDate request w2)
    as [[[index|]|e] w3] eqn:Hload; [| |discriminate Hrun];
    [|injection Hrun as <- <-; rewrite body_json in Hbody; discriminate Hbody].
  injection Hrun as <- <-. rewrite body_json in Hbody. injection Hbody as <- <-.
  exists sortMode, snapshotDate, latest, w1, w2, index.
  pose proof (requestedPage_pos request).
  pose proof (requestedPageSize_range 200 200 request ltac:(lia)).
  split; [exact Hsort|]. split; [reflexivity|]. split; [exact Hres|].
  split.
  { destruct (String.length (requestedQuery request) =? 0)%nat;
      [exact Hearly | injection Hearly as <-; reflexivity]. }
  split; [exact Hload|]. split; [assumption|]. split; [assumption|].
  lazy zeta.
  set (query := toLowerCase (requestedQuery request)).
  set (filtered := if truthy query then _ else _).
  set (base := indexedPage index filtered sortMode _ _).
  assert (Hbase : sr_total base = Z.of_nat (length (sortItems filtered sortMode)))
    by reflexivity.
  change (Array_slice (sortItems filtered sortMode)
            ((requestedPage request - 1) * requestedPageSize 200 200 request)
            ((requestedPage request - 1) * requestedPageSize 200 200 request
             + requestedPageSize 200 200 request))
    with (sr_items base).
  destruct (manifest_total_skills latest) as [total|] eqn:Htotal; cbv beta iota.
  - destruct (negb (truthy query) && (length (sr_items base) =? 0)%nat && negb (total =? 0))
      eqn:Hguard.
    + split; [reflexivity|]. left. exists total. split; [|reflexivity].
      apply andb_true_iff in Hguard as [Hguard Hnz].
      apply andb_true_iff in Hguard as [Hq Hlen].
      apply negb_true_iff in Hq, Hnz. apply truthy_false in Hq.
      apply Nat.eqb_eq in Hlen. apply Z.eqb_neq in Hnz.
      repeat split; try assumption.
      destruct (sr_items base); [reflexivity | discriminate Hlen].
    + split; [destruct base; reflexivity|]. right. split; [|exact Hbase].
      intros t (Hq & Hitems & Ht & Hnz). rewrite Htotal in Ht. injection Ht as ->.
      rewrite Hq, Hitems in Hguard. cbn in Hguard.
      apply negb_false_iff, Z.eqb_eq in Hguard. contradiction.
  - split; [destruct base; reflexivity|]. right. split; [|exact Hbase].
    intros t (_ & _ & Ht & _). rewrite Htotal in Ht. discriminate Ht.
Qed.

Lemma fetch_rateLimited_body `{P : Platform} clock request env
    (handler : StrMap -> M Response) w payload s :
  route clock request env = rateLimited clock request handler ->
  body (fst (fetch clock request env w)) = BodySearch payload s ->
  let limited := enforceRateLimit (rateLimitNow clock) request w in
  blocked (fst limited) = None /\
  handler (rl_headers (fst limited)) (snd limited)
  = (Ok (fst (fetch clock request env w)), snd (fetch clock request env w)).
Proof.
  intros Hroute. unfold fetch. rewrite Hroute. unfold rateLimited.
  pose proof (blocked_body (rateLimitNow clock) request w) as Hb.
  destruct (enforceRateLimit (rateLimitNow clock) request w) as [lim w1]. cbn [fst snd] in *.
  destruct (blocked lim) as [resp|].
  - cbn [fst]. intros Hbody. destruct (Hb resp eq_refl) as [n Hn]. congruence.
  - destruct (handler (rl_headers lim) w1) as [[resp|e] w2]; cbn [fst snd].
    + intros _. split; reflexivity.
    + rewrite body_json. intros Hbody. discriminate Hbody.
Qed.

(** C7 as amended. The pages of the indexed path, laid end to end,
    reproduce the filtered and sorted list with nothing lost and nothing
    repeated. Every indexed answer of [/v1/search] is the requested page
    [[(page-1)*page_size, (page-1)*page_size + page_size)] of the filtered
    and sorted items of the very index that the request loaded for the
    snapshot it resolved, with their number as [total]. So is every
    indexed answer of [/v1/skills], except that [total] is the
    [total_skills] of the manifest that the request resolved exactly when
    the query is empty, the page is empty and that count is not 0. *)
Theorem C7_pagination `{P : Platform} (clock : Clock) (request : Request) (env : Env)
    (w : World) :
  method request = "GET" ->
  let limited := enforceRateLimit (rateLimitNow clock) request w in
  let out := fetch clock request env w in
  (forall doc filtered sort (pageSize : Z) (n : nat),
     1 <= pageSize ->
     indexed_pages doc filtered sort pageSize n
     = firstn (n * Z.to_nat pageSize) (sortItems filtered sort) /\
     ((length (sortItems filtered sort) <= n * Z.to_nat pageSize)%nat ->
      indexed_pages doc filtered sort pageSize n = sortItems filtered sort)) /\
  (pathname request = "/v1/search" ->
   forall payload sort, body (fst out) = BodySearch payload sort ->
     blocked (fst limited) = None /\ sort = None /\
     indexed_search_run clock env request (rl_headers (fst limited)) (snd limited)
       payload (snd out)) /\
  (pathname request = "/v1/skills" ->
   forall payload sort, body (fst out) = BodySearch payload sort ->
     blocked (fst limited) = None /\
     indexed_skills_run clock env request (rl_headers (fst limited)) (snd limited)
       payload sort (snd out)).
Proof.
  intros Hm limited out. subst limited out. split; [|split].
  - intros doc filtered sort pageSize n Hps. rewrite indexed_pages_upto. split.
    + apply pages_upto_firstn. exact Hps.
    + intros Hn. apply pages_upto_all; assumption.
  - intros Hp payload sort Hbody.
    destruct (fetch_rateLimited_body clock request env (serveSearch clock env request) w
                payload sort (route_search clock request env Hm Hp) Hbody) as [Hadm Hrun].
    split; [exact Hadm|]. exact (serveSearch_indexed _ _ _ _ _ _ _ _ _ Hrun Hbody).
  - intros Hp payload sort Hbody.
    destruct (fetch_rateLimited_body clock request env (serveSkills clock env request) w
                payload sort (route_skills clock request env Hm Hp) Hbody) as [Hadm Hrun].
    split; [exact Hadm|]. exact (serveSkills_indexed _ _ _ _ _ _ _ _ _ Hrun Hbody).
Qed.

Lemma C7_pagination_witness :
  let limited := enforceRateLimit 1000 scenario_A_request initialWorld in
  let out := fetch (P := sample_platform) sample_clock scenario_A_request
               (indexed_env manifest_text) initialWorld in
  let doc := {| SearchIndexDocument.snapshot_date := sample_date;
                SearchIndexDocument.items := [alpha; beta] |} in
  indexed_search_run (P := sample_platform) sample_clock (indexed_env manifest_text)
    scenario_A_request (rl_headers (fst limited)) (snd limited)
    {| sr_items := [beta]; sr_page := 1; sr_page_size := 1; sr_total := 2;
       sr_snapshot_date := sample_date |}
    (snd out) /\
  indexed_pages (P := sample_platform) doc [alpha; beta] weekly 1 2 = [beta; alpha].
Proof.
  destruct (C7_pagination (P := sample_platform) sample_clock scenario_A_request
              (indexed_env manifest_text) initialWorld eq_refl) as (Hpages & Hsearch & _).
  cbn zeta. split.
  - refine (proj2 (proj2 (Hsearch eq_refl _ None _))). vm_compute. reflexivity.
  - rewrite (proj2 (Hpages _ [alpha; beta] weekly 1 2%nat ltac:(lia)) ltac:(vm_compute; lia)).
    reflexivity.
Defined.

(** Scenario A: one item, the match with the most weekly installs, and
    the number of matches as total. *)
Example scenario_A :
  let r := fst (fetch (P := sample_platform) sample_clock scenario_A_request
                  (indexed_env manifest_text) initialWorld) in
  status r = 200 /\
  body r = BodySearch {| sr_items := [beta]; sr_page := 1; sr_page_size := 1;
                         sr_total := 2; sr_snapshot_date := sample_date |} None.
Proof. vm_compute. split; reflexivity. Qed.

(** C7 as stated fails on [/v1/skills]: with an empty query, a page
    beyond the two items of the index and a manifest that counts 5 skills,
    the answer has no items and [total] 5, not the length 2 of the sorted
    list. *)
Lemma C7_counterexample :
  let r := fst (fetch (P := sample_platform) sample_clock beyond_request
                  (indexed_env manifest_counts_text) initialWorld) in
  body r = BodySearch {| sr_items := []; sr_page := 2; sr_page_size := 50;
                         sr_total := 5; sr_snapshot_date := sample_date |} (Some installs) /\
  length (sortItems (P := sample_platform) [alpha; beta] installs) = 2%nat /\
  5 <> Z.of_nat (length (sortItems (P := sample_platform) [alpha; beta] installs)).
Proof. vm_compute. repeat split; discriminate. Qed.

(** ** FallbackSynthesizer: ranks *)









(** ** FallbackSynthesizer: missing artifacts *)

(** An object that neither the edge cache nor the bucket holds loads as
    [null]; nothing is parsed, so nothing can throw. *)
Lemma loadJsonObjectWithCache_absent {T} (parse : string -> option T) env bucket key request
    cacheSuffix w :
  SKILLSIGHT_DATA env = Some bucket ->
  edgeCache w !! cacheRequest request cacheSuffix = None ->
  bucket !! key = None ->
  fst (loadJsonObjectWithCache parse env key request cacheSuffix w) = Ok None.
Proof.
  intros Hb Hc Hk. unfold loadJsonObjectWithCache, loadJsonTextWithCache, bind.
  rewrite Hb. unfold cache_match, bucket_get, bind, emit, ret. cbn. rewrite Hc. cbn.
  rewrite Hk. reflexivity.
Qed.

Lemma loadJsonObjectWithCache_unbound {T} (parse : string -> option T) env key request
    cacheSuffix w :
  SKILLSIGHT_DATA env = None ->
  loadJsonObjectWithCache parse env key request cacheSuffix w = (Ok None, w).
Proof.
  intros Hb. unfold loadJsonObjectWithCache, loadJsonTextWithCache, bind. rewrite Hb.
  reflexivity.
Qed.

Lemma buildSnapshotSkillRecord_no_entry `{P : Platform} env snapshotDate skillId request
    w lookup w1 :
  loadSnapshotSkillLookup env snapshotDate request w = (Ok lookup, w1) ->
  lookup_entry lookup skillId = None ->
  fst (buildSnapshotSkillRecord env snapshotDate skillId request w) = Ok None.
Proof.
  intros Hlookup Hentry. unfold buildSnapshotSkillRecord.
  destruct (split "/" skillId) as [|owner [|repo [|leaf [|]]]]; try reflexivity.
  destruct (_ || _); [reflexivity|].
  rewrite (bind_Ok _ _ _ _ _ Hlookup), Hentry. reflexivity.
Qed.

Lemma buildSnapshotSkillRecord_no_row `{P : Platform} env snapshotDate skillId request
    w lookup w1 entry page w2 :
  loadSnapshotSkillLookup env snapshotDate request w = (Ok lookup, w1) ->
  lookup_entry lookup skillId = Some entry ->
  loadSnapshotSkillsPage env snapshotDate (SnapshotSkillLookup.page entry) request w1
    = (Ok page, w2) ->
  page_row page (SnapshotSkillLookup.index entry) = None ->
  fst (buildSnapshotSkillRecord env snapshotDate skillId request w) = Ok None.
Proof.
  intros Hlookup Hentry Hpage Hrow. unfold buildSnapshotSkillRecord.
  destruct (split "/" skillId) as [|owner [|repo [|leaf [|]]]]; try reflexivity.
  destruct (_ || _); [reflexivity|].
  rewrite (bind_Ok _ _ _ _ _ Hlookup), Hentry.
  rewrite (bind_Ok _ _ _ _ _ Hpage), Hrow. reflexivity.
Qed.

Lemma buildSnapshotMetricsResponse_no_entry `{P : Platform} env snapshotDate skillId request
    w lookup w1 :
  loadSnapshotSkillLookup env snapshotDate request w = (Ok lookup, w1) ->
  lookup_entry lookup skillId = None ->
  buildSnapshotMetricsResponse env snapshotDate skillId request w = (Ok None, w1).
Proof.
  intros Hlookup Hentry. unfold buildSnapshotMetricsResponse.
  rewrite (bind_Ok _ _ _ _ _ Hlookup), Hentry. reflexivity.
Qed.

Lemma buildSnapshotMetricsResponse_no_row `{P : Platform} env snapshotDate skillId request
    w lookup w1 entry page w2 :
  loadSnapshotSkillLookup env snapshotDate request w = (Ok lookup, w1) ->
  lookup_entry lookup skillId = Some entry ->
  loadSnapshotSkillsPage env snapshotDate (SnapshotSkillLookup.page entry) request w1
    = (Ok page, w2) ->
  page_row page (SnapshotSkillLookup.index entry) = None ->
  buildSnapshotMetricsResponse env snapshotDate skillId request w = (Ok None, w2).
Proof.
  intros Hlookup Hentry Hpage Hrow. unfold buildSnapshotMetricsResponse.
  rewrite (bind_Ok _ _ _ _ _ Hlookup), Hentry.
  rewrite (bind_Ok _ _ _ _ _ Hpage), Hrow. reflexivity.
Qed.

(** C5. Skill-detail and metrics synthesis return [null], and do not
    throw, when the lookup document is absent or has no entry for the id,
    and when the referenced page is absent or has no row at the
    referenced index. An artifact that is absent from the edge cache and
    from the bucket, or a missing bucket binding, loads as [null]. *)
Theorem C5_missing_artifacts `{P : Platform} (env : Env) (snapshotDate skillId : string)
    (request : Request) (w : World) :
  (forall lookup w1,
     loadSnapshotSkillLookup env snapshotDate request w = (Ok lookup, w1) ->
     lookup_entry lookup skillId = None ->
     fst (buildSnapshotSkillRecord env snapshotDate skillId request w) = Ok None /\
     fst (buildSnapshotMetricsResponse env snapshotDate skillId request w) = Ok None) /\
  (forall lookup w1 entry page w2,
     loadSnapshotSkillLookup env snapshotDate request w = (Ok lookup, w1) ->
     lookup_entry lookup skillId = Some entry ->
     loadSnapshotSkillsPage env snapshotDate (SnapshotSkillLookup.page entry) request w1
       = (Ok page, w2) ->
     page_row page (SnapshotSkillLookup.index entry) = None ->
     fst (buildSnapshotSkillRecord env snapshotDate skillId request w) = Ok None /\
     fst (buildSnapshotMetricsResponse env snapshotDate skillId request w) = Ok None) /\
  lookup_entry None skillId = None /\
  (forall index, page_row None index = None) /\
  (forall bucket,
     SKILLSIGHT_DATA env = Some bucket ->
     (edgeCache w !! cacheRequest request ("snapshot-skill-lookup/" ++ snapshotDate)%string = None ->
      bucket !! SNAPSHOT_SKILL_LOOKUP_KEY snapshotDate = None ->
      fst (loadSnapshotSkillLookup env snapshotDate request w) = Ok None) /\
     (forall page,
        edgeCache w !! cacheRequest request
                         ("snapshot-skills-page/" ++ snapshotDate ++ "/" ++ String_of page)%string
          = None ->
        bucket !! SNAPSHOT_SKILLS_PAGE_KEY snapshotDate page = None ->
        fst (loadSnapshotSkillsPage env snapshotDate page request w) = Ok None)) /\
  (SKILLSIGHT_DATA env = None ->
     fst (buildSnapshotSkillRecord env snapshotDate skillId request w) = Ok None /\
     fst (buildSnapshotMetricsResponse env snapshotDate skillId request w) = Ok None).
Proof.
  split; [|split; [|split; [|split; [|split]]]].
  - intros lookup w1 Hlookup Hentry. split.
    + eapply buildSnapshotSkillRecord_no_entry; eassumption.
    + erewrite buildSnapshotMetricsResponse_no_entry by eassumption. reflexivity.
  - intros lookup w1 entry page w2 Hlookup Hentry Hpage Hrow. split.
    + eapply buildSnapshotSkillRecord_no_row; eassumption.
    + erewrite buildSnapshotMetricsResponse_no_row by eassumption. reflexivity.
  - reflexivity.
  - reflexivity.
  - intros bucket Hb. split.
    + intros Hc Hk. eapply loadJsonObjectWithCache_absent; eassumption.
    + intros page Hc Hk. eapply loadJsonObjectWithCache_absent; eassumption.
  - intros Hb.
    assert (Hl : loadSnapshotSkillLookup env snapshotDate request w = (Ok None, w))
      by (apply loadJsonObjectWithCache_unbound; exact Hb).
    split.
    + eapply buildSnapshotSkillRecord_no_entry; [exact Hl | reflexivity].
    + erewrite buildSnapshotMetricsResponse_no_entry; [reflexivity | exact Hl | reflexivity].
Qed.

Lemma C5_missing_artifacts_witness :
  (fst (buildSnapshotSkillRecord (P := sample_platform) compact_env sample_date
          "o/r/tool-gone" (sample_request "/v1/skills/o%2Fr%2Ftool-gone" []) initialWorld)
     = Ok None /\
   fst (buildSnapshotMetricsResponse (P := sample_platform) compact_env sample_date
          "o/r/tool-gone" (sample_request "/v1/skills/o%2Fr%2Ftool-gone" []) initialWorld)
     = Ok None) /\
  (fst (buildSnapshotSkillRecord (P := sample_platform) compact_env sample_date
          "o/r/unknown" (sample_request "/v1/skills/o%2Fr%2Funknown" []) initialWorld)
     = Ok None /\
   fst (buildSnapshotMetricsResponse (P := sample_platform) compact_env sample_date
          "o/r/unknown" (sample_request "/v1/skills/o%2Fr%2Funknown" []) initialWorld)
     = Ok None).
Proof.
  split.
  - eapply (proj1 (proj2 (C5_missing_artifacts (P := sample_platform) compact_env sample_date
                            "o/r/tool-gone"
                            (sample_request "/v1/skills/o%2Fr%2Ftool-gone" []) initialWorld))).
    + vm_compute. reflexivity.
    + vm_compute. reflexivity.
    + vm_compute. reflexivity.
    + vm_compute. reflexivity.
  - eapply (proj1 (C5_missing_artifacts (P := sample_platform) compact_env sample_date
                     "o/r/unknown"
                     (sample_request "/v1/skills/o%2Fr%2Funknown" []) initialWorld)).
    + vm_compute. reflexivity.
    + vm_compute. reflexivity.
Defined.

(** ** SearchEngine: lookup fallback *)

Lemma resolveRef_weaken `{P : Platform} rawPageSize
    (c c' : gmap Z (list SnapshotSkillPageItem.t)) e :
  c ⊆ c' -> is_Some (c !! SnapshotSkillLookup.page (snd e)) ->
  resolveRef rawPageSize c' e = resolveRef rawPageSize c e.
Proof.
  intros Hsub [rows Hrows]. unfold resolveRef.
  rewrite Hrows, (lookup_weaken _ _ _ _ Hrows Hsub). reflexivity.
Qed.

Lemma omap_cons_eq {A B} (f : A -> option B) (x : A) (l : list A) :
  omap f (x :: l) = match f x with Some y => y :: omap f l | None => omap f l end.
Proof. reflexivity. Qed.

Lemma length_omap_le {A B} (f : A -> option B) (l : list A) :
  (length (omap f l) <= length l)%nat.
Proof.
  induction l as [|x l IH]; [reflexivity|]. rewrite omap_cons_eq.
  destruct (f x); cbn; lia.
Qed.

Lemma Array_slice_length {I} (xs : list I) (start size : Z) :
  0 <= start -> 0 <= size ->
  Z.of_nat (length (Array_slice xs start (start + size)))
  = Z.max 0 (Z.min size (Z.of_nat (length xs) - start)).
Proof.
  intros Hs Hn. unfold Array_slice.
  replace (start + size - start) with size by lia.
  rewrite length_take, length_drop. lia.
Qed.

Lemma sortEntries_length `{P : Platform} sort entries :
  length (sortEntries sort entries) = length entries.
Proof. destruct sort; apply Array_sort_length. Qed.

Lemma loadJsonTextWithCache_hit env bucket key request cacheSuffix text w :
  SKILLSIGHT_DATA env = Some bucket ->
  edgeCache w !! cacheRequest request cacheSuffix = Some text ->
  loadJsonTextWithCache env key request cacheSuffix w
  = (Ok (Some text), with_trace [CacheMatch (cacheRequest request cacheSuffix) true] w).
Proof.
  intros Hb Hc. unfold loadJsonTextWithCache. rewrite Hb.
  unfold bind, cache_match, emit, ret, bind. cbn. rewrite Hc. reflexivity.
Qed.

Lemma loadJsonTextWithCache_found env bucket key request cacheSuffix text w :
  SKILLSIGHT_DATA env = Some bucket ->
  edgeCache w !! cacheRequest request cacheSuffix = None ->
  bucket !! key = Some text ->
  let cacheKey := cacheRequest request cacheSuffix in
  loadJsonTextWithCache env key request cacheSuffix w
  = (Ok (Some text),
     with_trace [CacheMatch cacheKey false; BucketGet key true; CachePut cacheKey]
       (with_cached cacheKey text w)).
Proof.
  intros Hb Hc Hk. unfold loadJsonTextWithCache. rewrite Hb.
  unfold bind, cache_match, bucket_get, cache_put, emit, ret, bind. cbn. rewrite Hc. cbn.
  rewrite Hk. cbn. unfold with_trace, with_cached. cbn. rewrite <- !app_assoc. reflexivity.
Qed.

Lemma loadJsonTextWithCache_not_found env bucket key request cacheSuffix w :
  SKILLSIGHT_DATA env = Some bucket ->
  edgeCache w !! cacheRequest request cacheSuffix = None ->
  bucket !! key = None ->
  loadJsonTextWithCache env key request cacheSuffix w
  = (Ok None,
     with_trace [CacheMatch (cacheRequest request cacheSuffix) false; BucketGet key false] w).
Proof.
  intros Hb Hc Hk. unfold loadJsonTextWithCache. rewrite Hb.
  unfold bind, cache_match, bucket_get, emit, ret, bind. cbn. rewrite Hc. cbn.
  rewrite Hk. cbn. unfold with_trace. cbn. rewrite <- !app_assoc. reflexivity.
Qed.

Lemma append_inj_l a x y : a ++ x = a ++ y -> x = y.
Proof. induction a as [|c a IH]; cbn; [trivial|]. intros [= H]. apply IH, H. Qed.

Lemma loadPages_extends `{P : Platform} env snapshotDate request pages :
  forall pageCache w pageCache' w',
    loadPages env snapshotDate request pages pageCache w = (Ok pageCache', w') ->
    pageCache ⊆ pageCache' /\ Forall (fun page => is_Some (pageCache' !! page)) pages.
Proof.
  induction pages as [|page rest IH]; intros pageCache w pageCache' w' Hrun.
  - injection Hrun as <- <-. split; [reflexivity | constructor].
  - cbn [loadPages] in Hrun. destruct (pageCache !! page) as [rows|] eqn:Hcached.
    + destruct (IH _ _ _ _ Hrun) as [Hsub Hall]. split; [exact Hsub|].
      constructor; [|exact Hall]. exists rows. eapply lookup_weaken; eassumption.
    + unfold bind at 1 in Hrun.
      destruct (loadSnapshotSkillsPage env snapshotDate page request w) as [[loaded|e] w1];
        [|discriminate Hrun].
      destruct (IH _ _ _ _ Hrun) as [Hsub Hall]. split.
      * etransitivity; [apply insert_subseteq; exact Hcached | exact Hsub].
      * constructor; [|exact Hall]. exists (nullish loaded []).
        eapply lookup_weaken; [apply lookup_insert_eq | exact Hsub].
Qed.

Lemma resolveRef_head `{P : Platform} rawPageSize pageCache id ref rows :
  pageCache !! SnapshotSkillLookup.page ref = Some rows ->
  resolveRef rawPageSize pageCache (id, ref)
  = match Array_get rows (SnapshotSkillLookup.index ref) with
    | Some raw =>
        Some (with_id id
                (snapshotItemToSkillListItem raw
                   ((SnapshotSkillLookup.page ref - 1) * rawPageSize
                    + SnapshotSkillLookup.index ref + 1)))
    | None => None
    end.
Proof. intros H. unfold resolveRef. cbn [fst snd]. rewrite H. reflexivity. Qed.

(** The loop is the loading of the pages followed by the resolution of
    every selected entry in what was loaded. *)
Lemma resolveSelected_loadPages `{P : Platform} env snapshotDate request rawPageSize selected :
  forall pageCache items w,
    resolveSelected env snapshotDate request rawPageSize selected pageCache items w
    = match loadPages env snapshotDate request
              (map (fun e => SnapshotSkillLookup.page (snd e)) selected) pageCache w with
      | (Ok pageCache', w') =>
          (Ok (items ++ omap (resolveRef rawPageSize pageCache') selected)%list, w')
      | (Throw e, w') => (Throw e, w')
      end.
Proof.
  induction selected as [|[id ref] rest IH]; intros pageCache items w.
  - cbn. rewrite app_nil_r. reflexivity.
  - cbn [resolveSelected map loadPages fst snd]. unfold bind at 1.
    destruct (pageCache !! SnapshotSkillLookup.page ref) as [rows|] eqn:Hcached.
    + cbn [ret].
      destruct (Array_get rows (SnapshotSkillLookup.index ref)) as [raw|] eqn:Hraw;
        rewrite IH;
        destruct (loadPages env snapshotDate request _ pageCache w) as [[pc'|e] w'] eqn:Hrun;
        try reflexivity;
        destruct (loadPages_extends _ _ _ _ _ _ _ _ Hrun) as [Hsub _];
        rewrite omap_cons_eq,
          (resolveRef_head rawPageSize pc' id ref rows (lookup_weaken _ _ _ _ Hcached Hsub)),
          Hraw; [rewrite <- app_assoc|]; reflexivity.
    + unfold bind.
      destruct (loadSnapshotSkillsPage env snapshotDate (SnapshotSkillLookup.page ref)
                  request w) as [[loaded|e] w1]; [|reflexivity].
      unfold ret at 1.
      assert (Hc1 : <[SnapshotSkillLookup.page ref := nullish loaded []]> pageCache
                    !! SnapshotSkillLookup.page ref = Some (nullish loaded []))
        by apply lookup_insert_eq.
      destruct (Array_get (nullish loaded []) (SnapshotSkillLookup.index ref)) as [raw|] eqn:Hraw;
        rewrite IH;
        destruct (loadPages env snapshotDate request _ _ w1) as [[pc'|e] w'] eqn:Hrun;
        try reflexivity;
        destruct (loadPages_extends _ _ _ _ _ _ _ _ Hrun) as [Hsub _];
        rewrite omap_cons_eq,
          (resolveRef_head rawPageSize pc' id ref _ (lookup_weaken _ _ _ _ Hc1 Hsub)),
          Hraw; [rewrite <- app_assoc|]; reflexivity.
Qed.

Lemma page_decodes_cache `{P : Platform} env snapshotDate request cache cache' page rows :
  cache' !! page_cache_key snapshotDate request page
  = cache !! page_cache_key snapshotDate request page ->
  page_decodes env snapshotDate request cache page rows ->
  page_decodes env snapshotDate request cache' page rows.
Proof. unfold page_decodes, page_source. intros ->. trivial. Qed.

Lemma loadSnapshotSkillsPage_decodes `{P : Platform} env snapshotDate page request w loaded w' :
  loadSnapshotSkillsPage env snapshotDate page request w = (Ok loaded, w') ->
  page_decodes env snapshotDate request (edgeCache w) page (nullish loaded []) /\
  (forall cacheKey, cacheKey <> page_cache_key snapshotDate request page ->
     edgeCache w' !! cacheKey = edgeCache w !! cacheKey).
Proof.
  unfold loadSnapshotSkillsPage, loadJsonObjectWithCache, page_decodes, page_source,
    page_cache_key.
  set (key := SNAPSHOT_SKILLS_PAGE_KEY snapshotDate page).
  set (suffix := "snapshot-skills-page/" ++ snapshotDate ++ "/" ++ String_of page).
  intros Hrun.
  assert (Hparse : forall text w1,
            (match present (Some text) with
             | Some text => let* v := parseJson parse_SnapshotSkillsPage text key in ret (Some v)
             | None => ret None
             end) w1 = (Ok loaded, w') ->
            w1 = w' /\
            match present (Some text) with
            | Some text => parse_SnapshotSkillsPage text = Some (nullish loaded [])
            | None => nullish loaded [] = []
            end).
  { intros text w1 H. destruct (present (Some text)) as [t|].
    - unfold bind, parseJson in H. destruct (parse_SnapshotSkillsPage t) as [rows|];
        [|discriminate H].
      injection H as <- <-. split; reflexivity.
    - injection H as <- <-. split; reflexivity. }
  destruct (SKILLSIGHT_DATA env) as [bucket|] eqn:Hb.
  - destruct (edgeCache w !! cacheRequest request suffix) as [text|] eqn:Hc.
    + rewrite (bind_Ok _ _ _ _ _ (loadJsonTextWithCache_hit env bucket key request suffix
                                    text w Hb Hc)) in Hrun.
      destruct (Hparse _ _ Hrun) as [<- Hrows]. split; [exact Hrows|]. reflexivity.
    + destruct (bucket !! key) as [text|] eqn:Hk.
      * rewrite (bind_Ok _ _ _ _ _ (loadJsonTextWithCache_found env bucket key request suffix
                                      text w Hb Hc Hk)) in Hrun.
        destruct (Hparse _ _ Hrun) as [<- Hrows]. split; [exact Hrows|].
        intros cacheKey Hne. cbn. apply lookup_insert_ne. congruence.
      * rewrite (bind_Ok _ _ _ _ _ (loadJsonTextWithCache_not_found env bucket key request
                                      suffix w Hb Hc Hk)) in Hrun.
        injection Hrun as <- <-. split; reflexivity.
  - unfold loadJsonTextWithCache in Hrun. rewrite Hb in Hrun.
    injection Hrun as <- <-. split; reflexivity.
Qed.

Lemma loadPages_decodes `{P : Platform} env snapshotDate request pages :
  (forall p q, In p pages -> In q pages ->
     page_cache_key snapshotDate request p = page_cache_key snapshotDate request q -> p = q) ->
  forall pageCache w pageCache' w',
    loadPages env snapshotDate request pages pageCache w = (Ok pageCache', w') ->
    forall page, In page pages -> pageCache !! page = None ->
      exists rows,
        pageCache' !! page = Some rows /\
        page_decodes env snapshotDate request (edgeCache w) page rows.
Proof.
  induction pages as [|p rest IH]; intros Hinj pageCache w pageCache' w' Hrun page Hin Hnone;
    [destruct Hin|].
  assert (Hinj' : forall a b, In a rest -> In b rest ->
            page_cache_key snapshotDate request a = page_cache_key snapshotDate request b ->
            a = b)
    by (intros a b Ha Hb; apply Hinj; right; assumption).
  cbn [loadPages] in Hrun. destruct (pageCache !! p) as [rows|] eqn:Hcached.
  - destruct Hin as [<-|Hin]; [congruence|]. exact (IH Hinj' _ _ _ _ Hrun page Hin Hnone).
  - unfold bind at 1 in Hrun.
    destruct (loadSnapshotSkillsPage env snapshotDate p request w) as [[loaded|e] w1] eqn:Hload;
      [|discriminate Hrun].
    destruct (loadSnapshotSkillsPage_decodes _ _ _ _ _ _ _ Hload) as [Hrows Hcache].
    destruct (decide (page = p)) as [->|Hne].
    + exists (nullish loaded []). split; [|exact Hrows].
      destruct (loadPages_extends _ _ _ _ _ _ _ _ Hrun) as [Hsub _].
      eapply lookup_weaken; [apply lookup_insert_eq | exact Hsub].
    + destruct Hin as [->|Hin]; [contradiction|].
      destruct (IH Hinj' _ _ _ _ Hrun page Hin) as (rows & Hget & Hdec).
      { rewrite lookup_insert_ne by congruence. exact Hnone. }
      exists rows. split; [exact Hget|].
      eapply page_decodes_cache; [|exact Hdec]. symmetry. apply Hcache.
      intros Heq. apply Hne. apply Hinj; [right; exact Hin | left; reflexivity | exact Heq].
Qed.

Lemma resolveRef_resolves `{P : Platform} rawPageSize pageCache e :
  match resolveRef rawPageSize pageCache e with
  | Some item => resolves pageCache e = true /\ SkillListItem.id item = fst e
  | None => resolves pageCache e = false
  end.
Proof.
  unfold resolveRef, resolves.
  destruct (pageCache !! SnapshotSkillLookup.page (snd e)) as [rows|]; [|reflexivity].
  destruct (Array_get rows (SnapshotSkillLookup.index (snd e))) as [raw|]; [|reflexivity].
  split; reflexivity.
Qed.

Lemma omap_resolveRef_ids `{P : Platform} rawPageSize pageCache selected :
  map SkillListItem.id (omap (resolveRef rawPageSize pageCache) selected)
  = map fst (List.filter (resolves pageCache) selected).
Proof.
  induction selected as [|e rest IH]; [reflexivity|].
  rewrite omap_cons_eq. cbn [List.filter].
  pose proof (resolveRef_resolves rawPageSize pageCache e) as He.
  destruct (resolveRef rawPageSize pageCache e) as [item|].
  - destruct He as [-> Hid]. cbn [map]. rewrite Hid, IH. reflexivity.
  - rewrite He. exact IH.
Qed.

(** C10. The lookup fallback of [/v1/search] loads the per-snapshot
    manifest, then the pages of the selected entries, each once, and
    answers with the selected entries that have a row at their index in
    what was loaded, in order; a page without text is kept as the empty
    array, so its entries, like those whose index has no row, are left
    out, and every other selected entry is there under its id. With
    distinct cache keys, what is loaded for a page is what the edge cache
    or else the bucket holds for it when the loop starts, and the entries
    of a page that neither holds are left out. [total] is the
    number of all lookup entries that match the query. So the items are
    never more than [page_size], and they can be strictly fewer than
    [min(page_size, total - (page-1)*page_size)], as the sample bucket
    with a missing second page shows. *)
Theorem C10_lookup_fallback `{P : Platform} (env : Env) (request : Request)
    (rlHeaders : StrMap) (snapshotDate query : string) (sortParam : SortMode)
    (page pageSize : Z) (w w1 : World) (lookup : SnapshotSkillLookupDocument.t)
    (allEntries : list (string * SnapshotSkillLookup.t)) :
  1 <= page -> 1 <= pageSize ->
  loadSnapshotSkillLookup env snapshotDate request w = (Ok (Some lookup), w1) ->
  SnapshotSkillLookupDocument.entries lookup = Some allEntries ->
  let matching := List.filter (entry_matches query) allEntries in
  let start := (page - 1) * pageSize in
  let selected := Array_slice (sortEntries sortParam matching) start (start + pageSize) in
  let pages := map (fun e => SnapshotSkillLookup.page (snd e)) selected in
  let answer snapshotManifest pageCache :=
    json (BodyFallbackSearch
            {| sr_items :=
                 omap (resolveRef (manifest_page_size snapshotManifest) pageCache) selected;
               sr_page := page; sr_page_size := pageSize;
               sr_total := Z.of_nat (length matching);
               sr_snapshot_date := snapshotDate |})
      200 (search_cache_headers rlHeaders) in
  searchFallback env request rlHeaders snapshotDate query sortParam page pageSize w
  = match loadSnapshotSkillsManifest env snapshotDate request w1 with
    | (Ok snapshotManifest, w2) =>
        match loadPages env snapshotDate request pages ∅ w2 with
        | (Ok pageCache, w3) => (Ok (answer snapshotManifest pageCache), w3)
        | (Throw e, w3) => (Throw e, w3)
        end
    | (Throw e, w2) => (Throw e, w2)
    end /\
  (forall w2 pageCache w3,
     loadPages env snapshotDate request pages ∅ w2 = (Ok pageCache, w3) ->
     Forall (fun e => is_Some (pageCache !! SnapshotSkillLookup.page (snd e))) selected /\
     ((forall p q, In p pages -> In q pages ->
         page_cache_key snapshotDate request p = page_cache_key snapshotDate request q ->
         p = q) ->
      forall e, In e selected ->
        (exists rows,
           pageCache !! SnapshotSkillLookup.page (snd e) = Some rows /\
           page_decodes env snapshotDate request (edgeCache w2)
             (SnapshotSkillLookup.page (snd e)) rows) /\
        (present (page_source env snapshotDate request (edgeCache w2)
                    (SnapshotSkillLookup.page (snd e))) = None ->
         resolves pageCache e = false))) /\
  (forall rawPageSize pageCache,
     let items := omap (resolveRef rawPageSize pageCache) selected in
     map SkillListItem.id items = map fst (List.filter (resolves pageCache) selected) /\
     (length items <= length selected)%nat /\
     Z.of_nat (length selected)
     = Z.max 0 (Z.min pageSize (Z.of_nat (length matching) - start)) /\
     Z.of_nat (length items) <= pageSize) /\
  (let r := fst (fetch (P := sample_platform) sample_clock fallback_request compact_env
                   initialWorld) in
   exists payload,
     body r = BodyFallbackSearch payload /\
     sr_total payload = 3 /\ sr_page payload = 1 /\ sr_page_size payload = 50 /\
     map SkillListItem.id (sr_items payload) = ["o/r/alpha"; "o/r/beta"] /\
     Z.of_nat (length (sr_items payload))
       < Z.min (sr_page_size payload)
               (sr_total payload - (sr_page payload - 1) * sr_page_size payload)).
Proof.
  intros Hpage Hps Hlookup Hentries matching start selected pages answer.
  split; [|split; [|split]].
  - unfold searchFallback. rewrite (bind_Ok _ _ _ _ _ Hlookup), Hentries.
    unfold bind at 1.
    destruct (loadSnapshotSkillsManifest env snapshotDate request w1)
      as [[snapshotManifest|e] w2]; [|reflexivity].
    unfold bind at 1. rewrite resolveSelected_loadPages. fold matching start selected pages.
    destruct (loadPages env snapshotDate request pages ∅ w2) as [[pageCache|e] w3];
      [|reflexivity].
    unfold answer. cbn [app]. rewrite sortEntries_length. reflexivity.
  - intros w2 pageCache w3 Hrun.
    destruct (loadPages_extends _ _ _ _ _ _ _ _ Hrun) as [_ Hall]. split.
    + subst pages. rewrite Forall_map in Hall. exact Hall.
    + intros Hinj e He.
      destruct (loadPages_decodes env snapshotDate request pages Hinj _ _ _ _ Hrun
                  (SnapshotSkillLookup.page (snd e))) as (rows & Hget & Hdec).
      * subst pages. apply in_map_iff. exists e. split; [reflexivity | exact He].
      * apply lookup_empty.
      * split; [exists rows; split; assumption|].
        intros Hmissing. unfold page_decodes in Hdec. rewrite Hmissing in Hdec.
        unfold resolves. rewrite Hget, Hdec. unfold Array_get.
        destruct (0 <=? _); [|reflexivity]. destruct (Z.to_nat _); reflexivity.
  - intros rawPageSize pageCache items. subst items.
    pose proof (Array_slice_length (sortEntries sortParam matching) start pageSize
                  ltac:(subst start; nia) ltac:(lia)) as Hlen.
    rewrite sortEntries_length in Hlen. fold selected in Hlen.
    pose proof (length_omap_le (resolveRef rawPageSize pageCache) selected) as Hle.
    split; [apply omap_resolveRef_ids|]. split; [exact Hle|]. split; [exact Hlen|]. lia.
  - vm_compute. eexists. repeat split.
Qed.

Lemma page_cache_key_inj snapshotDate request p q :
  page_cache_key snapshotDate request p = page_cache_key snapshotDate request q -> p = q.
Proof.
  unfold page_cache_key, cacheRequest, String_of. intros H.
  do 5 apply append_inj_l in H. apply (inj pretty) in H. exact H.
Qed.

Lemma C10_lookup_fallback_witness :
  let selected :=
    [ ("o/r/alpha", {| SnapshotSkillLookup.page := 1; SnapshotSkillLookup.index := 0 |});
      ("o/r/beta", {| SnapshotSkillLookup.page := 1; SnapshotSkillLookup.index := 1 |});
      ("o/r/tool-gone", {| SnapshotSkillLookup.page := 2; SnapshotSkillLookup.index := 0 |}) ] in
  exists response w' pageCache,
    searchFallback (P := sample_platform) compact_env fallback_request [] sample_date
      "o/r" installs 1 50 initialWorld = (Ok response, w') /\
    body response
    = BodyFallbackSearch
        {| sr_items := omap (resolveRef (P := sample_platform) 2 pageCache) selected;
           sr_page := 1; sr_page_size := 50; sr_total := 3;
           sr_snapshot_date := sample_date |} /\
    map fst (List.filter (resolves pageCache) selected) = ["o/r/alpha"; "o/r/beta"] /\
    pageCache !! 2 = Some [].
Proof.
  cbn zeta.
  edestruct (C10_lookup_fallback (P := sample_platform) compact_env fallback_request []
               sample_date "o/r" installs 1 50 initialWorld)
    as (Hrun & Hpages & _).
  - lia.
  - lia.
  - vm_compute. reflexivity.
  - reflexivity.
  - cbv zeta in Hrun, Hpages.
    match type of Hrun with
    | context [@loadSnapshotSkillsManifest ?p ?e ?d ?r ?w0] =>
        pose (w2 := snd (@loadSnapshotSkillsManifest p e d r w0));
        assert (Hmanifest :
                  @loadSnapshotSkillsManifest p e d r w0
                  = (Ok (Some sample_skills_manifest), w2))
          by (vm_compute; reflexivity)
    end.
    rewrite Hmanifest in Hrun.
    match type of Hrun with
    | context [@loadPages ?p ?e ?d ?r ?pages ?c ?w0] =>
        pose (w3 := snd (@loadPages p e d r pages c w0));
        assert (Hload :
                  @loadPages p e d r pages c w0
                  = (Ok (list_to_map [(1, sample_page1); (2, [])]), w3))
          by (vm_compute; reflexivity)
    end.
    rewrite Hload in Hrun.
    destruct (Hpages _ _ _ Hload) as [_ Hsource].
    destruct (Hsource (fun p q _ _ => page_cache_key_inj sample_date fallback_request p q)
                ("o/r/tool-gone",
                 {| SnapshotSkillLookup.page := 2; SnapshotSkillLookup.index := 0 |}))
      as [(rows & Hget & Hdec) _].
    { vm_compute. right. right. left. reflexivity. }
    eexists _, w3, (list_to_map [(1, sample_page1); (2, [])]). split; [exact Hrun|].
    split; [vm_compute; reflexivity|]. split; [vm_compute; reflexivity|].
    vm_compute in Hdec. rewrite Hdec in Hget. exact Hget.
Defined.

(** Scenario B: with the slim index absent the search falls back to the
    lookup, and the items carry no weekly installs, description or
    platform installs. *)
Example scenario_B :
  let r := fst (fetch (P := sample_platform) sample_clock fallback_request compact_env
                  initialWorld) in
  exists payload,
    body r = BodyFallbackSearch payload /\
    map SkillListItem.id (sr_items payload) = ["o/r/alpha"; "o/r/beta"] /\
    map SkillListItem.rank_at_fetch (sr_items payload) = [Some 1; Some 2] /\
    Forall (fun item => SkillListItem.weekly_installs item = None /\
                        SkillListItem.description item = None /\
                        SkillListItem.platform_installs item = None) (sr_items payload).
Proof. vm_compute. eexists. repeat split. repeat constructor. Qed.

(** ** CacheTier: malformed artifacts *)

Lemma same_decoded_refl w : same_decoded w w.
Proof. split; reflexivity. Qed.

Lemma same_decoded_trans w1 w2 w3 :
  same_decoded w1 w2 -> same_decoded w2 w3 -> same_decoded w1 w3.
Proof. intros [H1 H2] [H3 H4]. split; congruence. Qed.

Lemma loadJsonTextWithCache_decoded env key request cacheSuffix w :
  same_decoded w (snd (loadJsonTextWithCache env key request cacheSuffix w)).
Proof.
  unfold loadJsonTextWithCache.
  destruct (SKILLSIGHT_DATA env) as [bucket|]; [|apply same_decoded_refl].
  unfold bind, cache_match, bucket_get, cache_put, emit, ret, bind. cbn.
  destruct (edgeCache w !! cacheRequest request cacheSuffix); cbn;
    [split; reflexivity|].
  destruct (bucket !! key); cbn; split; reflexivity.
Qed.

Lemma loadJsonObjectWithCache_decoded {T} (parse : string -> option T) env key request
    cacheSuffix w :
  same_decoded w (snd (loadJsonObjectWithCache parse env key request cacheSuffix w)).
Proof.
  unfold loadJsonObjectWithCache, bind.
  pose proof (loadJsonTextWithCache_decoded env key request cacheSuffix w) as Hd.
  destruct (loadJsonTextWithCache env key request cacheSuffix w) as [[text|e] w1]; cbn in *;
    [|exact Hd].
  destruct (present text) as [t|]; [|exact Hd].
  unfold parseJson. destruct (parse t); exact Hd.
Qed.

(** A malformed object on a cold edge cache: the load throws with the
    key in the message, after the raw text has been put in the edge
    cache. *)
Lemma loadJsonObjectWithCache_malformed {T} (parse : string -> option T) env bucket key
    request cacheSuffix text w :
  SKILLSIGHT_DATA env = Some bucket ->
  edgeCache w !! cacheRequest request cacheSuffix = None ->
  bucket !! key = Some text -> truthy text = true -> parse text = None ->
  let cacheKey := cacheRequest request cacheSuffix in
  let out := loadJsonObjectWithCache parse env key request cacheSuffix w in
  fst out = Throw ("Invalid JSON in " ++ key)%string /\
  edgeCache (snd out) = <[cacheKey := text]> (edgeCache w) /\
  trace (snd out)
    = (trace w ++ [CacheMatch cacheKey false; BucketGet key true; CachePut cacheKey])%list /\
  same_decoded w (snd out).
Proof.
  intros Hb Hc Hk Ht Hp cacheKey out. subst out cacheKey.
  unfold loadJsonObjectWithCache, loadJsonTextWithCache, bind. rewrite Hb.
  unfold cache_match, bucket_get, cache_put, bind, emit, ret. cbn. rewrite Hc. cbn.
  rewrite Hk. cbn. unfold present. rewrite Ht. unfold parseJson. rewrite Hp. cbn.
  repeat split. rewrite <- !app_assoc. reflexivity.
Qed.

(** The same object once the edge cache holds its text: the load is
    served from the edge cache, throws again and does not read the
    bucket. *)
Lemma loadJsonObjectWithCache_malformed_cached {T} (parse : string -> option T) env bucket
    key request cacheSuffix text w :
  SKILLSIGHT_DATA env = Some bucket ->
  edgeCache w !! cacheRequest request cacheSuffix = Some text ->
  truthy text = true -> parse text = None ->
  let cacheKey := cacheRequest request cacheSuffix in
  loadJsonObjectWithCache parse env key request cacheSuffix w
  = (Throw ("Invalid JSON in " ++ key)%string,
     {| rateLimitByClient := rateLimitByClient w;
        lastRateLimitSweepMs := lastRateLimitSweepMs w;
        parsedSearchCache := parsedSearchCache w;
        cachedLatestManifest := cachedLatestManifest w;
        edgeCache := edgeCache w;
        trace := (trace w ++ [CacheMatch cacheKey true])%list |}).
Proof.
  intros Hb Hc Ht Hp cacheKey. subst cacheKey.
  unfold loadJsonObjectWithCache, loadJsonTextWithCache, bind. rewrite Hb.
  unfold cache_match, bind, emit, ret. cbn. rewrite Hc. cbn.
  unfold present. rewrite Ht. unfold parseJson. rewrite Hp. reflexivity.
Qed.

Lemma keeps_throws {A} (m : M A) : keeps_decoded m -> throws_keep_decoded m.
Proof. intros H w e w' Hrun. specialize (H w). rewrite Hrun in H. exact H. Qed.

Lemma throws_keep_ret {A} (a : A) : throws_keep_decoded (ret a).
Proof. intros w e w' Hrun. discriminate. Qed.

Lemma throws_keep_throw {A} (e : string) : throws_keep_decoded (throw (A := A) e).
Proof. intros w e' w' [= _ <-]. apply same_decoded_refl. Qed.

Lemma throws_keep_bind {A B} (m : M A) (k : A -> M B) :
  keeps_decoded m -> (forall a, throws_keep_decoded (k a)) ->
  throws_keep_decoded (bind m k).
Proof.
  intros Hm Hk w e w' Hrun. unfold bind in Hrun. specialize (Hm w).
  destruct (m w) as [[a|e1] w1]; cbn in Hm.
  - eapply same_decoded_trans; [exact Hm | eapply Hk; exact Hrun].
  - injection Hrun as _ <-. exact Hm.
Qed.

Lemma keeps_get_world : keeps_decoded get_world.
Proof. intros w. apply same_decoded_refl. Qed.

Lemma keeps_loadJsonTextWithCache env key request cacheSuffix :
  keeps_decoded (loadJsonTextWithCache env key request cacheSuffix).
Proof. intros w. apply loadJsonTextWithCache_decoded. Qed.

Lemma keeps_loadJsonObjectWithCache {T} (parse : string -> option T) env key request
    cacheSuffix :
  keeps_decoded (loadJsonObjectWithCache parse env key request cacheSuffix).
Proof. intros w. apply loadJsonObjectWithCache_decoded. Qed.

Lemma keeps_parseJson {T} (parse : string -> option T) text label :
  keeps_decoded (parseJson parse text label).
Proof. intros w. unfold parseJson. destruct (parse text); apply same_decoded_refl. Qed.

Lemma throws_keep_remember `{P : Platform} nowMs manifest :
  throws_keep_decoded (remember_manifest nowMs manifest).
Proof. intros w e w' Hrun. discriminate. Qed.

Lemma loadLatestManifest_throws_keep `{P : Platform} nowMs env request :
  throws_keep_decoded (loadLatestManifest nowMs env request).
Proof.
  unfold loadLatestManifest.
  apply throws_keep_bind; [apply keeps_get_world|]. intros w0.
  destruct (fresh_manifest _ _); [apply throws_keep_ret|].
  apply throws_keep_bind; [apply keeps_loadJsonTextWithCache|]. intros webManifestText.
  destruct (present webManifestText) as [text|].
  - apply throws_keep_bind; [apply keeps_parseJson|]. intros parsed.
    destruct (valid_date _); [apply throws_keep_remember | apply throws_keep_throw].
  - apply throws_keep_bind; [apply keeps_loadJsonTextWithCache|]. intros snapshotLatestText.
    destruct (present snapshotLatestText) as [text|]; [|apply throws_keep_ret].
    apply throws_keep_bind; [apply keeps_parseJson|]. intros parsed.
    destruct (valid_date _); [|apply throws_keep_throw].
    apply throws_keep_bind; [apply keeps_loadJsonObjectWithCache|]. intros sm.
    apply throws_keep_remember.
Qed.

Lemma loadSearchIndex_throws_keep `{P : Platform} nowMs env snapshotDate request :
  throws_keep_decoded (loadSearchIndex nowMs env snapshotDate request).
Proof.
  unfold loadSearchIndex.
  apply throws_keep_bind; [apply keeps_get_world|]. intros w0.
  destruct (fresh_index _ _ _); [apply throws_keep_ret|].
  apply throws_keep_bind; [apply keeps_loadJsonTextWithCache|]. intros text.
  destruct (present text) as [t|]; [|apply throws_keep_ret].
  apply throws_keep_bind; [apply keeps_parseJson|]. intros parsed.
  destruct (valid_date _), (sij_items parsed); try apply throws_keep_throw.
  intros w e w' Hrun. discriminate.
Qed.

(** C2 as amended. A JSON parse failure throws an error whose message
    carries the key, and what failed to parse never enters the in-process
    decoded caches. The raw text, however, is put in the edge cache before
    it is parsed: after the failure the edge cache holds it, and the next
    load is served from the edge cache, fails in the same way and does not
    read the bucket. *)
Theorem C2_malformed_json `{P : Platform} {T} (parse : string -> option T) (env : Env)
    (bucket : gmap string string) (key : string) (request : Request)
    (cacheSuffix text : string) (w : World) :
  SKILLSIGHT_DATA env = Some bucket ->
  edgeCache w !! cacheRequest request cacheSuffix = None ->
  bucket !! key = Some text -> truthy text = true -> parse text = None ->
  let cacheKey := cacheRequest request cacheSuffix in
  let first := loadJsonObjectWithCache parse env key request cacheSuffix w in
  let second := loadJsonObjectWithCache parse env key request cacheSuffix (snd first) in
  (forall w0, parseJson parse text key w0 = (Throw ("Invalid JSON in " ++ key)%string, w0)) /\
  fst first = Throw ("Invalid JSON in " ++ key)%string /\
  same_decoded w (snd first) /\
  edgeCache (snd first) !! cacheKey = Some text /\
  trace (snd first)
    = (trace w ++ [CacheMatch cacheKey false; BucketGet key true; CachePut cacheKey])%list /\
  fst second = Throw ("Invalid JSON in " ++ key)%string /\
  trace (snd second) = (trace (snd first) ++ [CacheMatch cacheKey true])%list /\
  same_decoded w (snd second) /\
  (forall nowMs, throws_keep_decoded (loadLatestManifest nowMs env request)) /\
  (forall nowMs snapshotDate,
     throws_keep_decoded (loadSearchIndex nowMs env snapshotDate request)).
Proof.
  intros Hb Hc Hk Ht Hp cacheKey first second.
  destruct (loadJsonObjectWithCache_malformed parse env bucket key request cacheSuffix text w
              Hb Hc Hk Ht Hp) as (Hthrow & Hedge & Htrace & Hdec).
  fold first cacheKey in Hthrow, Hedge, Htrace, Hdec.
  assert (Hcached : edgeCache (snd first) !! cacheKey = Some text)
    by (rewrite Hedge; apply lookup_insert_eq).
  pose proof (loadJsonObjectWithCache_malformed_cached parse env bucket key request
                cacheSuffix text (snd first) Hb Hcached Ht Hp) as Hsecond.
  split; [intros w0; unfold parseJson; rewrite Hp; reflexivity|].
  split; [exact Hthrow|]. split; [exact Hdec|]. split; [exact Hcached|].
  split; [exact Htrace|]. unfold second. rewrite Hsecond. cbn [fst snd trace].
  split; [reflexivity|]. split; [reflexivity|].
  split; [split; apply Hdec|].
  split; intros; [apply loadLatestManifest_throws_keep | apply loadSearchIndex_throws_keep].
Qed.

Lemma C2_malformed_json_witness :
  let first := loadJsonObjectWithCache (parse_LatestManifest (Platform := sample_platform))
                 malformed_env LATEST_MANIFEST_KEY tool_request "latest-manifest"
                 initialWorld in
  fst first = Throw "Invalid JSON in data/v1/latest.json" /\
  edgeCache (snd first) !! "https://worker.test/cache/latest-manifest" = Some malformed_text.
Proof.
  edestruct (C2_malformed_json (P := sample_platform)
               (parse_LatestManifest (Platform := sample_platform)) malformed_env
               (list_to_map [(LATEST_MANIFEST_KEY, malformed_text)])
               LATEST_MANIFEST_KEY tool_request "latest-manifest" malformed_text
               initialWorld)
    as (_ & Hthrow & _ & Hedge & _).
  - reflexivity.
  - reflexivity.
  - vm_compute. reflexivity.
  - reflexivity.
  - reflexivity.
  - split; [exact Hthrow | exact Hedge].
Defined.

(** C2 as stated fails. With a manifest that is not JSON, a first search
    request is answered with 500 and the key in the message, but the edge
    cache then holds the malformed text, and a second request is served
    from the edge cache: its only storage operation is a cache hit, the
    bucket is not read again. *)
Lemma C2_counterexample :
  let cacheKey := "https://worker.test/cache/latest-manifest" in
  let first := fetch (P := sample_platform) sample_clock tool_request malformed_env
                 initialWorld in
  let second := fetch (P := sample_platform) sample_clock tool_request malformed_env
                  (snd first) in
  status (fst first) = 500 /\
  body (fst first) = BodyError "Invalid JSON in data/v1/latest.json" /\
  edgeCache (snd first) !! cacheKey = Some malformed_text /\
  trace (snd first)
    = [CacheMatch cacheKey false; BucketGet LATEST_MANIFEST_KEY true; CachePut cacheKey] /\
  body (fst second) = BodyError "Invalid JSON in data/v1/latest.json" /\
  trace (snd second) = (trace (snd first) ++ [CacheMatch cacheKey true])%list.
Proof. vm_compute. repeat split. Qed.

(** ** ManifestResolver *)

Lemma loadJsonTextWithCache_cold env bucket key request cacheSuffix w :
  SKILLSIGHT_DATA env = Some bucket ->
  edgeCache w !! cacheRequest request cacheSuffix = None ->
  exists w',
    loadJsonTextWithCache env key request cacheSuffix w = (Ok (bucket !! key), w') /\
    (forall cacheKey, cacheKey <> cacheRequest request cacheSuffix ->
       edgeCache w' !! cacheKey = edgeCache w !! cacheKey) /\
    cachedLatestManifest w' = cachedLatestManifest w /\
    exists events,
      trace w' = (trace w ++ events)%list /\
      Forall (fun ev => match ev with
                        | BucketGet k _ => k = key
                        | CacheMatch ck _ | CachePut ck => ck = cacheRequest request cacheSuffix
                        end) events.
Proof.
  intros Hb Hc. unfold loadJsonTextWithCache. rewrite Hb.
  unfold bind, cache_match, bucket_get, cache_put, emit, ret, bind. cbn. rewrite Hc. cbn.
  destruct (bucket !! key) as [text|]; cbn.
  - eexists. split; [reflexivity|]. cbn. split; [|split; [reflexivity|]].
    + intros ck Hne. apply lookup_insert_ne. congruence.
    + eexists. rewrite <- !app_assoc. split; [reflexivity|]. repeat constructor.
  - eexists. split; [reflexivity|]. cbn. split; [|split; [reflexivity|]].
    + reflexivity.
    + eexists. rewrite <- !app_assoc. split; [reflexivity|]. repeat constructor.
Qed.

Lemma cacheRequest_inj request a b : cacheRequest request a = cacheRequest request b -> a = b.
Proof.
  unfold cacheRequest. generalize (origin request). intros o.
  induction o as [|c o IH]; cbn; intros H.
  - injection H. trivial.
  - injection H as H. apply IH, H.
Qed.

Lemma bind_get_world `{P : Platform} {B} (k : World -> M B) w : bind get_world k w = k w w.
Proof. reflexivity. Qed.

Lemma loadLatestManifest_cold `{P : Platform} nowMs env bucket request w :
  SKILLSIGHT_DATA env = Some bucket ->
  fresh_manifest nowMs (cachedLatestManifest w) = None ->
  edgeCache w !! cacheRequest request "latest-manifest" = None ->
  edgeCache w !! cacheRequest request "latest-snapshot" = None ->
  resolved_cold bucket (fst (loadLatestManifest nowMs env request w)).
Proof.
  intros Hb Hfresh Hc1 Hc2. unfold resolved_cold.
  remember (fst (loadLatestManifest nowMs env request w)) as r eqn:Hr.
  unfold loadLatestManifest in Hr. rewrite bind_get_world, Hfresh in Hr.
  destruct (loadJsonTextWithCache_cold env bucket LATEST_MANIFEST_KEY request
              "latest-manifest" w Hb Hc1) as (w1 & Hrun1 & Hedge1 & _).
  rewrite (bind_Ok _ _ _ _ _ Hrun1) in Hr.
  destruct (present (bucket !! LATEST_MANIFEST_KEY)) as [text|].
  - unfold bind, parseJson in Hr.
    destruct (parse_LatestManifest text) as [parsed|]; [|exact Hr].
    cbn in Hr. destruct (valid_date (lmj_snapshot_date parsed)); exact Hr.
  - assert (Hc2' : edgeCache w1 !! cacheRequest request "latest-snapshot" = None).
    { rewrite Hedge1; [exact Hc2|]. intros Heq. apply cacheRequest_inj in Heq. discriminate. }
    destruct (loadJsonTextWithCache_cold env bucket LATEST_SNAPSHOT_KEY request
                "latest-snapshot" w1 Hb Hc2') as (w2 & Hrun2 & _).
    rewrite (bind_Ok _ _ _ _ _ Hrun2) in Hr.
    destruct (present (bucket !! LATEST_SNAPSHOT_KEY)) as [text|]; [|exact Hr].
    unfold bind at 1, parseJson in Hr.
    destruct (parse_SnapshotLatestManifest text) as [parsed|]; [|exact Hr].
    cbn [ret] in Hr. destruct (valid_date (date parsed)) as [d|]; [|exact Hr].
    unfold bind at 1 in Hr.
    destruct (loadSnapshotSkillsManifest env d request w2) as [[sm|e] w3].
    + right. destruct sm; eexists; (split; [exact Hr | reflexivity]).
    + left. eexists. exact Hr.
Qed.

Lemma loadLatestManifest_bad_date `{P : Platform} nowMs env bucket request w text parsed :
  SKILLSIGHT_DATA env = Some bucket ->
  fresh_manifest nowMs (cachedLatestManifest w) = None ->
  edgeCache w !! cacheRequest request "latest-manifest" = None ->
  bucket !! LATEST_MANIFEST_KEY = Some text -> truthy text = true ->
  parse_LatestManifest text = Some parsed ->
  valid_date (lmj_snapshot_date parsed) = None ->
  let out := loadLatestManifest nowMs env request w in
  let cacheKey := cacheRequest request "latest-manifest" in
  fst out = Throw "latest.json missing valid snapshot_date" /\
  trace (snd out)
    = (trace w ++ [CacheMatch cacheKey false; BucketGet LATEST_MANIFEST_KEY true;
                   CachePut cacheKey])%list /\
  cachedLatestManifest (snd out) = cachedLatestManifest w.
Proof.
  intros Hb Hfresh Hc Hk Ht Hp Hd out cacheKey. subst out cacheKey.
  unfold loadLatestManifest. rewrite bind_get_world, Hfresh.
  unfold loadJsonTextWithCache, bind. rewrite Hb.
  unfold cache_match, bucket_get, cache_put, bind, emit, ret. cbn. rewrite Hc. cbn.
  rewrite Hk. cbn. unfold present. rewrite Ht. unfold parseJson. rewrite Hp. cbn.
  rewrite Hd. cbn. rewrite <- !app_assoc. repeat split.
Qed.

Lemma resolveSnapshot_null `{P : Platform} clock env request rlHeaders unavailable w w' :
  no_snapshot_param request ->
  loadLatestManifest (manifestNow clock) env request w = (Ok None, w') ->
  resolveSnapshot clock env request rlHeaders unavailable w
  = (Ok (inl (json (BodyError unavailable) 503 rlHeaders)), w').
Proof.
  unfold no_snapshot_param, resolveSnapshot. intros Hno Hnull.
  destruct (searchParams_get "snapshot_date" request) as [d|].
  - rewrite Hno. rewrite (bind_Ok _ _ _ _ _ Hnull). reflexivity.
  - rewrite (bind_Ok _ _ _ _ _ Hnull). reflexivity.
Qed.

(** C3 as amended. With nothing cached, the resolver returns [null]
    exactly when each of the two pointer objects is absent or empty; a
    canonical manifest whose [snapshot_date] is not a valid date makes it
    throw without consulting the legacy pointer; and every rate-limited
    endpoint answers a [null] resolver result with 503. *)
Theorem C3_manifest_resolver `{P : Platform} (clock : Clock) (env : Env) (request : Request)
    (rlHeaders : StrMap) :
  (forall (w : World) (bucket : gmap string string) (nowMs : Z),
     SKILLSIGHT_DATA env = Some bucket ->
     fresh_manifest nowMs (cachedLatestManifest w) = None ->
     edgeCache w !! cacheRequest request "latest-manifest" = None ->
     edgeCache w !! cacheRequest request "latest-snapshot" = None ->
     (fst (loadLatestManifest nowMs env request w) = Ok None <->
        present (bucket !! LATEST_MANIFEST_KEY) = None /\
        present (bucket !! LATEST_SNAPSHOT_KEY) = None) /\
     (forall text parsed,
        bucket !! LATEST_MANIFEST_KEY = Some text -> truthy text = true ->
        parse_LatestManifest text = Some parsed ->
        valid_date (lmj_snapshot_date parsed) = None ->
        fst (loadLatestManifest nowMs env request w)
          = Throw "latest.json missing valid snapshot_date" /\
        trace (snd (loadLatestManifest nowMs env request w))
          = (trace w ++ [CacheMatch (cacheRequest request "latest-manifest") false;
                         BucketGet LATEST_MANIFEST_KEY true;
                         CachePut (cacheRequest request "latest-manifest")])%list)) /\
  (forall w0 w',
     no_snapshot_param request ->
     loadLatestManifest (manifestNow clock) env request w0 = (Ok None, w') ->
     serveStatsSummary clock env request rlHeaders w0
       = (Ok (json (BodyError "Summary unavailable") 503 rlHeaders), w') /\
     (isSortMode (nullish (searchParams_get "sort" request) "installs") = true ->
      serveSkills clock env request rlHeaders w0
        = (Ok (json (BodyError "Leaderboard unavailable") 503 rlHeaders), w')) /\
     (is_Some (parseSkillPath (pathname request) "/v1/skills/") ->
      serveSkillDetail clock env request rlHeaders w0
        = (Ok (json (BodyError "Skill unavailable") 503 rlHeaders), w')) /\
     (is_Some (parseSkillPath (pathname request) "/v1/metrics/") ->
      serveMetrics clock env request rlHeaders w0
        = (Ok (json (BodyError "Metrics unavailable") 503 rlHeaders), w')) /\
     ((2 <= String.length (requestedQuery request) <= 100)%nat ->
      isSortMode (nullish (searchParams_get "sort" request) "installs") = true ->
      serveSearch clock env request rlHeaders w0
        = (Ok (json (BodyError "Search index unavailable") 503 rlHeaders), w'))).
Proof.
  split; [intros w bucket nowMs Hb Hfresh Hc1 Hc2; split|].
  - pose proof (loadLatestManifest_cold nowMs env bucket request w Hb Hfresh Hc1 Hc2) as Hcold.
    unfold resolved_cold in Hcold.
    destruct (present (bucket !! LATEST_MANIFEST_KEY)) as [text|].
    + split; [|intros [? _]; discriminate]. intros Hnull. rewrite Hnull in Hcold.
      destruct (parse_LatestManifest text) as [parsed|]; [|discriminate].
      destruct (valid_date (lmj_snapshot_date parsed)); discriminate.
    + destruct (present (bucket !! LATEST_SNAPSHOT_KEY)) as [text|].
      * split; [|intros [_ ?]; discriminate]. intros Hnull. rewrite Hnull in Hcold.
        destruct (parse_SnapshotLatestManifest text) as [parsed|]; [|discriminate].
        destruct (valid_date (date parsed)); [|discriminate].
        destruct Hcold as [[e He]|(m & Hm & _)]; discriminate.
      * split; [split; reflexivity | intros _; exact Hcold].
  - intros text parsed Hk Ht Hp Hd.
    destruct (loadLatestManifest_bad_date nowMs env bucket request w text parsed
                Hb Hfresh Hc1 Hk Ht Hp Hd) as (H1 & H2 & _).
    split; assumption.
  - intros w0 w' Hno Hnull.
    pose proof (fun msg => resolveSnapshot_null clock env request rlHeaders msg w0 w' Hno Hnull)
      as Hres.
    split; [|split; [|split; [|split]]].
    + unfold serveStatsSummary. rewrite (bind_Ok _ _ _ _ _ (Hres _)). reflexivity.
    + intros Hsort. unfold serveSkills, isSortMode in *.
      destruct (SortMode_of_string _); [|discriminate].
      rewrite (bind_Ok _ _ _ _ _ (Hres _)). reflexivity.
    + intros [[[[id owner] repo] skillId] Hpath]. unfold serveSkillDetail. rewrite Hpath.
      rewrite (bind_Ok _ _ _ _ _ (Hres _)). reflexivity.
    + intros [[[[id owner] repo] skillId] Hpath]. unfold serveMetrics. rewrite Hpath.
      rewrite (bind_Ok _ _ _ _ _ (Hres _)). reflexivity.
    + intros [Hlo Hhi] Hsort. unfold serveSearch, isSortMode in *.
      assert (H1 : (String.length (requestedQuery request) <? 2)%nat = false)
        by (apply Nat.ltb_ge; lia).
      assert (H2 : (100 <? String.length (requestedQuery request))%nat = false)
        by (apply Nat.ltb_ge; lia).
      rewrite H1, H2. destruct (SortMode_of_string _); [|discriminate].
      rewrite (bind_Ok _ _ _ _ _ (Hres _)). reflexivity.
Qed.

Lemma C3_manifest_resolver_witness :
  fst (loadLatestManifest (P := sample_platform) 1000 (bucket_of []) tool_request initialWorld)
    = Ok None /\
  status (fst (fetch (P := sample_platform) sample_clock tool_request (bucket_of [])
                 initialWorld)) = 503.
Proof.
  destruct (C3_manifest_resolver (P := sample_platform) sample_clock (bucket_of [])
              tool_request
              (rl_headers (fst (enforceRateLimit 1000 tool_request initialWorld))))
    as [Hresolver Hroutes].
  split.
  - destruct (Hresolver initialWorld ∅ 1000 eq_refl eq_refl eq_refl eq_refl) as [[_ Hnull] _].
    apply Hnull. split; reflexivity.
  - edestruct (Hroutes (snd (enforceRateLimit 1000 tool_request initialWorld)))
      as (_ & _ & _ & _ & Hsearch).
    + exact I.
    + vm_compute. reflexivity.
    + unfold fetch.
      rewrite (route_search (P := sample_platform) sample_clock tool_request (bucket_of []))
        by reflexivity.
      rewrite (rateLimited_admitted (P := sample_platform))
        by (vm_compute; reflexivity).
      change (rateLimitNow sample_clock) with 1000.
      rewrite Hsearch; [reflexivity | vm_compute; lia | reflexivity].
Defined.

(** Scenario C: no manifest and no legacy pointer. *)
Example scenario_C :
  let r := fst (fetch (P := sample_platform) sample_clock tool_request (bucket_of [])
                  initialWorld) in
  status r = 503 /\ body r = BodyError "Search index unavailable".
Proof. vm_compute. split; reflexivity. Qed.

(** C3 as stated fails in both directions. A legacy pointer object that
    exists with an empty body is treated as absent, so the resolver
    returns [null] although a pointer exists; and within 60 s of a
    successful resolution the resolver returns the cached manifest
    although neither pointer exists in the bucket any more. *)
Lemma C3_counterexample :
  (SKILLSIGHT_DATA empty_pointer_env ≫= (fun bucket => bucket !! LATEST_SNAPSHOT_KEY) = Some "" /\
   fst (loadLatestManifest (P := sample_platform) 1000 empty_pointer_env tool_request
          initialWorld) = Ok None) /\
  (SKILLSIGHT_DATA (bucket_of []) = Some ∅ /\
   fst (loadLatestManifest (P := sample_platform) 2000 (bucket_of []) tool_request warm_world)
     = Ok (Some {| snapshot_date := sample_date; page_size := None; counts := None |})).
Proof. vm_compute. repeat split. Qed.

(** * Further properties of the worker *)

(** ** Splitting and joining *)

Lemma split_not_nil c s : split c s <> [].
Proof.
  destruct s as [|a s]; cbn; [discriminate|].
  destruct (Ascii.eqb a c); [discriminate|]. destruct (split c s); discriminate.
Qed.

Lemma join_cons sep x y ys : join sep (x :: y :: ys) = x ++ sep ++ join sep (y :: ys).
Proof. reflexivity. Qed.

Lemma join_split c s : join (String c "") (split c s) = s.
Proof.
  induction s as [|a s IH]; [reflexivity|]. cbn [split].
  destruct (Ascii.eqb_spec a c) as [->|Hne].
  - pose proof (split_not_nil c s) as Hnil.
    destruct (split c s) as [|p ps]; [contradiction|].
    rewrite join_cons, IH. reflexivity.
  - pose proof (split_not_nil c s) as Hnil.
    destruct (split c s) as [|p ps]; [contradiction|].
    destruct ps as [|p' ps].
    + cbn in *. rewrite IH. reflexivity.
    + rewrite join_cons. rewrite join_cons in IH. rewrite <- IH. reflexivity.
Qed.

Lemma split_no_separator c s : Forall (fun p => has_char c p = false) (split c s).
Proof.
  induction s as [|a s IH]; cbn [split]; [repeat constructor|].
  destruct (Ascii.eqb a c) eqn:Hac.
  - constructor; [reflexivity | exact IH].
  - destruct (split c s) as [|p ps]; [repeat constructor; cbn; rewrite Hac; reflexivity|].
    inversion IH; subst. constructor; [|assumption]. cbn. rewrite Hac. assumption.
Qed.

Lemma split_single c s : has_char c s = false -> split c s = [s].
Proof.
  induction s as [|a s IH]; cbn; [reflexivity|].
  intros H. apply orb_false_iff in H as [Hac Hs]. rewrite Hac, (IH Hs). reflexivity.
Qed.

Lemma has_char_append c a b : has_char c (a ++ b) = has_char c a || has_char c b.
Proof.
  induction a as [|x a IH]; [reflexivity|].
  change (has_char c (String x a ++ b)) with (Ascii.eqb x c || has_char c (a ++ b)).
  rewrite IH. apply orb_assoc.
Qed.

Lemma prefix_single c x : String.prefix (String c "") (String c x) = true.
Proof. cbn. destruct (ascii_dec c c); [destruct x; reflexivity | contradiction]. Qed.

(** ** Projection of raw rows *)

(** [parseSource] splits at the first slash: with a non-empty owner
    before a slash, owner and repo put back together are the source and
    the owner has no slash; a source without a slash, or one that starts
    with a slash, is used whole for both. *)
Theorem parseSource_recombines (source : string) :
  let '(owner, repo) := parseSource source in
  (owner = source /\ repo = source /\
   (has_char "/" source = false \/ startsWith source "/" = true)) \/
  (source = owner ++ "/" ++ repo /\ truthy owner = true /\ has_char "/" owner = false).
Proof.
  unfold parseSource.
  pose proof (join_split "/" source) as Hjoin.
  pose proof (split_no_separator "/" source) as Hsep.
  pose proof (split_not_nil "/" source) as Hnil.
  destruct (split "/" source) as [|owner rest]; [contradiction|].
  pose proof (Forall_inv Hsep) as Howner. cbn beta in Howner.
  destruct (truthy owner) eqn:Ht; cbn [negb orb].
  - destruct rest as [|r rs]; cbn [length Nat.eqb].
    + left. cbn in Hjoin. subst owner. repeat split. left. exact Howner.
    + right. rewrite join_cons in Hjoin. split; [symmetry; exact Hjoin|].
      split; [exact Ht | exact Howner].
  - left. repeat split. apply truthy_false in Ht. subst owner.
    destruct rest as [|r rs].
    + left. cbn in Hjoin. subst source. reflexivity.
    + right. rewrite join_cons in Hjoin. subst source. unfold startsWith.
      exact (prefix_single "/" (join "/" (r :: rs))).
Qed.

Example parseSource_samples :
  parseSource "vercel/next.js" = ("vercel", "next.js") /\
  parseSource "a/b/c" = ("a", "b/c") /\
  parseSource "solo" = ("solo", "solo") /\
  parseSource "/x" = ("/x", "/x") /\
  parseSource "" = ("", "").
Proof. repeat split. Qed.

(** ** Skill paths and synthesized identity *)

Lemma split_three c s a b d :
  split c s = [a; b; d] ->
  s = a ++ String c "" ++ b ++ String c "" ++ d /\
  has_char c a = false /\ has_char c b = false /\ has_char c d = false.
Proof.
  intros Hs. pose proof (join_split c s) as Hj. pose proof (split_no_separator c s) as Hn.
  rewrite Hs in Hj, Hn. rewrite !join_cons in Hj. cbn [join String.concat] in Hj.
  inversion Hn as [|? ? Ha Hn1]; subst. inversion Hn1 as [|? ? Hb Hn2]; subst.
  inversion Hn2 as [|? ? Hd _]; subst. repeat split; assumption || reflexivity.
Qed.

(** A path that [parseSkillPath] accepts starts with the prefix and
    decodes to an id of exactly three non-empty parts without a slash,
    which joined by slashes are the id again. *)
Theorem parseSkillPath_parts `{P : Platform} (pathname prefix id owner repo skillId : string) :
  parseSkillPath pathname prefix = Some (id, owner, repo, skillId) ->
  startsWith pathname prefix = true /\
  decodeURIComponent (slice_from (String.length prefix) pathname) = Some id /\
  id = owner ++ "/" ++ repo ++ "/" ++ skillId /\
  split "/" id = [owner; repo; skillId] /\
  (truthy owner = true /\ truthy repo = true /\ truthy skillId = true) /\
  (has_char "/" owner = false /\ has_char "/" repo = false /\ has_char "/" skillId = false).
Proof.
  unfold parseSkillPath. intros H.
  destruct (startsWith pathname prefix); [|discriminate]. cbn [negb] in H.
  destruct (truthy (slice_from _ _)); [|discriminate]. cbn [negb] in H.
  destruct (decodeURIComponent _) as [decoded|]; [|discriminate].
  destruct (split "/" decoded) as [|a [|b [|d [|]]]] eqn:Hsplit; try discriminate.
  destruct (truthy a) eqn:Ha, (truthy b) eqn:Hb, (truthy d) eqn:Hd; try discriminate.
  cbn in H. injection H as <- <- <- <-.
  destruct (split_three _ _ _ _ _ Hsplit) as (Hid & Hna & Hnb & Hnd).
  repeat split; assumption.
Qed.

Lemma parseSkillPath_parts_witness :
  parseSkillPath (P := sample_platform) "/v1/skills/o/r/beta" "/v1/skills/"
    = Some ("o/r/beta", "o", "r", "beta") /\
  "o/r/beta" = "o" ++ "/" ++ "r" ++ "/" ++ "beta".
Proof.
  assert (H : parseSkillPath (P := sample_platform) "/v1/skills/o/r/beta" "/v1/skills/"
              = Some ("o/r/beta", "o", "r", "beta")) by reflexivity.
  split; [exact H|].
  exact (proj1 (proj2 (proj2 (parseSkillPath_parts (P := sample_platform) _ _ _ _ _ _ H)))).
Defined.

(** Whatever record [buildSnapshotSkillRecord] synthesizes carries the
    requested id, which is [owner/repo/leaf] for the record's owner and
    repo; its URLs, run id and fetch time are functions of the id and the
    snapshot date alone, and the fields the compact layout lacks are
    [null]. A synthesized metrics response is a single point for the
    requested id and date with only the total installs. *)
Theorem synthesized_identity `{P : Platform} (env : Env) (snapshotDate skillId : string)
    (request : Request) :
  returns (buildSnapshotSkillRecord env snapshotDate skillId request)
    (fun r => forall record, r = Some record ->
       SkillRecord.id record = skillId /\
       (exists leaf,
          skillId = SkillRecord.owner record ++ "/" ++ SkillRecord.repo record ++ "/" ++ leaf /\
          truthy leaf = true /\ has_char "/" leaf = false) /\
       truthy (SkillRecord.owner record) = true /\
       truthy (SkillRecord.repo record) = true /\
       has_char "/" (SkillRecord.owner record) = false /\
       has_char "/" (SkillRecord.repo record) = false /\
       SkillRecord.canonical_url record = "https://skills.sh/" ++ skillId /\
       SkillRecord.github_url record
         = "https://github.com/" ++ SkillRecord.owner record ++ "/" ++ SkillRecord.repo record /\
       SkillRecord.run_id record = "snapshot-" ++ snapshotDate /\
       SkillRecord.fetched_at record = snapshotDate ++ "T00:00:00.000Z" /\
       SkillRecord.parser_version record = "snapshot-proxy" /\
       SkillRecord.weekly_installs record = None /\
       SkillRecord.description record = None /\
       SkillRecord.platform_installs record = None) /\
  returns (buildSnapshotMetricsResponse env snapshotDate skillId request)
    (fun r => forall metrics, r = Some metrics ->
       MetricsResponse.id metrics = skillId /\
       exists total,
         MetricsResponse.items metrics
         = [ {| MetricsItem.id := skillId; MetricsItem.snapshot_date := snapshotDate;
                MetricsItem.total_installs := total; MetricsItem.weekly_installs := None;
                MetricsItem.platform_installs := None |} ]).
Proof.
  split.
  - unfold buildSnapshotSkillRecord.
    destruct (split "/" skillId) as [|owner [|repo [|leaf [|]]]] eqn:Hsplit;
      try (apply returns_ret; discriminate).
    destruct (truthy owner) eqn:Ho, (truthy repo) eqn:Hr, (truthy leaf) eqn:Hl;
      cbn [negb orb]; try (apply returns_ret; discriminate).
    destruct (split_three _ _ _ _ _ Hsplit) as (Hid & Hno & Hnr & Hnl).
    apply returns_bind. intros lookup.
    destruct (lookup_entry lookup skillId) as [entry|]; [|apply returns_ret; discriminate].
    apply returns_bind. intros page.
    destruct (page_row page _) as [raw|]; [|apply returns_ret; discriminate].
    apply returns_bind. intros sm. apply returns_ret.
    intros record [= <-]. cbn.
    split; [reflexivity|]. split; [exists leaf; repeat split; assumption|].
    repeat split; try assumption. rewrite Hid. reflexivity.
  - unfold buildSnapshotMetricsResponse. apply returns_bind. intros lookup.
    destruct (lookup_entry lookup skillId) as [entry|]; [|apply returns_ret; discriminate].
    apply returns_bind. intros page.
    destruct (page_row page _) as [raw|]; [|apply returns_ret; discriminate].
    apply returns_ret. intros metrics [= <-]. cbn. split; [reflexivity|].
    eexists. reflexivity.
Qed.

Lemma synthesized_identity_witness :
  exists record w',
    buildSnapshotSkillRecord (P := sample_platform) compact_env sample_date "o/r/beta"
      (sample_request "/v1/skills/o%2Fr%2Fbeta" []) initialWorld = (Ok (Some record), w') /\
    SkillRecord.canonical_url record = "https://skills.sh/o/r/beta" /\
    SkillRecord.github_url record = "https://github.com/o/r" /\
    SkillRecord.fetched_at record = "2025-01-15T00:00:00.000Z".
Proof.
  pose proof (proj1 (synthesized_identity (P := sample_platform) compact_env sample_date
                       "o/r/beta" (sample_request "/v1/skills/o%2Fr%2Fbeta" []))
                initialWorld) as H.
  destruct (buildSnapshotSkillRecord (P := sample_platform) compact_env sample_date
              "o/r/beta" (sample_request "/v1/skills/o%2Fr%2Fbeta" []) initialWorld)
    as [[[record|]|e] w'] eqn:Hrun;
    [|vm_compute in Hrun; discriminate Hrun..].
  exists record, w'. split; [reflexivity|].
  destruct (H record eq_refl)
    as (_ & _ & _ & _ & _ & _ & Hurl & Hgit & _ & Hat & _).
  split; [exact Hurl|]. split; [|exact Hat].
  rewrite Hgit. vm_compute in Hrun. injection Hrun as <- _. reflexivity.
Defined.

(** ** Dates *)

Lemma length_append_string a b : String.length (a ++ b) = (String.length a + String.length b)%nat.
Proof.
  induction a as [|x a IH]; [reflexivity|].
  change (String.length (String x a ++ b)) with (S (String.length (a ++ b))).
  rewrite IH. reflexivity.
Qed.

Lemma all_chars_append p a b : all_chars p (a ++ b) = all_chars p a && all_chars p b.
Proof.
  induction a as [|x a IH]; [reflexivity|].
  change (all_chars p (String x a ++ b)) with (p x && all_chars p (a ++ b)).
  rewrite IH. apply andb_assoc.
Qed.

Lemma all_digits_all_chars (p : ascii -> bool) s :
  (forall c, is_digit c = true -> p c = true) -> all_digits s = true -> all_chars p s = true.
Proof.
  intros Hp. induction s as [|x s IH]; cbn; [reflexivity|].
  intros H. apply andb_true_iff in H as [Hx Hs]. rewrite (Hp x Hx), (IH Hs). reflexivity.
Qed.

Lemma all_chars_has_char p c s : p c = false -> all_chars p s = true -> has_char c s = false.
Proof.
  intros Hc. induction s as [|x s IH]; cbn; [reflexivity|].
  intros H. apply andb_true_iff in H as [Hx Hs]. rewrite (IH Hs), orb_false_r.
  destruct (Ascii.eqb_spec x c) as [->|]; [congruence | reflexivity].
Qed.

Lemma days_in_month_le y m : days_in_month y m <= 31.
Proof.
  unfold days_in_month. destruct (m =? 2); [destruct (is_leap y); lia|].
  destruct (_ || _); lia.
Qed.

(** A string that [isDateString] accepts has the form [YYYY-MM-DD]: ten
    characters, each a digit or a dash, so no slash; its year is at least
    100, its month from 1 to 12 and its day a day of that month. *)
Theorem isDateString_shape (value : string) :
  isDateString value = true ->
  String.length value = 10%nat /\
  all_chars (fun c => is_digit c || Ascii.eqb c "-") value = true /\
  has_char "/" value = false /\
  exists y m d,
    value = y ++ "-" ++ m ++ "-" ++ d /\
    (String.length y = 4 /\ String.length m = 2 /\ String.length d = 2)%nat /\
    100 <= digits_value 0 y /\
    1 <= digits_value 0 m <= 12 /\
    1 <= digits_value 0 d <= days_in_month (digits_value 0 y) (digits_value 0 m) /\
    digits_value 0 d <= 31.
Proof.
  unfold isDateString, DATE_RE_test. intros H.
  destruct (split "-" value) as [|y [|m [|d [|]]]] eqn:Hsplit; try discriminate.
  repeat (apply andb_true_iff in H as [H ?]).
  repeat match goal with
         | Hx : (_ =? _)%nat = true |- _ => apply Nat.eqb_eq in Hx
         end.
  destruct (split_three _ _ _ _ _ Hsplit) as (Hv & _).
  assert (Hchars : all_chars (fun c => is_digit c || Ascii.eqb c "-") value = true).
  { assert (Hd : forall s, all_digits s = true ->
                        all_chars (fun c => is_digit c || Ascii.eqb c "-") s = true)
      by (intros s; apply all_digits_all_chars; intros c Hc; rewrite Hc; reflexivity).
    rewrite Hv, !all_chars_append, (Hd y), (Hd m), (Hd d) by assumption. reflexivity. }
  split; [rewrite Hv, !length_append_string; cbn; lia|].
  split; [exact Hchars|].
  split; [exact (all_chars_has_char (fun c => is_digit c || Ascii.eqb c "-") "/" value
                   eq_refl Hchars)|].
  exists y, m, d. pose proof (days_in_month_le (digits_value 0 y) (digits_value 0 m)).
  repeat split; try assumption; lia.
Qed.

Lemma isDateString_shape_witness :
  String.length "2024-02-29" = 10%nat /\ has_char "/" "2024-02-29" = false.
Proof.
  destruct (isDateString_shape "2024-02-29" eq_refl) as (Hlen & _ & Hslash & _).
  split; assumption.
Defined.

(** ** Response headers *)

Lemma has_cache_control_set k v o :
  has_cache_control (obj_set k v o)
  = has_cache_control o || String.eqb (toLowerCase k) "cache-control".
Proof.
  induction o as [|[k' v'] o IH]; cbn [obj_set].
  - cbn. rewrite orb_false_r. reflexivity.
  - destruct (String.eqb_spec k k') as [<-|Hne].
    + cbn. destruct (String.eqb (toLowerCase k) "cache-control"), (existsb _ o); reflexivity.
    + unfold has_cache_control in *. cbn [existsb fst]. rewrite IH. rewrite orb_assoc.
      reflexivity.
Qed.

Lemma has_cache_control_spread b : forall a,
  has_cache_control (obj_spread a b) = has_cache_control a || has_cache_control b.
Proof.
  unfold obj_spread.
  induction b as [|[k v] b IH]; intros a; cbn [fold_left fst snd].
  - cbn. rewrite orb_false_r. reflexivity.
  - rewrite IH, has_cache_control_set. cbn. rewrite <- orb_assoc. reflexivity.
Qed.

Lemma obj_get_set {V} k k' (v : V) o :
  obj_get k (obj_set k' v o) = if String.eqb k k' then Some v else obj_get k o.
Proof.
  induction o as [|[k0 v0] o IH]; cbn [obj_set obj_get].
  - reflexivity.
  - destruct (String.eqb_spec k' k0) as [<-|Hne0]; cbn [obj_get].
    + destruct (String.eqb k k'); reflexivity.
    + rewrite IH. destruct (String.eqb_spec k k0) as [->|]; [|reflexivity].
      destruct (String.eqb_spec k0 k'); [congruence | reflexivity].
Qed.

Lemma obj_get_spread_absent {V} k (b : list (string * V)) : forall a,
  obj_get k b = None -> obj_get k (obj_spread a b) = obj_get k a.
Proof.
  unfold obj_spread.
  induction b as [|[k' v] b IH]; intros a Hb; cbn [fold_left fst snd]; [reflexivity|].
  cbn [obj_get] in Hb. destruct (String.eqb k k') eqn:Hk; [discriminate|].
  rewrite (IH _ Hb), obj_get_set, Hk. reflexivity.
Qed.

(** [json] keeps the status and the payload. A response with a 2xx
    status always leaves with a [cache-control] header, the default one
    when the caller gave none under any capitalisation; any other
    response has a [cache-control] header only if the caller gave one.
    The content type, [nosniff] and CORS headers are there whenever the
    caller's headers do not replace them. *)
Theorem json_headers (data : Body) (st : Z) (extra : StrMap) :
  let r := json data st extra in
  status r = st /\ body r = data /\
  (200 <= st < 300 ->
     has_cache_control (headers r) = true /\
     (has_cache_control extra = false ->
      obj_get "cache-control" (headers r) = Some "public, max-age=60, s-maxage=60")) /\
  (~ 200 <= st < 300 -> has_cache_control (headers r) = has_cache_control extra) /\
  (forall k, obj_get k extra = None -> k <> "cache-control" ->
     obj_get k (headers r)
     = obj_get k [ ("content-type", "application/json; charset=utf-8");
                   ("X-Content-Type-Options", "nosniff");
                   ("Access-Control-Allow-Origin", "*");
                   ("Access-Control-Allow-Methods", "GET, OPTIONS");
                   ("Access-Control-Allow-Headers", "Content-Type") ]).
Proof.
  cbn zeta. split; [reflexivity|]. split; [reflexivity|].
  unfold json. cbn [headers].
  set (base := obj_spread _ CORS_HEADERS).
  assert (Hbase : has_cache_control (obj_spread base extra) = has_cache_control extra)
    by (rewrite has_cache_control_spread; reflexivity).
  split; [|split].
  - intros Hst.
    assert (H2xx : (200 <=? st) && (st <? 300) = true) by lia.
    rewrite H2xx, Hbase. cbn [andb]. destruct (has_cache_control extra) eqn:Hextra; cbn [negb].
    + split; [exact Hbase | discriminate].
    + split; [rewrite has_cache_control_set, Hbase; reflexivity|].
      intros _. rewrite obj_get_set. reflexivity.
  - intros Hst.
    assert (H2xx : (200 <=? st) && (st <? 300) = false) by lia.
    rewrite H2xx. cbn [andb]. exact Hbase.
  - intros k Hk Hcc.
    assert (Hget : obj_get k (obj_spread base extra) = obj_get k base)
      by (apply obj_get_spread_absent; exact Hk).
    destruct ((200 <=? st) && (st <? 300) && negb (has_cache_control (obj_spread base extra))).
    + rewrite obj_get_set. destruct (String.eqb_spec k "cache-control"); [contradiction|].
      exact Hget.
    + exact Hget.
Qed.

Lemma json_headers_witness :
  has_cache_control (headers (json (BodyError "Not found") 404 [])) = false /\
  obj_get "cache-control" (headers (json BodyNull 200 []))
    = Some "public, max-age=60, s-maxage=60".
Proof.
  destruct (json_headers (BodyError "Not found") 404 []) as (_ & _ & _ & Herr & _).
  destruct (json_headers BodyNull 200 []) as (_ & _ & Hok & _).
  split.
  - rewrite Herr by lia. reflexivity.
  - apply Hok; [lia | reflexivity].
Defined.

(** ** RateLimiter: sweeping, counts and isolation *)

Lemma sweep_lookup_Some nowMs w cid c :
  rateLimitByClient (sweepExpiredRateLimitEntries nowMs w) !! cid = Some c ->
  rateLimitByClient w !! cid = Some c.
Proof.
  unfold sweepExpiredRateLimitEntries. destruct (_ <? _); [trivial|]. cbn.
  intros H. apply map_lookup_filter_Some in H as [H _]. exact H.
Qed.

(** A sweep does nothing until 60,000 ms have passed since the last one;
    then it records its time and keeps exactly the entries whose window
    is still open, and the next sweep within the window changes nothing
    again. *)
Theorem sweep_once_per_window (nowMs : Z) (w : World) :
  (nowMs - lastRateLimitSweepMs w < 60000 -> sweepExpiredRateLimitEntries nowMs w = w) /\
  (60000 <= nowMs - lastRateLimitSweepMs w ->
     let w' := sweepExpiredRateLimitEntries nowMs w in
     lastRateLimitSweepMs w' = nowMs /\
     (forall cid c,
        rateLimitByClient w' !! cid = Some c <->
        rateLimitByClient w !! cid = Some c /\ nowMs - windowStartMs c < 60000) /\
     (forall later, later - nowMs < 60000 -> sweepExpiredRateLimitEntries later w' = w') /\
     edgeCache w' = edgeCache w /\ trace w' = trace w /\
     parsedSearchCache w' = parsedSearchCache w /\
     cachedLatestManifest w' = cachedLatestManifest w).
Proof.
  unfold sweepExpiredRateLimitEntries, RATE_LIMIT_WINDOW_MS. split.
  - intros H. assert ((nowMs - lastRateLimitSweepMs w <? 60000) = true) as -> by lia.
    reflexivity.
  - intros H. assert ((nowMs - lastRateLimitSweepMs w <? 60000) = false) as -> by lia.
    cbn. split; [reflexivity|]. split; [|split; [|repeat split]].
    + intros cid c. rewrite map_lookup_filter_Some. cbn. split; intros [H1 H2]; split;
        trivial; lia.
    + intros later Hl. assert ((later - nowMs <? 60000) = true) as -> by lia. reflexivity.
Qed.

Lemma sweep_once_per_window_witness :
  sweepExpiredRateLimitEntries 100 initialWorld = initialWorld /\
  lastRateLimitSweepMs (sweepExpiredRateLimitEntries 60000 initialWorld) = 60000.
Proof.
  split.
  - apply (proj1 (sweep_once_per_window 100 initialWorld)). cbn. lia.
  - apply (proj2 (sweep_once_per_window 60000 initialWorld)). cbn. lia.
Defined.

Lemma sweep_counts_in_range nowMs w :
  counts_in_range w -> counts_in_range (sweepExpiredRateLimitEntries nowMs w).
Proof. intros Hinv cid c Hc. apply (Hinv cid), sweep_lookup_Some with nowMs, Hc. Qed.

Lemma set_rateLimit_counts_in_range cid st w :
  1 <= count st <= RATE_LIMIT_MAX_REQUESTS ->
  counts_in_range w -> counts_in_range (set_rateLimit cid st w).
Proof.
  intros Hst Hinv cid' c. unfold set_rateLimit. cbn.
  destruct (decide (cid = cid')) as [<-|Hne].
  - rewrite lookup_insert_eq. intros [= <-]. exact Hst.
  - rewrite lookup_insert_ne by exact Hne. apply Hinv.
Qed.

Lemma enforceRateLimit_counts_in_range nowMs request w :
  counts_in_range w -> counts_in_range (snd (enforceRateLimit nowMs request w)).
Proof.
  intros Hinv. apply (sweep_counts_in_range nowMs) in Hinv.
  unfold enforceRateLimit, start_window.
  destruct (rateLimitByClient _ !! _) as [cur|] eqn:Hcur.
  - pose proof (Hinv _ _ Hcur) as Hrange.
    destruct (window_elapsed nowMs cur); [|destruct (count cur >=? _) eqn:Hfull]; cbn [snd].
    + apply set_rateLimit_counts_in_range; [cbn; unfold RATE_LIMIT_MAX_REQUESTS; lia | exact Hinv].
    + exact Hinv.
    + apply set_rateLimit_counts_in_range; [cbn; lia | exact Hinv].
  - cbn [snd]. apply set_rateLimit_counts_in_range;
      [cbn; unfold RATE_LIMIT_MAX_REQUESTS; lia | exact Hinv].
Qed.

(** The count of a stored window stays between 1 and 60: the limiter
    keeps this through every request, so it holds after any sequence of
    requests from the initial state; and what an admitted request is told
    as remaining is 60 minus the client's count, never negative. *)
Theorem rate_counts_bounded (reqs : list (Z * Request)) (nowMs : Z) (request : Request)
    (w : World) :
  counts_in_range (limiter_run reqs initialWorld) /\
  (counts_in_range w ->
     let out := enforceRateLimit nowMs request w in
     counts_in_range (snd out) /\
     (blocked (fst out) = None ->
        exists c,
          rateLimitByClient (snd out) !! getRateLimitClientId request = Some c /\
          0 <= 60 - count c <= 59 /\
          rl_headers (fst out)
          = [ ("X-RateLimit-Limit", String_of 60);
              ("X-RateLimit-Remaining", String_of (60 - count c));
              ("X-RateLimit-Reset", String_of (Math_ceil_div (windowStartMs c + 60000) 1000)) ])).
Proof.
  split.
  - assert (Hgen : forall rs w0, counts_in_range w0 -> counts_in_range (limiter_run rs w0)).
    { induction rs as [|[t r] rs IH]; intros w0 H0; cbn; [exact H0|].
      apply IH, enforceRateLimit_counts_in_range, H0. }
    apply Hgen. intros cid c Hc. cbn in Hc. rewrite lookup_empty in Hc. discriminate.
  - intros Hinv out. split; [apply enforceRateLimit_counts_in_range; exact Hinv|].
    pose proof (enforceRateLimit_counts_in_range nowMs request w Hinv) as Hinv'.
    fold out in Hinv'. subst out. revert Hinv'.
    unfold enforceRateLimit, start_window, rateLimitHeaders, resetEpochSeconds,
      RATE_LIMIT_MAX_REQUESTS, RATE_LIMIT_WINDOW_MS, Math_max.
    destruct (rateLimitByClient _ !! _) as [cur|] eqn:Hcur;
      [destruct (window_elapsed nowMs cur); [|destruct (count cur >=? 60) eqn:Hfull]|];
      cbn [fst snd blocked rl_headers]; intros Hinv' Hadm; try discriminate.
    all: eexists; split; [unfold set_rateLimit; cbn; apply lookup_insert_eq|].
    all: match goal with
         | |- context [count ?c] =>
             pose proof (Hinv' (getRateLimitClientId request) c
                           ltac:(unfold set_rateLimit; cbn; apply lookup_insert_eq)) as Hc
         end.
    all: cbn [count windowStartMs] in *; unfold RATE_LIMIT_MAX_REQUESTS in Hc.
    all: split; [lia|]. 
    all: repeat f_equal; lia.
Qed.

Lemma rate_counts_bounded_witness :
  counts_in_range (snd (enforceRateLimit 0 tool_request initialWorld)).
Proof.
  apply (proj2 (rate_counts_bounded [] 0 tool_request initialWorld)).
  intros cid c Hc. cbn in Hc. rewrite lookup_empty in Hc. discriminate.
Defined.

(** A request changes no other client's window: afterwards another
    client has either the entry it had or, when that window had elapsed
    and a sweep was due, none; an open window always survives. *)
Theorem other_clients_untouched (nowMs : Z) (request : Request) (w : World) (cid : string) :
  getRateLimitClientId request <> cid ->
  let w' := snd (enforceRateLimit nowMs request w) in
  (forall c, rateLimitByClient w' !! cid = Some c -> rateLimitByClient w !! cid = Some c) /\
  (forall c, rateLimitByClient w !! cid = Some c -> nowMs - windowStartMs c < 60000 ->
     rateLimitByClient w' !! cid = Some c) /\
  (rateLimitByClient w !! cid = None -> rateLimitByClient w' !! cid = None).
Proof.
  intros Hne w'. subst w'.
  assert (Hother : rateLimitByClient (snd (enforceRateLimit nowMs request w)) !! cid
                   = rateLimitByClient (sweepExpiredRateLimitEntries nowMs w) !! cid).
  { unfold enforceRateLimit, start_window.
    destruct (rateLimitByClient _ !! getRateLimitClientId request) as [cur|].
    - destruct (window_elapsed nowMs cur); [|destruct (count cur >=? _)]; cbn;
        rewrite ?lookup_insert_ne by exact Hne; reflexivity.
    - cbn. rewrite lookup_insert_ne by exact Hne. reflexivity. }
  rewrite Hother. split; [|split].
  - intros c. apply sweep_lookup_Some.
  - intros c Hc Hlive. apply sweep_lookup_live; [exact Hc|].
    unfold window_elapsed, RATE_LIMIT_WINDOW_MS. lia.
  - apply sweep_lookup_None.
Qed.

Lemma other_clients_untouched_witness :
  rateLimitByClient
    (snd (enforceRateLimit 10 post_request
            (snd (enforceRateLimit 5 tool_request initialWorld)))) !! sample_client
  = Some {| windowStartMs := 5; count := 1 |}.
Proof.
  apply (other_clients_untouched 10 post_request
           (snd (enforceRateLimit 5 tool_request initialWorld)) sample_client).
  - discriminate.
  - vm_compute. reflexivity.
  - cbn. lia.
Defined.

(** ** Router: order of limiting and data access *)

Lemma startsWith_append p q : startsWith p q = true -> exists rest, p = q ++ rest.
Proof.
  unfold startsWith. revert p. induction q as [|c q IH]; intros p H.
  - exists p. reflexivity.
  - destruct p as [|a p]; [discriminate H|]. cbn [String.prefix] in H.
    destruct (ascii_dec c a) as [<-|]; [|discriminate H].
    destruct (IH p H) as [rest ->]. exists rest. reflexivity.
Qed.

Lemma startsWith_v1_not_static p tail :
  startsWith p (String "/" (String "v" (String "1" tail))) = true ->
  startsWith p "/data/v1/" = false.
Proof.
  intros H. apply startsWith_append in H as [rest ->].
  unfold startsWith. cbn [String.prefix String.append].
  destruct (ascii_dec "/" "/"); [|reflexivity].
  destruct (ascii_dec "d" "v"); [discriminate | reflexivity].
Qed.

Lemma route_rate_limited `{P : Platform} clock request env :
  method request = "GET" -> rate_limited_path (pathname request) ->
  exists handler, route clock request env = rateLimited clock request handler.
Proof.
  intros Hm Hp. unfold route. rewrite Hm.
  change ("GET" =? "OPTIONS")%string with false. change ("GET" =? "GET")%string with true.
  cbv iota. cbn [negb]. change ("/" ++ DATA_PREFIX ++ "/") with "/data/v1/".
  destruct Hp as [Hp|[Hp|[Hp|[Hp|Hp]]]]; try (rewrite Hp; eexists; reflexivity).
  - rewrite (startsWith_v1_not_static _ _ Hp). cbn [andb].
    destruct (String.eqb _ "/healthz") eqn:E1.
    { apply String.eqb_eq in E1. rewrite E1 in Hp. vm_compute in Hp. discriminate. }
    destruct (String.eqb _ "/v1/stats/summary") eqn:E2.
    { apply String.eqb_eq in E2. rewrite E2 in Hp. vm_compute in Hp. discriminate. }
    destruct (String.eqb _ "/v1/skills") eqn:E3.
    { apply String.eqb_eq in E3. rewrite E3 in Hp. vm_compute in Hp. discriminate. }
    rewrite Hp. eexists. reflexivity.
  - rewrite (startsWith_v1_not_static _ _ Hp). cbn [andb].
    destruct (String.eqb _ "/healthz") eqn:E1.
    { apply String.eqb_eq in E1. rewrite E1 in Hp. vm_compute in Hp. discriminate. }
    destruct (String.eqb _ "/v1/stats/summary") eqn:E2.
    { apply String.eqb_eq in E2. rewrite E2 in Hp. vm_compute in Hp. discriminate. }
    destruct (String.eqb _ "/v1/skills") eqn:E3.
    { apply String.eqb_eq in E3. rewrite E3 in Hp. vm_compute in Hp. discriminate. }
    destruct (startsWith _ "/v1/skills/") eqn:E4; [eexists; reflexivity|].
    rewrite Hp. eexists. reflexivity.
Qed.

(** On every rate-limited route the limiter decides first: a request it
    blocks is answered with its 429 and nothing else happens, no storage
    operation and no change to the edge cache, to the decoded caches or
    to any client's count. *)
Theorem blocked_before_data_access `{P : Platform} (clock : Clock) (request : Request)
    (env : Env) (w : World) (resp : Response) :
  method request = "GET" -> rate_limited_path (pathname request) ->
  blocked (fst (enforceRateLimit (rateLimitNow clock) request w)) = Some resp ->
  let out := fetch clock request env w in
  fst out = resp /\ status resp = 429 /\
  trace (snd out) = trace w /\ edgeCache (snd out) = edgeCache w /\
  same_decoded w (snd out) /\
  rateLimitByClient (snd out)
  = rateLimitByClient (sweepExpiredRateLimitEntries (rateLimitNow clock) w).
Proof.
  intros Hm Hp Hb out. subst out.
  destruct (route_rate_limited clock request env Hm Hp) as [handler Hroute].
  pose proof (blocked_status _ _ _ _ Hb) as Hst.
  pose proof (enforceRateLimit_trace (rateLimitNow clock) request w) as (Ht & He & Hs & Hc).
  assert (Hmap : rateLimitByClient (snd (enforceRateLimit (rateLimitNow clock) request w))
                 = rateLimitByClient (sweepExpiredRateLimitEntries (rateLimitNow clock) w)).
  { revert Hb. unfold enforceRateLimit, start_window.
    destruct (rateLimitByClient _ !! _) as [cur|]; [|discriminate].
    destruct (window_elapsed _ cur); [discriminate|].
    destruct (count cur >=? _); [reflexivity | discriminate]. }
  unfold fetch. rewrite Hroute. unfold rateLimited.
  destruct (enforceRateLimit (rateLimitNow clock) request w) as [r w1]. cbn in *.
  rewrite Hb. cbn. repeat split; assumption.
Qed.

Lemma blocked_before_data_access_witness :
  let out := fetch (P := sample_platform) sample_clock tool_request
               (indexed_env manifest_text) exhausted_world in
  status (fst out) = 429 /\ trace (snd out) = [].
Proof.
  edestruct (blocked_before_data_access (P := sample_platform) sample_clock tool_request
               (indexed_env manifest_text) exhausted_world)
    as (Hresp & Hstatus & Htrace & _).
  - reflexivity.
  - right. right. left. reflexivity.
  - vm_compute. reflexivity.
  - cbn zeta. rewrite Hresp. split; [exact Hstatus | exact Htrace].
Defined.

(** ** CacheTier: hits, write-through and absence *)



(** Absence is not cached. A miss that finds no object returns [null]
    and leaves the edge cache as it was, so once the object exists the
    next load finds it; and without a bucket binding a load returns
    [null] at once, without consulting even a populated edge cache. *)
Theorem absent_objects_not_cached (env env' : Env) (bucket bucket' : gmap string string)
    (key : string) (request : Request) (cacheSuffix text : string) (w : World) :
  (SKILLSIGHT_DATA env = Some bucket -> SKILLSIGHT_DATA env' = Some bucket' ->
   edgeCache w !! cacheRequest request cacheSuffix = None ->
   bucket !! key = None -> bucket' !! key = Some text ->
   let cacheKey := cacheRequest request cacheSuffix in
   let first := loadJsonTextWithCache env key request cacheSuffix w in
   let second := loadJsonTextWithCache env' key request cacheSuffix (snd first) in
   fst first = Ok None /\
   edgeCache (snd first) = edgeCache w /\
   trace (snd first) = (trace w ++ [CacheMatch cacheKey false; BucketGet key false])%list /\
   fst second = Ok (Some text) /\
   edgeCache (snd second) !! cacheKey = Some text) /\
  (SKILLSIGHT_DATA env = None ->
   loadJsonTextWithCache env key request cacheSuffix w = (Ok None, w)).
Proof.
  split.
  - intros Hb Hb' Hc Hk Hk' cacheKey first second. subst second first.
    rewrite (loadJsonTextWithCache_not_found env bucket key request cacheSuffix w Hb Hc Hk).
    cbn [fst snd].
    rewrite (loadJsonTextWithCache_found env' bucket' key request cacheSuffix text)
      by assumption.
    cbn. repeat split. apply lookup_insert_eq.
  - intros Hb. unfold loadJsonTextWithCache. rewrite Hb. reflexivity.
Qed.

Lemma absent_objects_not_cached_witness :
  let first := loadJsonTextWithCache (bucket_of []) LATEST_MANIFEST_KEY tool_request
                 "latest-manifest" initialWorld in
  fst first = Ok None /\
  fst (loadJsonTextWithCache (indexed_env manifest_text) LATEST_MANIFEST_KEY tool_request
         "latest-manifest" (snd first)) = Ok (Some manifest_text).
Proof.
  edestruct (absent_objects_not_cached (bucket_of []) (indexed_env manifest_text)
               ∅ (default ∅ (SKILLSIGHT_DATA (indexed_env manifest_text)))
               LATEST_MANIFEST_KEY tool_request "latest-manifest" manifest_text initialWorld)
    as [Hcold _].
  edestruct Hcold as (Hfirst & _ & _ & Hsecond & _).
  - reflexivity.
  - reflexivity.
  - reflexivity.
  - reflexivity.
  - vm_compute. reflexivity.
  - split; [exact Hfirst | exact Hsecond].
Defined.

(** ** ManifestResolver and search index: the decoded caches *)

Lemma ensures_ret {A} (a : A) (Q : A -> World -> Prop) : (forall w, Q a w) -> ensures (ret a) Q.
Proof. intros H w. apply H. Qed.

Lemma ensures_throw {A} (e : string) (Q : A -> World -> Prop) : ensures (throw e) Q.
Proof. intros w. exact I. Qed.

Lemma ensures_bind_at {A B} (m : M A) (k : A -> M B) (Q : B -> World -> Prop) w :
  (forall a, ensures (k a) Q) -> ensures_at (bind m k) Q w.
Proof.
  intros H. unfold ensures_at, bind. destruct (m w) as [[a|e] w1]; [apply H | exact I].
Qed.

Lemma ensures_bind {A B} (m : M A) (k : A -> M B) (Q : B -> World -> Prop) :
  (forall a, ensures (k a) Q) -> ensures (bind m k) Q.
Proof. intros H w. apply ensures_bind_at, H. Qed.

Lemma valid_date_Some `{P : Platform} x d : valid_date x = Some d -> isDateString d = true.
Proof.
  unfold valid_date. destruct x as [s|]; [|discriminate].
  destruct (truthy s); cbn; [|discriminate].
  destruct (isDateString s) eqn:E; [|discriminate]. intros [= <-]. exact E.
Qed.

Lemma remember_manifest_ensures `{P : Platform} nowMs manifest :
  isDateString (snapshot_date manifest) = true ->
  ensures (remember_manifest nowMs manifest)
    (fun r w' => forall m, r = Some m ->
       cachedLatestManifest w' = Some {| cm_loadedAtMs := nowMs; cm_manifest := m |} /\
       isDateString (snapshot_date m) = true).
Proof. intros Hd w m [= <-]. split; [reflexivity | exact Hd]. Qed.

Lemma loadLatestManifest_stores `{P : Platform} nowMs env request w :
  fresh_manifest nowMs (cachedLatestManifest w) = None ->
  ensures_at (loadLatestManifest nowMs env request)
    (fun r w' => forall m, r = Some m ->
       cachedLatestManifest w' = Some {| cm_loadedAtMs := nowMs; cm_manifest := m |} /\
       isDateString (snapshot_date m) = true) w.
Proof.
  intros Hfresh. unfold ensures_at, loadLatestManifest. rewrite bind_get_world, Hfresh.
  apply ensures_bind_at. intros webManifestText.
  destruct (present webManifestText) as [text|].
  - apply ensures_bind. intros parsed.
    destruct (valid_date (lmj_snapshot_date parsed)) as [d|] eqn:Hd; [|apply ensures_throw].
    apply remember_manifest_ensures. cbn. eapply valid_date_Some, Hd.
  - apply ensures_bind. intros snapshotLatestText.
    destruct (present snapshotLatestText) as [text|];
      [|apply ensures_ret; intros ? ? H; discriminate H].
    apply ensures_bind. intros parsed.
    destruct (valid_date (date parsed)) as [d|] eqn:Hd; [|apply ensures_throw].
    apply ensures_bind. intros sm. apply remember_manifest_ensures.
    destruct sm; cbn; eapply valid_date_Some, Hd.
Qed.

Lemma null_keeps_ret_Some {A} (a : A) : null_keeps_decoded (ret (Some a)).
Proof. intros w w' H. discriminate. Qed.

Lemma null_keeps_ret_None {A} : null_keeps_decoded (ret (None (A := A))).
Proof. intros w w' [= <-]. apply same_decoded_refl. Qed.

Lemma null_keeps_throw {A} e : null_keeps_decoded (throw (A := option A) e).
Proof. intros w w' H. discriminate. Qed.

Lemma null_keeps_bind {A B} (m : M A) (k : A -> M (option B)) :
  keeps_decoded m -> (forall a, null_keeps_decoded (k a)) -> null_keeps_decoded (bind m k).
Proof.
  intros Hm Hk w w' Hrun. unfold bind in Hrun. specialize (Hm w).
  destruct (m w) as [[a|e] w1]; cbn in Hm; [|discriminate].
  eapply same_decoded_trans; [exact Hm | eapply Hk; exact Hrun].
Qed.

Lemma loadLatestManifest_null_keeps `{P : Platform} nowMs env request :
  null_keeps_decoded (loadLatestManifest nowMs env request).
Proof.
  unfold loadLatestManifest.
  apply null_keeps_bind; [apply keeps_get_world|]. intros w0.
  destruct (fresh_manifest _ _); [apply null_keeps_ret_Some|].
  apply null_keeps_bind; [apply keeps_loadJsonTextWithCache|]. intros webManifestText.
  destruct (present webManifestText) as [text|].
  - apply null_keeps_bind; [apply keeps_parseJson|]. intros parsed.
    destruct (valid_date _); [|apply null_keeps_throw].
    intros w w' H. discriminate.
  - apply null_keeps_bind; [apply keeps_loadJsonTextWithCache|]. intros snapshotLatestText.
    destruct (present snapshotLatestText) as [text|]; [|apply null_keeps_ret_None].
    apply null_keeps_bind; [apply keeps_parseJson|]. intros parsed.
    destruct (valid_date _); [|apply null_keeps_throw].
    apply null_keeps_bind; [apply keeps_loadJsonObjectWithCache|]. intros sm.
    intros w w' H. discriminate.
Qed.

(** A manifest that the resolver reads from storage has a valid date and
    is kept with the time of the read; for the next 60,000 ms every call
    returns it without touching anything, whatever the bucket holds by
    then, and after that the entry is no longer used. A [null] result is
    not kept. *)
Theorem manifest_cache_ttl `{P : Platform} (nowMs : Z) (env : Env) (request : Request)
    (w w1 : World) (r : option LatestManifest) :
  fresh_manifest nowMs (cachedLatestManifest w) = None ->
  loadLatestManifest nowMs env request w = (Ok r, w1) ->
  match r with
  | Some m =>
      isDateString (snapshot_date m) = true /\
      cachedLatestManifest w1 = Some {| cm_loadedAtMs := nowMs; cm_manifest := m |} /\
      (forall later env' request', later - nowMs < 60000 ->
         loadLatestManifest later env' request' w1 = (Ok (Some m), w1)) /\
      (forall later, 60000 <= later - nowMs ->
         fresh_manifest later (cachedLatestManifest w1) = None)
  | None => same_decoded w w1
  end.
Proof.
  intros Hfresh Hrun. destruct r as [m|].
  - pose proof (loadLatestManifest_stores nowMs env request w Hfresh) as Hs.
    unfold ensures_at in Hs. rewrite Hrun in Hs. destruct (Hs m eq_refl) as [Hc Hd].
    split; [exact Hd|]. split; [exact Hc|]. split.
    + intros later env' request' Hl. unfold loadLatestManifest.
      rewrite bind_get_world, Hc. unfold fresh_manifest, IN_MEMORY_CACHE_TTL_MS. cbn.
      assert ((later - nowMs <? 60000) = true) as -> by lia. reflexivity.
    + intros later Hl. rewrite Hc. unfold fresh_manifest, IN_MEMORY_CACHE_TTL_MS. cbn.
      assert ((later - nowMs <? 60000) = false) as -> by lia. reflexivity.
  - eapply loadLatestManifest_null_keeps. exact Hrun.
Qed.

Lemma manifest_cache_ttl_witness :
  loadLatestManifest (P := sample_platform) 30000 (bucket_of []) tool_request warm_world
  = (Ok (Some {| snapshot_date := sample_date; page_size := None; counts := None |}),
     warm_world).
Proof.
  pose proof (manifest_cache_ttl (P := sample_platform) 1000
                (bucket_of [ (LATEST_MANIFEST_KEY, manifest_text) ]) tool_request
                initialWorld warm_world
                (Some {| snapshot_date := sample_date; page_size := None; counts := None |})
                eq_refl ltac:(vm_compute; reflexivity)) as (_ & _ & Hreuse & _).
  apply Hreuse. lia.
Defined.

Lemma append_inj_r b : forall x y, x ++ b = y ++ b -> x = y.
Proof.
  induction x as [|c x IH]; intros [|d y] H.
  - reflexivity.
  - apply (f_equal String.length) in H. rewrite !length_append_string in H. cbn in H. lia.
  - apply (f_equal String.length) in H. rewrite !length_append_string in H. cbn in H. lia.
  - cbn in H. injection H as -> H. f_equal. apply IH, H.
Qed.

Lemma SEARCH_INDEX_KEY_inj a b : SEARCH_INDEX_KEY a = SEARCH_INDEX_KEY b -> a = b.
Proof.
  unfold SEARCH_INDEX_KEY. intros H.
  apply append_inj_l, append_inj_l, append_inj_r in H. exact H.
Qed.

Lemma loadSearchIndex_stores `{P : Platform} nowMs env snapshotDate request w :
  fresh_index nowMs (SEARCH_INDEX_KEY snapshotDate) (parsedSearchCache w) = None ->
  ensures_at (loadSearchIndex nowMs env snapshotDate request)
    (fun r w' => forall doc, r = Some doc ->
       parsedSearchCache w'
       = Some {| pc_key := SEARCH_INDEX_KEY snapshotDate; pc_loadedAtMs := nowMs;
                 pc_doc := doc |} /\
       isDateString (SearchIndexDocument.snapshot_date doc) = true) w.
Proof.
  intros Hfresh. unfold ensures_at, loadSearchIndex. rewrite bind_get_world, Hfresh.
  apply ensures_bind_at. intros text.
  destruct (present text) as [t|]; [|apply ensures_ret; intros ? ? H; discriminate H].
  apply ensures_bind. intros parsed.
  destruct (valid_date (sij_snapshot_date parsed)) as [d|] eqn:Hd; [|apply ensures_throw].
  destruct (sij_items parsed) as [items|]; [|apply ensures_throw].
  intros w0 doc [= <-]. split; [reflexivity|]. cbn. eapply valid_date_Some, Hd.
Qed.

(** The parsed search index is kept in a single slot under the key of
    its snapshot: an index read from storage has a valid date and is
    returned again, without touching anything, for the same snapshot
    during the next 60,000 ms; it is never used for another snapshot nor
    after that time. *)
Theorem search_index_cache `{P : Platform} (nowMs : Z) (env : Env) (snapshotDate : string)
    (request : Request) (w w1 : World) (doc : SearchIndexDocument.t) :
  fresh_index nowMs (SEARCH_INDEX_KEY snapshotDate) (parsedSearchCache w) = None ->
  loadSearchIndex nowMs env snapshotDate request w = (Ok (Some doc), w1) ->
  isDateString (SearchIndexDocument.snapshot_date doc) = true /\
  parsedSearchCache w1
  = Some {| pc_key := SEARCH_INDEX_KEY snapshotDate; pc_loadedAtMs := nowMs; pc_doc := doc |} /\
  (forall later env' request', later - nowMs < 60000 ->
     loadSearchIndex later env' snapshotDate request' w1 = (Ok (Some doc), w1)) /\
  (forall later other, other <> snapshotDate ->
     fresh_index later (SEARCH_INDEX_KEY other) (parsedSearchCache w1) = None) /\
  (forall later, 60000 <= later - nowMs ->
     fresh_index later (SEARCH_INDEX_KEY snapshotDate) (parsedSearchCache w1) = None).
Proof.
  intros Hfresh Hrun.
  pose proof (loadSearchIndex_stores nowMs env snapshotDate request w Hfresh) as Hs.
  unfold ensures_at in Hs. rewrite Hrun in Hs. destruct (Hs doc eq_refl) as [Hc Hd].
  split; [exact Hd|]. split; [exact Hc|]. split; [|split].
  - intros later env' request' Hl. unfold loadSearchIndex.
    rewrite bind_get_world, Hc. unfold fresh_index, IN_MEMORY_CACHE_TTL_MS. cbn.
    rewrite String.eqb_refl.
    assert ((later - nowMs <? 60000) = true) as -> by lia. reflexivity.
  - intros later other Hne. rewrite Hc. unfold fresh_index. cbn.
    destruct (String.eqb_spec (SEARCH_INDEX_KEY snapshotDate) (SEARCH_INDEX_KEY other))
      as [Heq|_]; [|reflexivity].
    apply SEARCH_INDEX_KEY_inj in Heq. congruence.
  - intros later Hl. rewrite Hc. unfold fresh_index, IN_MEMORY_CACHE_TTL_MS. cbn.
    assert ((later - nowMs <? 60000) = false) as -> by lia. rewrite andb_false_r.
    reflexivity.
Qed.

Lemma search_index_cache_witness :
  let loaded := loadSearchIndex (P := sample_platform) 1000 (indexed_env manifest_text)
                  sample_date tool_request initialWorld in
  loadSearchIndex (P := sample_platform) 30000 (bucket_of []) sample_date tool_request
    (snd loaded)
  = (Ok (Some {| SearchIndexDocument.snapshot_date := sample_date;
                 SearchIndexDocument.items := [alpha; beta] |}), snd loaded).
Proof.
  cbn zeta.
  edestruct (search_index_cache (P := sample_platform) 1000 (indexed_env manifest_text)
               sample_date tool_request initialWorld) as (_ & _ & Hreuse & _).
  - reflexivity.
  - vm_compute. reflexivity.
  - exact (Hreuse 30000 (bucket_of []) tool_request ltac:(lia)).
Defined.

(** ** Router: routes without a limiter *)

Lemma keeps_limiter_ret {A} (a : A) : keeps_limiter (ret a).
Proof. intros w. repeat split. Qed.

Lemma keeps_limiter_throw {A} e : keeps_limiter (throw (A := A) e).
Proof. intros w. repeat split. Qed.

Lemma keeps_limiter_bind {A B} (m : M A) (k : A -> M B) :
  keeps_limiter m -> (forall a, keeps_limiter (k a)) -> keeps_limiter (bind m k).
Proof.
  intros Hm Hk w. unfold bind. specialize (Hm w).
  destruct (m w) as [[a|e] w1]; cbn in Hm |- *; [|exact Hm].
  destruct Hm as (H1 & H2 & H3). destruct (Hk a w1) as (K1 & K2 & K3).
  repeat split; congruence.
Qed.

Lemma keeps_limiter_loadJsonTextWithCache env key request cacheSuffix :
  keeps_limiter (loadJsonTextWithCache env key request cacheSuffix).
Proof.
  intros w. unfold loadJsonTextWithCache.
  destruct (SKILLSIGHT_DATA env) as [bucket|]; [|repeat split].
  unfold bind, cache_match, bucket_get, cache_put, emit, ret, bind. cbn.
  destruct (edgeCache w !! cacheRequest request cacheSuffix); cbn; [repeat split|].
  destruct (bucket !! key); cbn; repeat split.
Qed.

Lemma keeps_limiter_parseJson {T} (parse : string -> option T) text label :
  keeps_limiter (parseJson parse text label).
Proof. intros w. unfold parseJson. destruct (parse text); repeat split. Qed.

Lemma keeps_limiter_loadJsonObjectWithCache {T} (parse : string -> option T) env key request
    cacheSuffix :
  keeps_limiter (loadJsonObjectWithCache parse env key request cacheSuffix).
Proof.
  unfold loadJsonObjectWithCache.
  apply keeps_limiter_bind; [apply keeps_limiter_loadJsonTextWithCache|]. intros text.
  destruct (present text); [|apply keeps_limiter_ret].
  apply keeps_limiter_bind; [apply keeps_limiter_parseJson|]. intros v.
  apply keeps_limiter_ret.
Qed.

Lemma keeps_limiter_remember `{P : Platform} nowMs manifest :
  keeps_limiter (remember_manifest nowMs manifest).
Proof. intros w. repeat split. Qed.

Lemma keeps_limiter_loadLatestManifest `{P : Platform} nowMs env request :
  keeps_limiter (loadLatestManifest nowMs env request).
Proof.
  unfold loadLatestManifest.
  apply keeps_limiter_bind; [intros w; repeat split|]. intros w0.
  destruct (fresh_manifest _ _); [apply keeps_limiter_ret|].
  apply keeps_limiter_bind; [apply keeps_limiter_loadJsonTextWithCache|]. intros t1.
  destruct (present t1).
  - apply keeps_limiter_bind; [apply keeps_limiter_parseJson|]. intros parsed.
    destruct (valid_date _); [apply keeps_limiter_remember | apply keeps_limiter_throw].
  - apply keeps_limiter_bind; [apply keeps_limiter_loadJsonTextWithCache|]. intros t2.
    destruct (present t2); [|apply keeps_limiter_ret].
    apply keeps_limiter_bind; [apply keeps_limiter_parseJson|]. intros parsed.
    destruct (valid_date _); [|apply keeps_limiter_throw].
    apply keeps_limiter_bind; [apply keeps_limiter_loadJsonObjectWithCache|]. intros sm.
    apply keeps_limiter_remember.
Qed.

(** The liveness route is best-effort and free: whatever the bucket
    holds, even a manifest that fails to load, [GET /healthz] is answered
    with 200 and [cache-control: no-store], reports whether a search
    index is cached, and leaves every client's rate window and the cached
    index as they were. *)
Theorem healthz_best_effort `{P : Platform} (clock : Clock) (request : Request) (env : Env)
    (w : World) :
  method request = "GET" -> pathname request = "/healthz" ->
  let out := fetch clock request env w in
  status (fst out) = 200 /\
  obj_get "cache-control" (headers (fst out)) = Some "no-store" /\
  (exists snapshot,
     body (fst out) = BodyHealth (bool_decide (is_Some (parsedSearchCache w))) snapshot) /\
  rateLimitByClient (snd out) = rateLimitByClient w /\
  lastRateLimitSweepMs (snd out) = lastRateLimitSweepMs w /\
  parsedSearchCache (snd out) = parsedSearchCache w.
Proof.
  intros Hm Hp out. subst out. unfold fetch, route. rewrite Hm, Hp.
  change ("GET" =? "OPTIONS")%string with false. change ("GET" =? "GET")%string with true.
  cbv iota. cbn [negb].
  change (startsWith "/healthz" ("/" ++ DATA_PREFIX ++ "/")) with false. cbn [andb].
  change ("/healthz" =? "/healthz")%string with true. cbv iota.
  unfold serveHealthz.
  destruct (keeps_limiter_loadLatestManifest (manifestNow clock) env request w)
    as (H1 & H2 & H3).
  destruct (loadLatestManifest (manifestNow clock) env request w) as [latest w1].
  cbn [fst snd] in *. rewrite H3.
  split; [reflexivity|]. split; [reflexivity|]. split; [eexists; reflexivity|].
  repeat split; assumption.
Qed.

Lemma healthz_best_effort_witness :
  status (fst (fetch (P := sample_platform) sample_clock (sample_request "/healthz" [])
                 malformed_env initialWorld)) = 200.
Proof.
  apply (healthz_best_effort (P := sample_platform) sample_clock
           (sample_request "/healthz" []) malformed_env initialWorld); reflexivity.
Defined.

(** The static route serves a stored artifact as it is: a [GET] for a
    path under [/data/v1/] that ends in [.json] and whose object is in
    the bucket with a non-empty body is answered with 200, the fixed
    headers and that very text, after which the edge cache holds the
    text; no rate window is touched. *)
Theorem static_pass_through `{P : Platform} (clock : Clock) (request : Request) (env : Env)
    (bucket : gmap string string) (text : string) (w : World) :
  method request = "GET" ->
  startsWith (pathname request) "/data/v1/" = true ->
  endsWith (pathname request) ".json" = true ->
  SKILLSIGHT_DATA env = Some bucket ->
  let key := slice_from 1 (pathname request) in
  let cacheKey := cacheRequest request ("static/" ++ key) in
  edgeCache w !! cacheKey = None ->
  bucket !! key = Some text -> truthy text = true ->
  fetch clock request env w
  = ({| status := 200; headers := static_headers; body := BodyText text |},
     with_trace [CacheMatch cacheKey false; BucketGet key true; CachePut cacheKey]
       (with_cached cacheKey text w)).
Proof.
  intros Hm Hstart Hend Hb key cacheKey Hc Hk Ht. unfold fetch, route. rewrite Hm.
  change ("GET" =? "OPTIONS")%string with false. change ("GET" =? "GET")%string with true.
  cbv iota. cbn [negb]. change ("/" ++ DATA_PREFIX ++ "/") with "/data/v1/".
  rewrite Hstart, Hend. cbn [andb]. unfold serveStatic. fold key.
  rewrite (bind_Ok _ _ _ _ _
             (loadJsonTextWithCache_found env bucket key request ("static/" ++ key) text w
                Hb Hc Hk)).
  unfold present. rewrite Ht. reflexivity.
Qed.

Lemma static_pass_through_witness :
  let r := fst (fetch (P := sample_platform) sample_clock
                  (sample_request "/data/v1/latest.json" []) (indexed_env manifest_text)
                  initialWorld) in
  status r = 200 /\ body r = BodyText manifest_text.
Proof.
  cbn zeta.
  rewrite (static_pass_through (P := sample_platform) sample_clock
             (sample_request "/data/v1/latest.json" []) (indexed_env manifest_text)
             (default ∅ (SKILLSIGHT_DATA (indexed_env manifest_text))) manifest_text
             initialWorld eq_refl eq_refl eq_refl eq_refl eq_refl
             ltac:(vm_compute; reflexivity) eq_refl).
  split; reflexivity.
Defined.

(** ** Sorting: ties and the fallback order *)

Section Stability.
Context {A : Type} (compare : A -> A -> Z) (same : A -> bool).
(** The members of the class [same] are tied or already in order. *)
Hypothesis same_tied : forall x z, same x = true -> same z = true -> compare x z <= 0.

Lemma sort_insert_filter x l :
  List.filter same (sort_insert compare x l) = List.filter same (x :: l).
Proof.
  induction l as [|y l IH]; [reflexivity|]. cbn [sort_insert].
  destruct (compare x y <=? 0) eqn:Hxy; [reflexivity|].
  cbn [List.filter] in *. rewrite IH.
  destruct (same x) eqn:Hx, (same y) eqn:Hy; try reflexivity.
  pose proof (same_tied x y Hx Hy). lia.
Qed.

Lemma Array_sort_filter l : List.filter same (Array_sort compare l) = List.filter same l.
Proof.
  induction l as [|x l IH]; [reflexivity|].
  change (Array_sort compare (x :: l)) with (sort_insert compare x (Array_sort compare l)).
  rewrite sort_insert_filter. cbn [List.filter]. rewrite IH. reflexivity.
Qed.
End Stability.

(** [sortItems] is stable: the items with one and the same sort key
    (total installs, weekly installs, or name) come out in the order in
    which they went in. *)
Theorem sortItems_stable `{P : Platform} (collation : ConsistentCollation P)
    (items : list SearchIndexItem.t) (n : Z) (nm : string) :
  List.filter (fun x => nullish (SearchIndexItem.total_installs x) 0 =? n)
    (sortItems items installs)
  = List.filter (fun x => nullish (SearchIndexItem.total_installs x) 0 =? n) items /\
  List.filter (fun x => nullish (SearchIndexItem.weekly_installs x) 0 =? n)
    (sortItems items weekly)
  = List.filter (fun x => nullish (SearchIndexItem.weekly_installs x) 0 =? n) items /\
  List.filter (fun x => String.eqb (SearchIndexItem.name x) nm) (sortItems items name)
  = List.filter (fun x => String.eqb (SearchIndexItem.name x) nm) items.
Proof.
  unfold sortItems. repeat split; apply Array_sort_filter; intros x z Hx Hz; cbn.
  - lia.
  - lia.
  - apply String.eqb_eq in Hx, Hz. rewrite Hx, Hz.
    destruct (localeCompare_antisym nm nm); assumption.
Qed.

Lemma sortItems_stable_witness :
  List.filter (fun x => nullish (SearchIndexItem.total_installs x) 0 =? 7)
    (sortItems (P := sample_platform)
       [index_item "a/b/x" "x" "X" 7 0 1; index_item "a/b/y" "y" "Y" 9 0 2;
        index_item "a/b/z" "z" "Z" 7 0 3] installs)
  = [index_item "a/b/x" "x" "X" 7 0 1; index_item "a/b/z" "z" "Z" 7 0 3].
Proof.
  rewrite (proj1 (sortItems_stable sample_collation _ 7 "")). reflexivity.
Defined.

Lemma compare_entries_by_position_total a b :
  precedes compare_entries_by_position a b \/ precedes compare_entries_by_position b a.
Proof.
  unfold precedes, compare_entries_by_position. cbn zeta.
  destruct (SnapshotSkillLookup.page (snd a) - SnapshotSkillLookup.page (snd b) =? 0) eqn:E1;
    destruct (SnapshotSkillLookup.page (snd b) - SnapshotSkillLookup.page (snd a) =? 0) eqn:E2;
    lia.
Qed.

(** The order of the lookup fallback. For every mode but ["name"] the
    matching entries are sorted by page and then by index; for ["name"]
    by [localeCompare] of the ids. The result is a sorted rearrangement of
    the entries and sorting it again changes nothing. *)
Theorem sortEntries_order `{P : Platform} (collation : ConsistentCollation P)
    (sort : SortMode) (entries : list (string * SnapshotSkillLookup.t)) :
  let before a b :=
    match sort with
    | name => localeCompare (fst a) (fst b) <= 0
    | _ =>
        SnapshotSkillLookup.page (snd a) < SnapshotSkillLookup.page (snd b) \/
        (SnapshotSkillLookup.page (snd a) = SnapshotSkillLookup.page (snd b) /\
         SnapshotSkillLookup.index (snd a) <= SnapshotSkillLookup.index (snd b))
    end in
  Sorted before (sortEntries sort entries) /\
  Permutation entries (sortEntries sort entries) /\
  sortEntries sort (sortEntries sort entries) = sortEntries sort entries.
Proof.
  cbn zeta.
  assert (Hname : forall a b, precedes compare_entries_by_name a b \/
                              precedes compare_entries_by_name b a)
    by (intros a b; apply localeCompare_antisym).
  assert (Hpos : forall a b : string * SnapshotSkillLookup.t,
             precedes compare_entries_by_position a b <->
             (SnapshotSkillLookup.page (snd a) < SnapshotSkillLookup.page (snd b) \/
              (SnapshotSkillLookup.page (snd a) = SnapshotSkillLookup.page (snd b) /\
               SnapshotSkillLookup.index (snd a) <= SnapshotSkillLookup.index (snd b)))).
  { intros a b. unfold precedes, compare_entries_by_position. cbn zeta.
    destruct (_ =? 0) eqn:E; lia. }
  assert (Hsorted : Sorted (fun a b =>
             SnapshotSkillLookup.page (snd a) < SnapshotSkillLookup.page (snd b) \/
             (SnapshotSkillLookup.page (snd a) = SnapshotSkillLookup.page (snd b) /\
              SnapshotSkillLookup.index (snd a) <= SnapshotSkillLookup.index (snd b)))
            (Array_sort compare_entries_by_position entries)).
  { pose proof (Array_sort_Sorted compare_entries_by_position
                  compare_entries_by_position_total entries) as Hs.
    induction Hs as [|x l Hl IH Hhd]; constructor; [exact IH|].
    destruct Hhd; constructor. apply Hpos. assumption. }
  destruct sort; cbn [sortEntries]; (split; [|split]);
    try exact Hsorted;
    try apply Array_sort_Permutation;
    try (apply Array_sort_idempotent; first [exact Hname | exact compare_entries_by_position_total]).
  apply (Array_sort_Sorted compare_entries_by_name Hname).
Qed.

Lemma sortEntries_order_witness :
  let entries :=
    [ ("c", {| SnapshotSkillLookup.page := 2; SnapshotSkillLookup.index := 0 |});
      ("b", {| SnapshotSkillLookup.page := 1; SnapshotSkillLookup.index := 1 |});
      ("a", {| SnapshotSkillLookup.page := 1; SnapshotSkillLookup.index := 0 |}) ] in
  Permutation entries (sortEntries (P := sample_platform) installs entries) /\
  map fst (sortEntries (P := sample_platform) installs entries) = ["a"; "b"; "c"].
Proof.
  cbn zeta. split; [|reflexivity].
  exact (proj1 (proj2 (sortEntries_order sample_collation installs _))).
Defined.
(** ** Keys of leaderboard pages *)

Lemma page_files_checked :
  forallb (fun n =>
             match page_file_number (page_file (Z.of_nat n)) with
             | Some p => (p =? Z.of_nat n) && negb (has_char "/" (page_file (Z.of_nat n)))
             | None => false
             end) (seq 0 (Z.to_nat 10000)) = true.
Proof. vm_compute. reflexivity. Qed.

Lemma page_file_in_range page :
  0 <= page < 10000 ->
  page_file_number (page_file page) = Some page /\ has_char "/" (page_file page) = false.
Proof.
  intros Hp. pose proof page_files_checked as H.
  rewrite forallb_forall in H. specialize (H (Z.to_nat page)).
  rewrite Z2Nat.id in H by lia.
  assert (Hin : In (Z.to_nat page) (seq 0 (Z.to_nat 10000))) by (apply in_seq; lia).
  specialize (H Hin). destruct (page_file_number (page_file page)) as [p|]; [|discriminate].
  apply andb_true_iff in H as [Heq Hslash]. apply Z.eqb_eq in Heq. subst p.
  split; [reflexivity|]. destruct (has_char "/" (page_file page)); [discriminate | reflexivity].
Qed.

Lemma split_append_separator c a b :
  has_char c a = false -> split c (a ++ String c b) = a :: split c b.
Proof.
  induction a as [|x a IH]; intros H.
  - change ("" ++ String c b) with (String c b). cbn [split].
    rewrite Ascii.eqb_refl. reflexivity.
  - cbn [has_char] in H. apply orb_false_iff in H as [Hx Ha].
    change (String x a ++ String c b) with (String x (a ++ String c b)).
    cbn [split]. rewrite Hx, (IH Ha). reflexivity.
Qed.

Lemma DATE_RE_test_no_slash d : DATE_RE_test d = true -> has_char "/" d = false.
Proof.
  unfold DATE_RE_test. intros H.
  destruct (split "-" d) as [|y [|m [|dd [|]]]] eqn:Hsplit; try discriminate.
  repeat (apply andb_true_iff in H as [H ?]).
  destruct (split_three _ _ _ _ _ Hsplit) as (Hv & _).
  assert (Hd : forall s, all_digits s = true ->
                         all_chars (fun c => is_digit c || Ascii.eqb c "-") s = true)
    by (intros s; apply all_digits_all_chars; intros c Hc; rewrite Hc; reflexivity).
  apply (all_chars_has_char (fun c => is_digit c || Ascii.eqb c "-") "/" d eq_refl).
  rewrite Hv, !all_chars_append, (Hd y), (Hd m), (Hd dd) by assumption. reflexivity.
Qed.

(** The static route recognises the leaderboard keys that the worker
    builds: for a well-formed date, any sort mode and a page from 0 to
    9999, the key splits into the date, the sort and a page file from
    which the page number is read back. *)
Theorem leaderboard_key_round_trip (snapshotDate : string) (sort : SortMode) (page : Z) :
  DATE_RE_test snapshotDate = true -> 0 <= page < 10000 ->
  snapshot_key_parts (LEADERBOARD_PAGE_KEY snapshotDate sort page)
  = Some (snapshotDate, ["leaderboard"; SortMode_string sort; page_file page]) /\
  page_file_number (page_file page) = Some page /\
  truthy (SortMode_string sort) = true.
Proof.
  intros Hd Hp. destruct (page_file_in_range page Hp) as [Hnum Hslash].
  split; [|split; [exact Hnum | destruct sort; reflexivity]].
  unfold snapshot_key_parts, LEADERBOARD_PAGE_KEY, DATA_PREFIX.
  change ("data/v1" ++ "/snapshots/" ++ snapshotDate ++ "/leaderboard/"
            ++ SortMode_string sort ++ "/" ++ page_file page)
    with ("data" ++ String "/" ("v1" ++ String "/" ("snapshots" ++ String "/"
            (snapshotDate ++ String "/" ("leaderboard" ++ String "/"
               (SortMode_string sort ++ String "/" (page_file page))))))).
  rewrite !split_append_separator;
    try reflexivity; try (apply DATE_RE_test_no_slash; exact Hd);
    try (destruct sort; reflexivity).
  rewrite (split_single "/" (page_file page) Hslash), Hd. reflexivity.
Qed.

Lemma leaderboard_key_round_trip_witness :
  snapshot_key_parts (LEADERBOARD_PAGE_KEY sample_date installs 12)
  = Some (sample_date, ["leaderboard"; "installs"; "page-0012.json"]).
Proof.
  destruct (leaderboard_key_round_trip sample_date installs 12 eq_refl ltac:(lia))
    as [Hkey _].
  exact Hkey.
Defined.

(** ** Validation comes before data access *)

Lemma route_rate_limited_handler `{P : Platform} clock request env :
  method request = "GET" -> rate_limited_path (pathname request) ->
  exists handler,
    route clock request env = rateLimited clock request handler /\
    In handler (rate_limited_handlers clock env request).
Proof.
  intros Hm Hp. unfold route, rate_limited_handlers. rewrite Hm.
  change ("GET" =? "OPTIONS")%string with false. change ("GET" =? "GET")%string with true.
  cbv iota. cbn [negb]. change ("/" ++ DATA_PREFIX ++ "/") with "/data/v1/".
  destruct Hp as [Hp|[Hp|[Hp|[Hp|Hp]]]];
    try (rewrite Hp; eexists; split; [reflexivity | cbn; tauto]).
  - rewrite (startsWith_v1_not_static _ _ Hp). cbn [andb].
    destruct (String.eqb _ "/healthz") eqn:E1.
    { apply String.eqb_eq in E1. rewrite E1 in Hp. vm_compute in Hp. discriminate. }
    destruct (String.eqb _ "/v1/stats/summary") eqn:E2.
    { apply String.eqb_eq in E2. rewrite E2 in Hp. vm_compute in Hp. discriminate. }
    destruct (String.eqb _ "/v1/skills") eqn:E3.
    { apply String.eqb_eq in E3. rewrite E3 in Hp. vm_compute in Hp. discriminate. }
    rewrite Hp. eexists. split; [reflexivity | cbn; tauto].
  - rewrite (startsWith_v1_not_static _ _ Hp). cbn [andb].
    destruct (String.eqb _ "/healthz") eqn:E1.
    { apply String.eqb_eq in E1. rewrite E1 in Hp. vm_compute in Hp. discriminate. }
    destruct (String.eqb _ "/v1/stats/summary") eqn:E2.
    { apply String.eqb_eq in E2. rewrite E2 in Hp. vm_compute in Hp. discriminate. }
    destruct (String.eqb _ "/v1/skills") eqn:E3.
    { apply String.eqb_eq in E3. rewrite E3 in Hp. vm_compute in Hp. discriminate. }
    destruct (startsWith _ "/v1/skills/") eqn:E4;
      [eexists; split; [reflexivity | cbn; tauto]|].
    rewrite Hp. eexists. split; [reflexivity | cbn; tauto].
Qed.

Lemma not_400_rejects_early (m : M Response) request rlHeaders w :
  returns m (fun r => status r <> 400) -> rejects_early request rlHeaders w (m w).
Proof.
  intros H. specialize (H w). unfold rejects_early.
  destruct (m w) as [[r|e] w']; [|exact I]. cbn in H. intros H400. contradiction.
Qed.

Ltac not_400 :=
  repeat first
    [ apply returns_throw
    | apply returns_ret; first [exact I | rewrite ?status_json; intros; lia]
    | apply returns_bind; intros ?
    | match goal with
      | |- returns (match ?x with _ => _ end) _ => destruct x
      | |- returns (if ?b then _ else _) _ => destruct b
      end ].

Lemma searchFallback_not_400 `{P : Platform} env request rlHeaders snapshotDate query
    sortParam page pageSize :
  returns (searchFallback env request rlHeaders snapshotDate query sortParam page pageSize)
    (fun r => status r <> 400).
Proof. unfold searchFallback. not_400. Qed.

Lemma serveLeaderboardPage_not_400 `{P : Platform} env request rlHeaders snapshotDate
    latestManifest sortParam page pageSize :
  returns (serveLeaderboardPage env request rlHeaders snapshotDate latestManifest sortParam
             page pageSize)
    (fun early => match early with Some r => status r <> 400 | None => True end).
Proof. unfold serveLeaderboardPage. not_400. Qed.

Lemma resolveSnapshot_rejects_early `{P : Platform} clock env request rlHeaders unavailable
    (k : Response + string * option LatestManifest -> M Response) w :
  (forall r, k (inl r) = ret r) ->
  (forall resolved, returns (k (inr resolved)) (fun r => status r <> 400)) ->
  rejects_early request rlHeaders w
    (bind (resolveSnapshot clock env request rlHeaders unavailable) k w).
Proof.
  intros Hl Hr.
  assert (Hload : forall w,
    rejects_early request rlHeaders w
      (bind (let* latest := loadLatestManifest (manifestNow clock) env request in
             match latest with
             | None => ret (inl (json (BodyError unavailable) 503 rlHeaders))
             | Some latest => ret (inr (snapshot_date latest, Some latest))
             end) k w)).
  { intros w0. apply not_400_rejects_early.
    eapply returns_bind_with.
    - instantiate (1 := fun res => match res with
                                   | inl r => status r <> 400
                                   | inr _ => True
                                   end).
      apply returns_bind. intros [l|]; apply returns_ret; [exact I|].
      rewrite status_json. lia.
    - intros [r|resolved] Hres; [rewrite Hl; apply returns_ret; exact Hres | apply Hr]. }
  unfold resolveSnapshot.
  destruct (searchParams_get "snapshot_date" request) as [d|]; [|apply Hload].
  destruct (truthy d); [|apply Hload].
  destruct (negb (isDateString d)).
  - unfold bind, ret. rewrite Hl. cbn. intros _. split; [|reflexivity].
    eexists. split; [left; reflexivity | reflexivity].
  - apply (not_400_rejects_early (k (inr (d, None)))). apply Hr.
Qed.

Ltac validation_failure :=
  cbn; intros _; split; [eexists; split; [|reflexivity]; unfold validation_error; tauto
                        | reflexivity].

Lemma handlers_reject_early `{P : Platform} clock env request handler rlHeaders w :
  In handler (rate_limited_handlers clock env request) ->
  rejects_early request rlHeaders w (handler rlHeaders w).
Proof.
  intros Hin. cbn in Hin. destruct Hin as [<-|[<-|[<-|[<-|[<-|[]]]]]].
  - unfold serveStatsSummary. apply resolveSnapshot_rejects_early; [reflexivity|].
    intros [snapshotDate latest]. not_400.
  - unfold serveSkills. destruct (SortMode_of_string _) as [sortMode|];
      [|validation_failure].
    apply resolveSnapshot_rejects_early; [reflexivity|].
    intros [snapshotDate latest]. eapply returns_bind_with.
    + instantiate (1 := fun early => match early with
                                     | Some r => status r <> 400
                                     | None => True
                                     end).
      destruct (_ =? 0)%nat; [apply serveLeaderboardPage_not_400 | apply returns_ret; exact I].
    + intros [r|] Hearly; [apply returns_ret; exact Hearly|]. not_400.
  - unfold serveSkillDetail. destruct (parseSkillPath _ _) as [[[[id owner] repo] skillId]|];
      [|validation_failure].
    apply resolveSnapshot_rejects_early; [reflexivity|].
    intros [snapshotDate latest]. not_400.
  - unfold serveMetrics. destruct (parseSkillPath _ _) as [[[[id owner] repo] skillId]|];
      [|validation_failure].
    apply resolveSnapshot_rejects_early; [reflexivity|].
    intros [snapshotDate latest]. not_400.
  - unfold serveSearch. destruct (_ <? 2)%nat; [validation_failure|].
    destruct (100 <? _)%nat; [validation_failure|].
    destruct (SortMode_of_string _) as [sortMode|]; [|validation_failure].
    apply resolveSnapshot_rejects_early; [reflexivity|].
    intros [snapshotDate latest]. apply returns_bind. intros [index|].
    + apply returns_ret. rewrite status_json. lia.
    + apply searchFallback_not_400.
Qed.

(** On the rate-limited routes a 400 is always a validation error, and
    it is given before any data is looked at: the answer carries one of
    the five validation messages with the limiter's headers, and the
    state is the one the limiter left, with no storage operation and no
    change to any cache. *)
Theorem bad_request_before_storage `{P : Platform} (clock : Clock) (request : Request)
    (env : Env) (w : World) :
  method request = "GET" -> rate_limited_path (pathname request) ->
  status (fst (fetch clock request env w)) = 400 ->
  let limited := enforceRateLimit (rateLimitNow clock) request w in
  (exists e, validation_error request e /\
             fst (fetch clock request env w) = json (BodyError e) 400 (rl_headers (fst limited))) /\
  snd (fetch clock request env w) = snd limited.
Proof.
  intros Hm Hp. destruct (route_rate_limited_handler clock request env Hm Hp)
    as (handler & Hroute & Hin).
  unfold fetch. rewrite Hroute. unfold rateLimited.
  pose proof (blocked_status (rateLimitNow clock) request w) as Hb.
  destruct (enforceRateLimit (rateLimitNow clock) request w) as [r w1]. cbn [fst snd] in *.
  destruct (blocked r) as [resp|].
  - cbn. intros H. rewrite (Hb resp eq_refl) in H. discriminate H.
  - pose proof (handlers_reject_early clock env request handler (rl_headers r) w1 Hin) as H.
    unfold rejects_early in H.
    destruct (handler (rl_headers r) w1) as [[resp|e] w2]; cbn [fst snd].
    + intros H400. exact (H H400).
    + rewrite status_json. intros H500. discriminate H500.
Qed.

Lemma bad_request_before_storage_witness :
  let out := fetch (P := sample_platform) sample_clock bad_sort_request
               (indexed_env manifest_text) initialWorld in
  body (fst out) = BodyError "Invalid sort field: stars" /\ trace (snd out) = [].
Proof.
  destruct (bad_request_before_storage (P := sample_platform) sample_clock bad_sort_request
              (indexed_env manifest_text) initialWorld eq_refl
              ltac:(right; left; reflexivity) eq_refl) as [[e [_ He]] Hw].
  cbn zeta. rewrite Hw. split; reflexivity.
Defined.

Lemma fetch_admitted `{P : Platform} clock request env (handler : StrMap -> M Response) w
    resp w' :
  route clock request env = rateLimited clock request handler ->
  blocked (fst (enforceRateLimit (rateLimitNow clock) request w)) = None ->
  handler (rl_headers (fst (enforceRateLimit (rateLimitNow clock) request w)))
    (snd (enforceRateLimit (rateLimitNow clock) request w)) = (Ok resp, w') ->
  fetch clock request env w = (resp, w').
Proof.
  intros Hroute Hb Hh. unfold fetch.
  rewrite Hroute, (rateLimited_admitted clock request handler w Hb), Hh. reflexivity.
Qed.

Lemma handlers_reject_date `{P : Platform} clock env request handler rlHeaders w
    snapshotParam :
  In handler (rate_limited_handlers clock env request) ->
  searchParams_get "snapshot_date" request = Some snapshotParam ->
  truthy snapshotParam = true -> isDateString snapshotParam = false ->
  exists resp, handler rlHeaders w = (Ok resp, w) /\ status resp = 400.
Proof.
  intros Hin Hd Ht Hdate.
  assert (Hres : forall unavailable,
            resolveSnapshot clock env request rlHeaders unavailable
            = ret (inl (json (BodyError "Invalid snapshot_date format") 400 rlHeaders))).
  { intros u. unfold resolveSnapshot. rewrite Hd, Ht, Hdate. reflexivity. }
  cbn in Hin. destruct Hin as [<-|[<-|[<-|[<-|[<-|[]]]]]].
  - unfold serveStatsSummary. rewrite Hres. eexists. split; reflexivity.
  - unfold serveSkills. destruct (SortMode_of_string _); [rewrite Hres|];
      eexists; split; reflexivity.
  - unfold serveSkillDetail. destruct (parseSkillPath _ _) as [[[[id owner] repo] skillId]|];
      [rewrite Hres|]; eexists; split; reflexivity.
  - unfold serveMetrics. destruct (parseSkillPath _ _) as [[[[id owner] repo] skillId]|];
      [rewrite Hres|]; eexists; split; reflexivity.
  - unfold serveSearch. destruct (_ <? 2)%nat; [eexists; split; reflexivity|].
    destruct (100 <? _)%nat; [eexists; split; reflexivity|].
    destruct (SortMode_of_string _); [rewrite Hres|]; eexists; split; reflexivity.
Qed.

(** A request to a rate-limited route that the limiter admits and that
    names a [snapshot_date] which is not a calendar date is answered
    with 400 on every one of these routes, and the worker does not turn
    to the latest manifest or to any other object for it: the state is
    the one the limiter left. *)
Theorem malformed_date_rejected `{P : Platform} (clock : Clock) (request : Request)
    (env : Env) (w : World) (snapshotParam : string) :
  method request = "GET" -> rate_limited_path (pathname request) ->
  blocked (fst (enforceRateLimit (rateLimitNow clock) request w)) = None ->
  searchParams_get "snapshot_date" request = Some snapshotParam ->
  truthy snapshotParam = true -> isDateString snapshotParam = false ->
  status (fst (fetch clock request env w)) = 400 /\
  snd (fetch clock request env w) = snd (enforceRateLimit (rateLimitNow clock) request w) /\
  trace (snd (fetch clock request env w)) = trace w.
Proof.
  intros Hm Hp Hb Hd Ht Hdate.
  destruct (route_rate_limited_handler clock request env Hm Hp) as (handler & Hroute & Hin).
  destruct (handlers_reject_date clock env request handler
              (rl_headers (fst (enforceRateLimit (rateLimitNow clock) request w)))
              (snd (enforceRateLimit (rateLimitNow clock) request w))
              snapshotParam Hin Hd Ht Hdate) as (resp & Hh & Hst).
  rewrite (fetch_admitted clock request env handler w resp _ Hroute Hb Hh). cbn [fst snd].
  split; [exact Hst|]. split; [reflexivity|].
  apply enforceRateLimit_trace.
Qed.

Lemma malformed_date_rejected_witness :
  let out := fetch (P := sample_platform) sample_clock bad_date_request
               (indexed_env manifest_text) initialWorld in
  status (fst out) = 400 /\ trace (snd out) = [].
Proof.
  destruct (malformed_date_rejected (P := sample_platform) sample_clock bad_date_request
              (indexed_env manifest_text) initialWorld "2025-02-30" eq_refl
              ltac:(left; reflexivity) eq_refl eq_refl eq_refl eq_refl) as (Hst & _ & Htr).
  split; [exact Hst | exact Htr].
Defined.

(** On [/v1/skills], and on [/v1/search] once the query has passed its
    length check, a [sort] other than [installs], [weekly] or [name] is
    answered with 400 and the message ["Invalid sort field: "] followed
    by the parameter as it was sent; the state is the one the limiter
    left. *)
Theorem invalid_sort_rejected `{P : Platform} (clock : Clock) (request : Request)
    (env : Env) (w : World) :
  method request = "GET" ->
  blocked (fst (enforceRateLimit (rateLimitNow clock) request w)) = None ->
  pathname request = "/v1/skills" \/
  (pathname request = "/v1/search" /\
   (2 <= String.length (requestedQuery request) <= 100)%nat) ->
  SortMode_of_string (nullish (searchParams_get "sort" request) "installs") = None ->
  let limited := enforceRateLimit (rateLimitNow clock) request w in
  fetch clock request env w
  = (json (BodyError ("Invalid sort field: "
                        ++ nullish (searchParams_get "sort" request) "installs"))
       400 (rl_headers (fst limited)),
     snd limited).
Proof.
  intros Hm Hb Hp Hsort limited. subst limited. destruct Hp as [Hp|[Hp Hq]].
  - apply (fetch_admitted clock request env (serveSkills clock env request));
      [apply route_skills; assumption | exact Hb|].
    unfold serveSkills. rewrite Hsort. reflexivity.
  - apply (fetch_admitted clock request env (serveSearch clock env request));
      [apply route_search; assumption | exact Hb|].
    unfold serveSearch.
    destruct (Nat.ltb_spec (String.length (requestedQuery request)) 2); [lia|].
    destruct (Nat.ltb_spec 100 (String.length (requestedQuery request))); [lia|].
    rewrite Hsort. reflexivity.
Qed.

Lemma invalid_sort_rejected_witness :
  let out := fetch (P := sample_platform) sample_clock bad_sort_request
               (indexed_env manifest_text) initialWorld in
  status (fst out) = 400 /\ body (fst out) = BodyError "Invalid sort field: stars".
Proof.
  cbn zeta.
  rewrite (invalid_sort_rejected (P := sample_platform) sample_clock bad_sort_request
             (indexed_env manifest_text) initialWorld eq_refl eq_refl
             (or_introl eq_refl) eq_refl).
  split; reflexivity.
Defined.

(** ** Absent paging parameters *)

Lemma absent_page_size `{P : Platform} request cap fallback :
  searchParams_get "page_size" request = None -> 1 <= cap ->
  requestedPageSize cap fallback request = 1.
Proof.
  intros H Hcap. unfold requestedPageSize, parsePositiveInt, Math_min, Math_max.
  rewrite H. lia.
Qed.

Lemma pagination_of_one `{P : Platform} {I} request cap fallback (sorted : list I) payload :
  searchParams_get "page_size" request = None -> 1 <= cap ->
  pagination_of request cap fallback sorted payload ->
  sr_page_size payload = 1 /\ (length (sr_items payload) <= 1)%nat.
Proof.
  intros H Hcap (Hpage & _ & _ & Hsize & Hitems).
  rewrite (absent_page_size request cap fallback H Hcap) in Hsize, Hitems.
  split; [exact Hsize|].
  assert (Hstart : 0 <= (requestedPage request - 1) * 1) by lia.
  pose proof (Array_slice_length sorted _ 1 Hstart ltac:(lia)) as Hlen.
  rewrite <- Hitems in Hlen. lia.
Qed.

(** The fallbacks 12 and 200 of [page_size] stand in for a value that is
    not a number, not for a missing one: when the parameter is absent,
    every indexed answer of [/v1/search] and of [/v1/skills] has
    [page_size] 1 and at most one item. *)
Theorem absent_page_size_is_one `{P : Platform} (clock : Clock) (request : Request)
    (env : Env) (w : World) (payload : SearchResponse SearchIndexItem.t)
    (sort : option SortMode) :
  method request = "GET" ->
  pathname request = "/v1/search" \/ pathname request = "/v1/skills" ->
  searchParams_get "page_size" request = None ->
  body (fst (fetch clock request env w)) = BodySearch payload sort ->
  sr_page_size payload = 1 /\ (length (sr_items payload) <= 1)%nat.
Proof.
  intros Hm [Hp|Hp] Hsize Hbody.
  - assert (H : search_answer request (fst (fetch clock request env w))).
    { apply (fetch_answer clock request (serveSearch clock env request)).
      - apply route_search; assumption.
      - intros rl. apply serveSearch_answer.
      - intros r n Hb p s Hs. congruence.
      - intros r e Hb p s Hs. congruence. }
    destruct (H payload sort Hbody) as (doc & sortMode & _ & Hpag & _).
    exact (pagination_of_one request 50 12 _ payload Hsize ltac:(lia) Hpag).
  - assert (H : skills_answer request (fst (fetch clock request env w))).
    { apply (fetch_answer clock request (serveSkills clock env request)).
      - apply route_skills; assumption.
      - intros rl. apply serveSkills_answer.
      - intros r n Hb p s Hs. congruence.
      - intros r e Hb p s Hs. congruence. }
    destruct (H payload sort Hbody) as (doc & sortMode & latest & _ & Hpag & _).
    exact (pagination_of_one request 200 200 _ payload Hsize ltac:(lia) Hpag).
Qed.

Lemma absent_page_size_is_one_witness :
  exists payload sort,
    body (fst (fetch (P := sample_platform) sample_clock tool_request
                 (indexed_env manifest_text) initialWorld)) = BodySearch payload sort /\
    sr_page_size payload = 1.
Proof.
  eexists. eexists. split; [vm_compute; reflexivity|].
  refine (proj1 (absent_page_size_is_one (P := sample_platform) sample_clock tool_request
                   (indexed_env manifest_text) initialWorld _ None eq_refl
                   (or_introl eq_refl) eq_refl _)).
  vm_compute. reflexivity.
Defined.

(** ** Headers of every answer *)

Lemma json_keeps k data st extra :
  obj_get k extra = None -> k <> "cache-control" ->
  obj_get k (headers (json data st extra))
  = obj_get k (obj_spread JSON_HEADERS CORS_HEADERS).
Proof.
  intros Hk Hcc. unfold json. cbn [headers].
  set (base := obj_spread _ CORS_HEADERS).
  assert (Hget : obj_get k (obj_spread base extra) = obj_get k base)
    by (apply obj_get_spread_absent; exact Hk).
  destruct ((200 <=? st) && (st <? 300) && negb (has_cache_control (obj_spread base extra))).
  - rewrite obj_get_set. destruct (String.eqb_spec k "cache-control"); [contradiction|].
    exact Hget.
  - exact Hget.
Qed.

Lemma json_standard data st extra : spares extra -> standard (json data st extra).
Proof.
  unfold spares, standard, carries, JSON_HEADERS, CORS_HEADERS. cbn [app].
  rewrite !Forall_cons. cbn [fst snd]. intros (H1 & H2 & H3 & H4 & H5 & _).
  repeat split; try (rewrite json_keeps; [reflexivity | assumption | discriminate]).
  constructor.
Qed.

Lemma spares_nil : spares [].
Proof. unfold spares, JSON_HEADERS, CORS_HEADERS; repeat constructor. Qed.

Lemma spares_search_cache rlHeaders : spares rlHeaders -> spares (search_cache_headers rlHeaders).
Proof.
  unfold spares, search_cache_headers, JSON_HEADERS, CORS_HEADERS. cbn [app].
  rewrite !Forall_cons. cbn [fst snd]. intros (H1 & H2 & H3 & H4 & H5 & _).
  repeat split; try (rewrite obj_get_spread_absent; [assumption | reflexivity]).
  constructor.
Qed.

Lemma spares_limiter nowMs request w :
  spares (rl_headers (fst (enforceRateLimit nowMs request w))).
Proof.
  unfold enforceRateLimit, start_window.
  destruct (rateLimitByClient _ !! _) as [cur|]; [|unfold spares, JSON_HEADERS, CORS_HEADERS; repeat constructor].
  destruct (window_elapsed nowMs cur); [unfold spares, JSON_HEADERS, CORS_HEADERS; repeat constructor|].
  destruct (count cur >=? _); unfold spares, JSON_HEADERS, CORS_HEADERS; repeat constructor.
Qed.

Lemma blocked_standard nowMs request w resp :
  blocked (fst (enforceRateLimit nowMs request w)) = Some resp -> standard resp.
Proof.
  unfold enforceRateLimit, start_window.
  destruct (rateLimitByClient _ !! _) as [cur|]; [|discriminate].
  destruct (window_elapsed nowMs cur); [discriminate|].
  destruct (count cur >=? _); [|discriminate].
  cbn [fst blocked]. intros [= <-]. apply json_standard. unfold spares, JSON_HEADERS, CORS_HEADERS; repeat constructor.
Qed.

Ltac standard_answers :=
  repeat first
    [ apply returns_throw
    | apply returns_ret;
      first [ exact I
            | apply json_standard;
              first [assumption | apply spares_search_cache; assumption | apply spares_nil] ]
    | apply returns_bind; intros ?
    | match goal with
      | |- returns (match ?x with _ => _ end) _ => destruct x
      | |- returns (if ?b then _ else _) _ => destruct b
      end ].

Lemma resolveSnapshot_standard `{P : Platform} clock env request rlHeaders unavailable :
  spares rlHeaders ->
  returns (resolveSnapshot clock env request rlHeaders unavailable)
    (fun res => match res with inl r => standard r | inr _ => True end).
Proof. intros Hs. unfold resolveSnapshot. standard_answers. Qed.

Lemma resolved_standard `{P : Platform} clock env request rlHeaders unavailable
    (k : Response + string * option LatestManifest -> M Response) :
  spares rlHeaders ->
  (forall r, k (inl r) = ret r) ->
  (forall resolved, returns (k (inr resolved)) standard) ->
  returns (bind (resolveSnapshot clock env request rlHeaders unavailable) k) standard.
Proof.
  intros Hs Hl Hr. eapply returns_bind_with; [apply resolveSnapshot_standard; exact Hs|].
  intros [r|resolved] Hres; [rewrite Hl; apply returns_ret; exact Hres | apply Hr].
Qed.

Lemma serveLeaderboardPage_standard `{P : Platform} env request rlHeaders snapshotDate
    latestManifest sortParam page pageSize :
  spares rlHeaders ->
  returns (serveLeaderboardPage env request rlHeaders snapshotDate latestManifest sortParam
             page pageSize)
    (fun early => match early with Some r => standard r | None => True end).
Proof. intros Hs. unfold serveLeaderboardPage. standard_answers. Qed.

Lemma handlers_standard `{P : Platform} clock env request handler rlHeaders :
  In handler (rate_limited_handlers clock env request) -> spares rlHeaders ->
  returns (handler rlHeaders) standard.
Proof.
  intros Hin Hs. cbn in Hin. destruct Hin as [<-|[<-|[<-|[<-|[<-|[]]]]]].
  - unfold serveStatsSummary. apply resolved_standard; [exact Hs | reflexivity|].
    intros [snapshotDate latest]. standard_answers.
  - unfold serveSkills. destruct (SortMode_of_string _) as [sortMode|];
      [|standard_answers].
    apply resolved_standard; [exact Hs | reflexivity|].
    intros [snapshotDate latest]. eapply returns_bind_with.
    + instantiate (1 := fun early => match early with
                                     | Some r => standard r
                                     | None => True
                                     end).
      destruct (_ =? 0)%nat;
        [apply serveLeaderboardPage_standard; exact Hs | apply returns_ret; exact I].
    + intros [r|] Hearly; [apply returns_ret; exact Hearly|]. standard_answers.
  - unfold serveSkillDetail. destruct (parseSkillPath _ _) as [[[[id owner] repo] skillId]|];
      [|standard_answers].
    apply resolved_standard; [exact Hs | reflexivity|].
    intros [snapshotDate latest]. standard_answers.
  - unfold serveMetrics. destruct (parseSkillPath _ _) as [[[[id owner] repo] skillId]|];
      [|standard_answers].
    apply resolved_standard; [exact Hs | reflexivity|].
    intros [snapshotDate latest]. standard_answers.
  - unfold serveSearch. destruct (_ <? 2)%nat; [standard_answers|].
    destruct (100 <? _)%nat; [standard_answers|].
    destruct (SortMode_of_string _) as [sortMode|]; [|standard_answers].
    apply resolved_standard; [exact Hs | reflexivity|].
    intros [snapshotDate latest]. apply returns_bind. intros [index|]; [standard_answers|].
    unfold searchFallback. standard_answers.
Qed.

Lemma rateLimited_standard `{P : Platform} clock env request handler :
  In handler (rate_limited_handlers clock env request) ->
  returns (rateLimited clock request handler) standard.
Proof.
  intros Hin w. unfold rateLimited.
  pose proof (blocked_standard (rateLimitNow clock) request w) as Hb.
  pose proof (spares_limiter (rateLimitNow clock) request w) as Hs.
  destruct (enforceRateLimit (rateLimitNow clock) request w) as [r w1]. cbn [fst snd] in *.
  destruct (blocked r) as [resp|]; [cbn; apply Hb; reflexivity|].
  apply (handlers_standard clock env request handler (rl_headers r) Hin Hs).
Qed.

Lemma serveStatic_standard `{P : Platform} clock env request :
  returns (serveStatic clock env request) standard.
Proof.
  unfold serveStatic. apply returns_bind. intros stored. apply returns_bind. intros [text|].
  - apply returns_ret. unfold standard, carries, JSON_HEADERS, CORS_HEADERS; repeat constructor.
  - apply returns_ret, json_standard, spares_nil.
Qed.

Lemma serveHealthz_standard `{P : Platform} clock env request :
  returns (serveHealthz clock env request) standard.
Proof.
  intros w. unfold serveHealthz.
  destruct (loadLatestManifest (manifestNow clock) env request w) as [latest w1].
  cbn [fst]. apply json_standard. unfold spares, JSON_HEADERS, CORS_HEADERS; repeat constructor.
Qed.

(** Every answer of the worker carries the three CORS headers with their
    fixed values, and every answer except the 204 to [OPTIONS] also the
    JSON content type and [nosniff]: on no path do the rate-limit or
    cache headers replace them, and the 500 for a thrown error has them
    too. *)
Theorem every_answer_cors `{P : Platform} (clock : Clock) (request : Request) (env : Env)
    (w : World) :
  carries (fst (fetch clock request env w)) CORS_HEADERS /\
  (method request <> "OPTIONS" -> carries (fst (fetch clock request env w)) JSON_HEADERS).
Proof.
  assert (Hsplit : forall r, standard r -> carries r CORS_HEADERS /\ carries r JSON_HEADERS).
  { intros r Hr. unfold standard, carries in *. apply Forall_app in Hr. tauto. }
  destruct (String.eqb_spec (method request) "OPTIONS") as [Hopt|Hopt].
  - split; [|contradiction]. unfold fetch, route. rewrite Hopt. cbn.
    unfold carries, CORS_HEADERS. repeat constructor.
  - assert (Hstd : standard (fst (fetch clock request env w))).
    { assert (Hroute : returns (route clock request env) standard).
      { unfold route. destruct (String.eqb_spec (method request) "OPTIONS"); [contradiction|].
        destruct (negb _); [apply returns_ret, json_standard, spares_nil|].
        destruct (_ && _); [apply serveStatic_standard|].
        destruct (String.eqb _ "/healthz"); [apply serveHealthz_standard|].
        repeat (match goal with
                | |- returns (if ?b then _ else _) _ => destruct b
                end;
                [apply (rateLimited_standard clock env); unfold rate_limited_handlers; cbn [In];
                 tauto|]).
        apply returns_ret, json_standard, spares_nil. }
      specialize (Hroute w). unfold fetch.
      destruct (route clock request env w) as [[resp|e] w1]; cbn [fst] in *;
        [exact Hroute | apply json_standard, spares_nil]. }
    destruct (Hsplit _ Hstd) as [Hc Hj]. split; [exact Hc | intros _; exact Hj].
Qed.

Lemma every_answer_cors_witness :
  carries (fst (fetch (P := sample_platform) sample_clock post_request
                  (indexed_env manifest_text) initialWorld))
    (JSON_HEADERS ++ CORS_HEADERS)%list.
Proof.
  destruct (every_answer_cors (P := sample_platform) sample_clock post_request
              (indexed_env manifest_text) initialWorld) as [Hcors Hjson].
  apply Forall_app. split; [apply Hjson; discriminate | exact Hcors].
Defined.

(** ** Which answers may be cached *)

Lemma json_cache_policy data st extra :
  has_cache_control extra = false \/ 200 <= st < 300 -> cache_policy (json data st extra).
Proof.
  intros H. unfold cache_policy. rewrite status_json. unfold json. cbn [headers].
  set (base := obj_spread _ CORS_HEADERS).
  assert (Hbase : has_cache_control (obj_spread base extra) = has_cache_control extra)
    by (rewrite has_cache_control_spread; reflexivity).
  destruct ((200 <=? st) && (st <? 300)) eqn:H2xx; cbn [andb].
  - rewrite Hbase. destruct (has_cache_control extra) eqn:Hextra; cbn [negb].
    + exact Hbase.
    + rewrite has_cache_control_set, Hbase. reflexivity.
  - rewrite Hbase. destruct H as [H|H]; [exact H | lia].
Qed.

Lemma limiter_no_cache_control nowMs request w :
  has_cache_control (rl_headers (fst (enforceRateLimit nowMs request w))) = false.
Proof.
  unfold enforceRateLimit, start_window.
  destruct (rateLimitByClient _ !! _) as [cur|]; [|reflexivity].
  destruct (window_elapsed nowMs cur); [reflexivity|].
  destruct (count cur >=? _); reflexivity.
Qed.

Lemma blocked_cache_policy nowMs request w resp :
  blocked (fst (enforceRateLimit nowMs request w)) = Some resp -> cache_policy resp.
Proof.
  unfold enforceRateLimit, start_window.
  destruct (rateLimitByClient _ !! _) as [cur|]; [|discriminate].
  destruct (window_elapsed nowMs cur); [discriminate|].
  destruct (count cur >=? _); [|discriminate].
  cbn [fst blocked]. intros [= <-]. apply json_cache_policy. left. reflexivity.
Qed.

Ltac cache_policies :=
  repeat first
    [ apply returns_throw
    | apply returns_ret;
      first [ exact I
            | apply json_cache_policy; first [left; assumption | left; reflexivity | right; lia] ]
    | apply returns_bind; intros ?
    | match goal with
      | |- returns (match ?x with _ => _ end) _ => destruct x
      | |- returns (if ?b then _ else _) _ => destruct b
      end ].

Lemma resolved_cache_policy `{P : Platform} clock env request rlHeaders unavailable
    (k : Response + string * option LatestManifest -> M Response) :
  has_cache_control rlHeaders = false ->
  (forall r, k (inl r) = ret r) ->
  (forall resolved, returns (k (inr resolved)) cache_policy) ->
  returns (bind (resolveSnapshot clock env request rlHeaders unavailable) k) cache_policy.
Proof.
  intros Hs Hl Hr. eapply returns_bind_with.
  - instantiate (1 := fun res => match res with inl r => cache_policy r | inr _ => True end).
    unfold resolveSnapshot. cache_policies.
  - intros [r|resolved] Hres; [rewrite Hl; apply returns_ret; exact Hres | apply Hr].
Qed.

Lemma serveLeaderboardPage_cache_policy `{P : Platform} env request rlHeaders snapshotDate
    latestManifest sortParam page pageSize :
  has_cache_control rlHeaders = false ->
  returns (serveLeaderboardPage env request rlHeaders snapshotDate latestManifest sortParam
             page pageSize)
    (fun early => match early with Some r => cache_policy r | None => True end).
Proof. intros Hs. unfold serveLeaderboardPage. cache_policies. Qed.

Lemma handlers_cache_policy `{P : Platform} clock env request handler rlHeaders :
  In handler (rate_limited_handlers clock env request) ->
  has_cache_control rlHeaders = false ->
  returns (handler rlHeaders) cache_policy.
Proof.
  intros Hin Hs. cbn in Hin. destruct Hin as [<-|[<-|[<-|[<-|[<-|[]]]]]].
  - unfold serveStatsSummary. apply resolved_cache_policy; [exact Hs | reflexivity|].
    intros [snapshotDate latest]. cache_policies.
  - unfold serveSkills. destruct (SortMode_of_string _) as [sortMode|];
      [|cache_policies].
    apply resolved_cache_policy; [exact Hs | reflexivity|].
    intros [snapshotDate latest]. eapply returns_bind_with.
    + instantiate (1 := fun early => match early with
                                     | Some r => cache_policy r
                                     | None => True
                                     end).
      destruct (_ =? 0)%nat;
        [apply serveLeaderboardPage_cache_policy; exact Hs | apply returns_ret; exact I].
    + intros [r|] Hearly; [apply returns_ret; exact Hearly|]. cache_policies.
  - unfold serveSkillDetail. destruct (parseSkillPath _ _) as [[[[id owner] repo] skillId]|];
      [|cache_policies].
    apply resolved_cache_policy; [exact Hs | reflexivity|].
    intros [snapshotDate latest]. cache_policies.
  - unfold serveMetrics. destruct (parseSkillPath _ _) as [[[[id owner] repo] skillId]|];
      [|cache_policies].
    apply resolved_cache_policy; [exact Hs | reflexivity|].
    intros [snapshotDate latest]. cache_policies.
  - unfold serveSearch. destruct (_ <? 2)%nat; [cache_policies|].
    destruct (100 <? _)%nat; [cache_policies|].
    destruct (SortMode_of_string _) as [sortMode|]; [|cache_policies].
    apply resolved_cache_policy; [exact Hs | reflexivity|].
    intros [snapshotDate latest]. apply returns_bind. intros [index|]; [cache_policies|].
    unfold searchFallback. cache_policies.
Qed.

Lemma route_cache_policy `{P : Platform} clock request env :
  method request <> "OPTIONS" -> returns (route clock request env) cache_policy.
Proof.
  intros Hopt. unfold route.
  destruct (String.eqb_spec (method request) "OPTIONS"); [contradiction|].
  destruct (negb _); [cache_policies|].
  destruct (_ && _).
  { unfold serveStatic. apply returns_bind. intros stored. apply returns_bind.
    intros [text|]; [apply returns_ret; reflexivity | cache_policies]. }
  destruct (String.eqb _ "/healthz").
  { intros w. unfold serveHealthz.
    destruct (loadLatestManifest (manifestNow clock) env request w) as [latest w1].
    cbn [fst]. apply json_cache_policy. right. lia. }
  repeat (match goal with
          | |- returns (if ?b then _ else _) _ => destruct b
          end;
          [intros w; unfold rateLimited;
           pose proof (blocked_cache_policy (rateLimitNow clock) request w) as Hb;
           pose proof (limiter_no_cache_control (rateLimitNow clock) request w) as Hs;
           destruct (enforceRateLimit (rateLimitNow clock) request w) as [r w1];
           cbn [fst snd] in *;
           destruct (blocked r) as [resp|]; [cbn; apply Hb; reflexivity|];
           apply (handlers_cache_policy clock env request _ (rl_headers r));
           [unfold rate_limited_handlers; cbn [In]; tauto | exact Hs]|]).
  cache_policies.
Qed.

(** Errors are not cacheable and successes are: an answer to any method
    but [OPTIONS] has a [cache-control] header, under whatever
    capitalisation, exactly when its status is 2xx; so no 4xx, 429, 5xx
    answer carries one, the 500 for a thrown error included, and the 204
    to [OPTIONS] has none either. *)
Theorem cache_control_iff_success `{P : Platform} (clock : Clock) (request : Request)
    (env : Env) (w : World) :
  let r := fst (fetch clock request env w) in
  (method request <> "OPTIONS" ->
   (has_cache_control (headers r) = true <-> 200 <= status r < 300)) /\
  (method request = "OPTIONS" -> status r = 204 /\ has_cache_control (headers r) = false).
Proof.
  cbn zeta. split.
  - intros Hopt.
    assert (Hpol : cache_policy (fst (fetch clock request env w))).
    { pose proof (route_cache_policy clock request env Hopt w) as Hroute. unfold fetch.
      destruct (route clock request env w) as [[resp|e] w1]; cbn [fst] in *;
        [exact Hroute | apply json_cache_policy; left; reflexivity]. }
    unfold cache_policy in Hpol. rewrite Hpol. lia.
  - intros Hopt. unfold fetch, route. rewrite Hopt. cbn. split; reflexivity.
Qed.

Lemma cache_control_iff_success_witness :
  has_cache_control
    (headers (fst (fetch (P := sample_platform) sample_clock tool_request
                     (indexed_env manifest_text) initialWorld))) = true.
Proof.
  destruct (cache_control_iff_success (P := sample_platform) sample_clock
              tool_request (indexed_env manifest_text) initialWorld) as [H _].
  apply (proj2 (H ltac:(discriminate))). vm_compute. split; [discriminate | reflexivity].
Defined.

(** ** Rate-limit headers on every answer *)

Lemma json_limit_headers data st limit remaining reset :
  In st [200; 400; 404; 503] ->
  limited_answer (rateLimitHeaders limit remaining reset)
    (json data st (rateLimitHeaders limit remaining reset)).
Proof.
  intros Hst. split; [|exact Hst]. unfold rateLimitHeaders.
  generalize (String_of limit), (String_of (Math_max 0 remaining)), (String_of reset).
  intros a b c. unfold json. cbn [headers].
  destruct (_ && _); repeat constructor.
Qed.

Lemma json_limit_headers_search data st limit remaining reset :
  In st [200; 400; 404; 503] ->
  limited_answer (rateLimitHeaders limit remaining reset)
    (json data st (search_cache_headers (rateLimitHeaders limit remaining reset))).
Proof.
  intros Hst. split; [|exact Hst]. unfold rateLimitHeaders.
  generalize (String_of limit), (String_of (Math_max 0 remaining)), (String_of reset).
  intros a b c. unfold json. cbn [headers].
  destruct (_ && _); repeat constructor.
Qed.

Lemma blocked_limit_headers data retry limit reset :
  let r := json data 429
             (obj_spread [("Retry-After", retry)] (rateLimitHeaders limit 0 reset)) in
  obj_get "X-RateLimit-Limit" (headers r) = Some (String_of limit) /\
  obj_get "X-RateLimit-Remaining" (headers r) = Some (String_of 0) /\
  obj_get "X-RateLimit-Reset" (headers r) = Some (String_of reset) /\
  obj_get "Retry-After" (headers r) = Some retry.
Proof.
  unfold rateLimitHeaders. change (Math_max 0 0) with 0.
  generalize (String_of limit), (String_of 0), (String_of reset).
  intros a b c. repeat split.
Qed.

Ltac limit_headed :=
  repeat first
    [ apply returns_throw
    | apply returns_ret; cbv beta iota;
      lazymatch goal with
      | |- True => exact I
      | |- limited_answer _ (json _ _ (search_cache_headers _)) =>
          apply json_limit_headers_search; cbn [In]; lia
      | |- limited_answer _ (json _ _ (rateLimitHeaders _ _ _)) =>
          apply json_limit_headers; cbn [In]; lia
      end
    | apply returns_bind; intros ?
    | match goal with
      | |- returns (match ?x with _ => _ end) _ => destruct x
      | |- returns (if ?b then _ else _) _ => destruct b
      end ].

Lemma resolved_limit_headers `{P : Platform} clock env request limit remaining reset
    unavailable (k : Response + string * option LatestManifest -> M Response) :
  let rlHeaders := rateLimitHeaders limit remaining reset in
  (forall r, k (inl r) = ret r) ->
  (forall resolved, returns (k (inr resolved)) (limited_answer rlHeaders)) ->
  returns (bind (resolveSnapshot clock env request rlHeaders unavailable) k)
    (limited_answer rlHeaders).
Proof.
  intros rlHeaders Hl Hr. subst rlHeaders. eapply returns_bind_with.
  - instantiate (1 := fun res =>
                        match res with
                        | inl r => limited_answer (rateLimitHeaders limit remaining reset) r
                        | inr _ => True
                        end).
    unfold resolveSnapshot. limit_headed.
  - intros [r|resolved] Hres; [rewrite Hl; apply returns_ret; exact Hres | apply Hr].
Qed.

Lemma handlers_limit_headers `{P : Platform} clock env request handler limit remaining reset :
  In handler (rate_limited_handlers clock env request) ->
  returns (handler (rateLimitHeaders limit remaining reset))
    (limited_answer (rateLimitHeaders limit remaining reset)).
Proof.
  intros Hin. cbn in Hin. destruct Hin as [<-|[<-|[<-|[<-|[<-|[]]]]]].
  - unfold serveStatsSummary. apply resolved_limit_headers; [reflexivity|].
    intros [snapshotDate latest]. limit_headed.
  - unfold serveSkills. destruct (SortMode_of_string _) as [sortMode|];
      [|limit_headed].
    apply resolved_limit_headers; [reflexivity|].
    intros [snapshotDate latest]. eapply returns_bind_with.
    + instantiate (1 := fun early =>
                          match early with
                          | Some r =>
                              limited_answer (rateLimitHeaders limit remaining reset) r
                          | None => True
                          end).
      destruct (_ =? 0)%nat; [|apply returns_ret; exact I].
      unfold serveLeaderboardPage. limit_headed.
    + intros [r|] Hearly; [apply returns_ret; exact Hearly|]. limit_headed.
  - unfold serveSkillDetail. destruct (parseSkillPath _ _) as [[[[id owner] repo] skillId]|];
      [|limit_headed].
    apply resolved_limit_headers; [reflexivity|].
    intros [snapshotDate latest]. limit_headed.
  - unfold serveMetrics. destruct (parseSkillPath _ _) as [[[[id owner] repo] skillId]|];
      [|limit_headed].
    apply resolved_limit_headers; [reflexivity|].
    intros [snapshotDate latest]. limit_headed.
  - unfold serveSearch. destruct (_ <? 2)%nat; [limit_headed|].
    destruct (100 <? _)%nat; [limit_headed|].
    destruct (SortMode_of_string _) as [sortMode|]; [|limit_headed].
    apply resolved_limit_headers; [reflexivity|].
    intros [snapshotDate latest]. apply returns_bind. intros [index|]; [limit_headed|].
    unfold searchFallback. limit_headed.
Qed.


(** The rate-limited routes answer with 200, 400, 404, 429, 500 or 503
    and nothing else, and every answer except a 500 tells the client
    where it stands: it carries [X-RateLimit-Limit: 60], a non-negative
    [X-RateLimit-Remaining] and [X-RateLimit-Reset], whether it is a
    result, a validation error, a 404 or a 503; a 429 has 0 remaining and
    a [Retry-After] of at least one second. The 500 for a thrown error is
    built without them. *)
Theorem rate_limit_headers_everywhere `{P : Platform} (clock : Clock) (request : Request)
    (env : Env) (w : World) :
  method request = "GET" -> rate_limited_path (pathname request) ->
  let r := fst (fetch clock request env w) in
  In (status r) [200; 400; 404; 429; 500; 503] /\
  (status r <> 500 ->
   exists remaining reset,
     0 <= remaining /\
     obj_get "X-RateLimit-Limit" (headers r) = Some (String_of 60) /\
     obj_get "X-RateLimit-Remaining" (headers r) = Some (String_of remaining) /\
     obj_get "X-RateLimit-Reset" (headers r) = Some (String_of reset) /\
     (status r = 429 ->
      remaining = 0 /\
      exists retry, 1 <= retry /\ obj_get "Retry-After" (headers r) = Some (String_of retry))) /\
  (status r = 500 -> obj_get "X-RateLimit-Limit" (headers r) = None).
Proof.
  intros Hm Hp.
  destruct (route_rate_limited_handler clock request env Hm Hp) as (handler & Hroute & Hin).
  cbn zeta. unfold fetch. rewrite Hroute. unfold rateLimited.
  assert (Hform :
    match blocked (fst (enforceRateLimit (rateLimitNow clock) request w)) with
    | Some resp =>
        exists retry reset,
          1 <= retry /\
          resp = json (BodyTooManyRequests retry) 429
                   (obj_spread [("Retry-After", String_of retry)]
                      (rateLimitHeaders 60 0 reset))
    | None =>
        exists remaining reset,
          rl_headers (fst (enforceRateLimit (rateLimitNow clock) request w))
          = rateLimitHeaders 60 remaining reset
    end).
  { unfold enforceRateLimit, start_window.
    destruct (rateLimitByClient _ !! _) as [cur|];
      [|cbn [fst blocked rl_headers]; eexists _, _; reflexivity].
    destruct (window_elapsed _ cur);
      [cbn [fst blocked rl_headers]; eexists _, _; reflexivity|].
    destruct (count cur >=? _); cbn [fst blocked rl_headers]; eexists _, _;
      [split; [|reflexivity]|reflexivity].
    unfold retryAfterSeconds, Math_max. lia. }
  destruct (enforceRateLimit (rateLimitNow clock) request w) as [lim w1]. cbn [fst snd] in *.
  destruct (blocked lim) as [resp|].
  - destruct Hform as (retry & reset & Hretry & ->). cbn [fst].
    destruct (blocked_limit_headers (BodyTooManyRequests retry) (String_of retry) 60 reset)
      as (H1 & H2 & H3 & H4).
    rewrite status_json. split; [cbn [In]; lia|]. split; [|intros H; discriminate H].
    intros _. exists 0, reset. split; [lia|].
    split; [exact H1|]. split; [exact H2|]. split; [exact H3|].
    intros _. split; [reflexivity|]. exists retry. split; [exact Hretry | exact H4].
  - destruct Hform as (remaining & reset & Hrl). rewrite Hrl.
    pose proof (handlers_limit_headers clock env request handler 60 remaining reset Hin w1)
      as Hh.
    destruct (handler (rateLimitHeaders 60 remaining reset) w1) as [[resp|e] w2];
      cbn [fst] in *.
    + destruct Hh as [Hh Hst]. rewrite !Forall_cons in Hh. destruct Hh as (H1 & H2 & H3 & _).
      cbn [In] in Hst. split; [cbn [In]; lia|]. split; [|lia].
      intros _. exists (Math_max 0 remaining), reset. split; [unfold Math_max; lia|].
      split; [exact H1|]. split; [exact H2|]. split; [exact H3|]. lia.
    + rewrite status_json. split; [cbn [In]; lia|]. split; [intros H; contradiction|].
      intros _. unfold json. cbn [headers]. reflexivity.
Qed.

Lemma rate_limit_headers_everywhere_witness :
  let r := fst (fetch (P := sample_platform) sample_clock bad_sort_request
                  (indexed_env manifest_text) initialWorld) in
  status r = 400 /\ obj_get "X-RateLimit-Limit" (headers r) = Some (String_of 60).
Proof.
  cbn zeta. split; [reflexivity|].
  destruct (rate_limit_headers_everywhere (P := sample_platform) sample_clock
              bad_sort_request (indexed_env manifest_text) initialWorld eq_refl
              ltac:(right; left; reflexivity)) as (_ & Hheaders & _).
  destruct Hheaders as (remaining & reset & _ & Hlimit & _);
    [intros H; discriminate H | exact Hlimit].
Defined.
